(** * Environment initialization orchestrator (amplify-cli, [initialize-env.ts])

    A shallow embedding of [packages/amplify-cli/src/initialize-env.ts]:
    the entry point [initializeEnv] together with its two private helpers
    [mergeBackendConfigIntoAmplifyMeta] and
    [mergeCategoryEnvParamsIntoAmplifyMeta].

    The function is asynchronous, stateful and fallible.  It is embedded in
    a state-and-exception monad over a run state made of
    - the [Store]: everything plugin hooks and collaborators may read or
      change (the files behind [stateManager], [context.exeInfo]);
    - the [trace]: the calls the orchestrator makes to its collaborators, in
      program order;
    - the state of the module-private [ora] spinner.
    Every [await] is a sequencing point of the monad: the source never starts
    two promises at once, so one thread of control is faithful.  Hooks and
    collaborators are assumed to settle (a promise that never settles has no
    counterpart here). *)

From stdpp Require Import gmap strings list.

#[local] Set Warnings "-register-all".

(** ** JavaScript data *)

(** The JSON-like values held by the meta, the backend config and the
    team-provider info.  An object is a finite map of its own data
    properties; arrays do not occur in the paths the orchestrator walks.
    Property names are data keys: names inherited from [Object.prototype]
    and the index and [length] properties of primitive strings are outside
    the model. *)
Inductive value : Type :=
| VUndefined
| VNull
| VBool (b : bool)
| VNum (n : Z)
| VStr (s : string)
| VObj (o : gmap string value).

Abbreviation obj := (gmap string value).

(** Options bag handed to [amplifyFaultWithTroubleshootingLink]. *)
Record FaultOptions : Type := mkFaultOptions {
  fo_message : string;
  fo_details : option string;
  fo_resolution : string;
  fo_stack : string;
}.

(** Thrown values.  [JsError] is an [Error] raised by the runtime, a
    collaborator, a plugin hook or a dynamic [import]; [AmplifyFault] is what
    [amplifyFaultWithTroubleshootingLink name options cause] builds. *)
Inductive exn : Type :=
| JsError (name message stack : string)
| AmplifyFault (name : string) (options : FaultOptions) (cause : exn).

(** Modelled from the spec: [amplifyFaultWithTroubleshootingLink] lives in
    amplify-cli-core; a fault carries its name, the message, details,
    remediation hint and stack it was given, and the underlying cause. *)
Definition amplifyFaultWithTroubleshootingLink
    (name : string) (options : FaultOptions) (cause : exn) : exn :=
  AmplifyFault name options cause.

(** [e.message] and [e.stack]. *)
Definition exn_message (e : exn) : string :=
  match e with
  | JsError _ m _ => m
  | AmplifyFault _ o _ => fo_message o
  end.

Definition exn_stack (e : exn) : string :=
  match e with
  | JsError _ _ s => s
  | AmplifyFault _ o _ => fo_stack o
  end.

(** A [TypeError] of the runtime; its stack text is not modelled. *)
Definition TypeError (message : string) : exn := JsError "TypeError" message "".

Inductive result (A : Type) : Type :=
| Ok (a : A)
| Err (e : exn).
Arguments Ok {A} a.
Arguments Err {A} e.

(** [v[k]]: a property read.  Reading from [undefined] or [null] throws. *)
Definition get_prop (v : value) (k : string) : result value :=
  match v with
  | VObj o => Ok (default VUndefined (o !! k))
  | VUndefined => Err (TypeError ("Cannot read properties of undefined (reading '" +:+ k +:+ "')"))
  | VNull => Err (TypeError ("Cannot read properties of null (reading '" +:+ k +:+ "')"))
  | VBool _ | VNum _ | VStr _ => Ok VUndefined
  end.

(** [v?.[k]]: optional chaining short-circuits on [undefined] and [null]. *)
Definition get_prop_opt (v : value) (k : string) : value :=
  match v with
  | VObj o => default VUndefined (o !! k)
  | _ => VUndefined
  end.

(** [Object.assign(target, source)] for two objects: every own key of the
    source is written over the target's. *)
Definition Object_assign (target source : obj) : obj := source ∪ target.

(** [Object.keys(o).includes(k)]. *)
Definition has_key (o : obj) (k : string) : bool := bool_decide (is_Some (o !! k)).

(** ** Collaborators *)

(** [IEnvironmentParameterManager], as far as the orchestrator uses it.
    [hasAnyParams c s] and [getAllParams c s] stand for
    [getResourceParamManager(c, s).hasAnyParams()] and [.getAllParams()]. *)
Record IEnvironmentParameterManager : Type := mkEnvParamManager {
  hasResourceParamManager : string → string → bool;
  hasAnyParams : string → string → bool;
  getAllParams : string → string → obj;
}.

Record LocalEnvInfo : Type := mkLocalEnvInfo {
  envName : string;
  projectPath : string;
}.

(** The fields of [context.exeInfo] the orchestrator reads or writes.
    [providers] is [context.exeInfo?.projectConfig?.providers], [None] when
    the chain yields [undefined]. *)
Record ExeInfo : Type := mkExeInfo {
  localEnvInfo : LocalEnvInfo;
  restoreBackend : bool;
  forcePush : option bool;
  providers : option (list string);
}.

(** What hooks and collaborators share with the orchestrator.  Each
    [stateManager] reader is described by its current outcome. *)
Record Store : Type := mkStore {
  exeInfo : ExeInfo;
  smMeta : result obj;               (* stateManager.getMeta() *)
  smCurrentMeta : option (result value);
      (* None: currentMetaFileExists() is false; otherwise getCurrentMeta() *)
  smTeamProviderInfo : result value; (* stateManager.getTeamProviderInfo(projectPath) *)
  smBackendConfig : result obj;      (* stateManager.getBackendConfig(projectPath) *)
}.

(** A plugin hook or an effectful collaborator: it settles with success or
    an error and may change the store on the way. *)
Definition Hook : Type := Store → result unit * Store.

(** A module obtained by dynamic [import]: its optional lifecycle hooks.
    [initEnv] receives the second argument of the call ([undefined] for
    categories, the provider meta for providers). *)
Record PluginModule : Type := mkPluginModule {
  initEnv : option (value → Hook);
  pushResources : option (value → Hook);
}.

Record PluginInfo : Type := mkPluginInfo { packageLocation : string }.

(** The info object returned by [getProjectDetails()]: for each modelled
    field of [exeInfo], whether the info object has that key and its value. *)
Record ProjectDetails : Type := mkProjectDetails {
  pd_localEnvInfo : option LocalEnvInfo;
  pd_restoreBackend : option bool;
  pd_forcePush : option (option bool);
  pd_providers : option (option (list string));
}.

Record Input : Type := mkInput {
  command : string;
  subCommands : list string;
}.

(** The orchestrator's environment: [context.input], the plugin registry,
    the module loader and the [context.amplify] facade. *)
Record Env : Type := mkEnv {
  input : Input;
  ensureEnvParamManager : string → result IEnvironmentParameterManager;
  getAllCategoryPluginInfo : list (string * list PluginInfo);
      (* the object's entries in [Object.keys] order *)
  getProviderPlugins : gmap string string;
  jsImport : string → result PluginModule;
  getProjectDetails : Store → result ProjectDetails;
  confirmPrompt : string → result bool;
  getResourceStatus : string → Store → result value;
  onCategoryOutputsChange : value → Hook;
}.

(** ** Trace *)

Inductive timerId : Type := INIT_ENV_PLATFORM | INIT_ENV_CATEGORIES.

Inductive event : Type :=
| EvGetTeamProviderInfo (path : string)
| EvEnsureEnvParamManager (envName : string)
| EvGetBackendConfig (path : string)
| EvHasResourceParamManager (category service : string)
| EvSetMeta (path : string) (meta : obj)
| EvGetMeta
| EvImport (location : string)
| EvSpinnerStart (text : string)
| EvSpinnerSucceed (text : string)
| EvSpinnerFail (text : string)
| EvStartTimer (id : timerId)
| EvStopTimer (id : timerId)
| EvCategoryInitEnv (location : string)
| EvProviderInitEnv (provider : string) (providerMeta : value)
| EvGetProjectDetails
| EvConfirmPrompt (message : string)
| EvGetResourceStatus (provider : string)
| EvPushResources (provider : string) (resourceDefinition : value)
| EvOnCategoryOutputsChange (currentAmplifyMeta : value)
| EvPrinterSuccess (text : string).

(** ** The monad *)

Record RunState : Type := mkRun {
  store : Store;
  trace : list event;
  spinning : bool;
}.

Definition M (A : Type) : Type := RunState → result A * RunState.

Definition ret {A} (a : A) : M A := λ rs, (Ok a, rs).

Definition bind {A B} (m : M A) (k : A → M B) : M B :=
  λ rs, match m rs with
        | (Ok a, rs') => k a rs'
        | (Err e, rs') => (Err e, rs')
        end.

Definition throw {A} (e : exn) : M A := λ rs, (Err e, rs).

(** [try { m } catch (e) { h e }] *)
Definition tryCatch {A} (m : M A) (h : exn → M A) : M A :=
  λ rs, match m rs with
        | (Ok a, rs') => (Ok a, rs')
        | (Err e, rs') => h e rs'
        end.

(** [try { m } finally { f }]: [f] runs on both exits; its own failure
    replaces the outcome of [m]. *)
Definition tryFinally {A} (m : M A) (f : M unit) : M A :=
  λ rs, match m rs with
        | (r, rs') =>
            match f rs' with
            | (Ok _, rs'') => (r, rs'')
            | (Err e, rs'') => (Err e, rs'')
            end
        end.

Declare Scope run_scope.
Delimit Scope run_scope with run.
Notation "'let!' x ':=' m 'in' k" := (bind m (λ x, k))
  (at level 10, x pattern, m at level 100, k at level 200) : run_scope.
Notation "m ';;;' k" := (bind m (λ _, k))
  (at level 100, k at level 200, right associativity) : run_scope.
#[local] Open Scope run_scope.

Definition liftResult {A} (r : result A) : M A := λ rs, (r, rs).

Definition log (ev : event) : M unit :=
  λ rs, (Ok tt, mkRun (store rs) (trace rs ++ [ev]) (spinning rs)).

Definition getStore : M Store := λ rs, (Ok (store rs), rs).

Definition putStore (s : Store) : M unit :=
  λ rs, (Ok tt, mkRun s (trace rs) (spinning rs)).

(** Awaiting a hook: it sees and changes the store only. *)
Definition callHook (h : Hook) : M unit :=
  λ rs, let '(r, s') := h (store rs) in (r, mkRun s' (trace rs) (spinning rs)).

Definition setSpinning (b : bool) : M unit :=
  λ rs, (Ok tt, mkRun (store rs) (trace rs) b).

(** A task queued for the sequential executor: [() => Promise]. *)
Definition Task : Type := M unit.

(** [for (const x of xs) { acc = await f(acc, x) }]: the loop stops at the
    first iteration that throws. *)
Fixpoint for_of {A S} (xs : list A) (f : S → A → M S) (acc : S) : M S :=
  match xs with
  | [] => ret acc
  | x :: rest => let! acc' := f acc x in for_of rest f acc'
  end.

(** Modelled from the spec: [sequential] is the promise-sequential package
    (SequentialTaskExecutor, spec 4.3): the tasks run one at a time in array
    order, the first failure stops the run and is the failure of the whole,
    and the empty array succeeds. *)
Fixpoint sequential (tasks : list Task) : M unit :=
  match tasks with
  | [] => ret tt
  | t :: rest => t ;;; sequential rest
  end.

(** ** The spinner and the printer *)

Definition spinner_start (text : string) : M unit :=
  log (EvSpinnerStart text) ;;; setSpinning true.

Definition spinner_succeed (text : string) : M unit :=
  log (EvSpinnerSucceed text) ;;; setSpinning false.

Definition spinner_fail (text : string) : M unit :=
  log (EvSpinnerFail text) ;;; setSpinning false.

Definition printer_success (text : string) : M unit := log (EvPrinterSuccess text).

(** ** [stateManager] *)

Definition getTeamProviderInfo (projectPath : string) : M value :=
  log (EvGetTeamProviderInfo projectPath) ;;;
  let! s := getStore in liftResult (smTeamProviderInfo s).

Definition getBackendConfig (projectPath : string) : M obj :=
  log (EvGetBackendConfig projectPath) ;;;
  let! s := getStore in liftResult (smBackendConfig s).

Definition getMeta : M obj :=
  log EvGetMeta ;;;
  let! s := getStore in liftResult (smMeta s).

(** [stateManager.setMeta(projectPath, meta)]: later reads yield [meta]. *)
Definition setMeta (projectPath : string) (meta : obj) : M unit :=
  log (EvSetMeta projectPath meta) ;;;
  let! s := getStore in
  putStore (mkStore (exeInfo s) (Ok meta) (smCurrentMeta s)
                    (smTeamProviderInfo s) (smBackendConfig s)).

(** ** The two private helpers (lines 153-169) *)

Definition mergeBackendConfigIntoAmplifyMeta (projectPath : string) (amplifyMeta : obj) : M obj :=
  let! backendConfig := getBackendConfig projectPath in
  ret (Object_assign amplifyMeta backendConfig).

(** [Object.assign(amplifyMeta[category][serviceName], params)], line 168.
    The object is changed in place, so the meta is returned with the entry
    replaced.  A primitive entry is boxed, the box takes the keys and is
    dropped. *)
Definition assignParams (amplifyMeta : obj) (category serviceName : string) (params : obj)
  : result obj :=
  match default VUndefined (amplifyMeta !! category) with
  | VObj c =>
      match default VUndefined (c !! serviceName) with
      | VObj target =>
          Ok (<[category := VObj (<[serviceName := VObj (Object_assign target params)]> c)]>
                amplifyMeta)
      | VUndefined | VNull => Err (TypeError "Cannot convert undefined or null to object")
      | VBool _ | VNum _ | VStr _ => Ok amplifyMeta
      end
  | VUndefined =>
      Err (TypeError ("Cannot read properties of undefined (reading '" +:+ serviceName +:+ "')"))
  | VNull =>
      Err (TypeError ("Cannot read properties of null (reading '" +:+ serviceName +:+ "')"))
  | VBool _ | VNum _ | VStr _ => Err (TypeError "Cannot convert undefined or null to object")
  end.

Definition mergeCategoryEnvParamsIntoAmplifyMeta
    (envParamManager : IEnvironmentParameterManager) (amplifyMeta : obj)
    (category serviceName : string) : M obj :=
  log (EvHasResourceParamManager category serviceName) ;;;
  if hasResourceParamManager envParamManager category serviceName
     && hasAnyParams envParamManager category serviceName
  then liftResult (assignParams amplifyMeta category serviceName
                     (getAllParams envParamManager category serviceName))
  else ret amplifyMeta.

(** ** [initializeEnv], piece by piece *)

(** The remediation hint every fault of this file carries. *)
Definition resolutionText : string :=
  "Review the error message and stack trace for additional information.".

(** Lines 26 and 29: [{ providers: {} }] with
    [providers.awscloudformation = teamProviderInfo?.[currentEnv]?.awscloudformation]. *)
Definition freshMeta (teamProviderInfo : value) (currentEnv : string) : obj :=
  {[ "providers" :=
       VObj {[ "awscloudformation" :=
                 get_prop_opt (get_prop_opt teamProviderInfo currentEnv) "awscloudformation" ]} ]}.

(** Lines 26-37: build the in-memory meta. *)
Definition configMerge (env : Env) (projectPath currentEnv : string) : M obj :=
  let! teamProviderInfo := getTeamProviderInfo projectPath in
  let amplifyMeta : obj := freshMeta teamProviderInfo currentEnv in
  log (EvEnsureEnvParamManager currentEnv) ;;;
  let! envParamManager := liftResult (ensureEnvParamManager env currentEnv) in
  let! s := getStore in
  if negb (restoreBackend (exeInfo s)) then
    let! amplifyMeta := mergeBackendConfigIntoAmplifyMeta projectPath amplifyMeta in
    let! amplifyMeta :=
      mergeCategoryEnvParamsIntoAmplifyMeta envParamManager amplifyMeta
        "hosting" "ElasticContainer" in
    setMeta projectPath amplifyMeta ;;;
    ret amplifyMeta
  else ret amplifyMeta.

(** [() => initEnv(context)], line 50. *)
Definition categoryInitEnvTask (location : string) (hook : value → Hook) : Task :=
  log (EvCategoryInitEnv location) ;;; callHook (hook VUndefined).

(** Lines 45-60.  The closure pushes on [categoryInitializationTasks]; the
    array is threaded through. *)
Definition importCategoryPluginAndQueueInitEnvTask
    (env : Env) (categoryInitializationTasks : list Task)
    (pluginInfo : PluginInfo) (category : string) : M (list Task) :=
  tryCatch
    (log (EvImport (packageLocation pluginInfo)) ;;;
     let! pluginModule := liftResult (jsImport env (packageLocation pluginInfo)) in
     match initEnv pluginModule with
     | Some hook =>
         ret (categoryInitializationTasks
                ++ [categoryInitEnvTask (packageLocation pluginInfo) hook])
     | None => ret categoryInitializationTasks
     end)
    (λ e, throw (amplifyFaultWithTroubleshootingLink "PluginNotLoadedFault"
                   {| fo_message := "Could not load plugin for category " +:+ category +:+ ".";
                      fo_details := Some (exn_message e);
                      fo_resolution := resolutionText;
                      fo_stack := exn_stack e |} e)).

(** [categoryPluginInfoList[category]] *)
Fixpoint pluginsOf (categoryPluginInfoList : list (string * list PluginInfo)) (category : string)
  : option (list PluginInfo) :=
  match categoryPluginInfoList with
  | [] => None
  | (k, plugins) :: rest =>
      if String.eqb k category then Some plugins else pluginsOf rest category
  end.

(** Lines 39-65. *)
Definition resolveCategoryTasks (env : Env) : M (list Task) :=
  let! meta := getMeta in
  let categoryPluginInfoList := getAllCategoryPluginInfo env in
  let availableCategories :=
    List.filter (λ key, has_key meta key) (map fst categoryPluginInfoList) in
  for_of availableCategories
    (λ tasks category,
       match pluginsOf categoryPluginInfoList category with
       | Some plugins =>
           for_of plugins
             (λ tasks pluginInfo,
                importCategoryPluginAndQueueInitEnvTask env tasks pluginInfo category)
             tasks
       | None => throw (TypeError "categoryPluginInfoList[category] is not iterable")
       end)
    [].

(** [providerPlugins[provider]] handed to [import]: a missing entry is
    [undefined], which [import] turns into the specifier "undefined". *)
Definition providerLocation (env : Env) (provider : string) : string :=
  default "undefined" (getProviderPlugins env !! provider).

(** [() => providerModule.initEnv(context, amplifyMeta.providers[provider])],
    line 75: the argument is evaluated, then the callee is called. *)
Definition providerInitEnvTask (providerModule : PluginModule) (amplifyMeta : obj)
    (provider : string) : Task :=
  let! providersEntry := liftResult (get_prop (VObj amplifyMeta) "providers") in
  let! providerMeta := liftResult (get_prop providersEntry provider) in
  match initEnv providerModule with
  | Some hook => log (EvProviderInitEnv provider providerMeta) ;;; callHook (hook providerMeta)
  | None => throw (TypeError "providerModule.initEnv is not a function")
  end.

(** Lines 67-84. *)
Definition resolveProviderTasks (env : Env) (amplifyMeta : obj) : M (list Task) :=
  let! s := getStore in
  match providers (exeInfo s) with
  | None => throw (TypeError "context.exeInfo?.projectConfig?.providers is not iterable")
  | Some providerList =>
      for_of providerList
        (λ initializationTasks provider,
           tryCatch
             (log (EvImport (providerLocation env provider)) ;;;
              let! providerModule := liftResult (jsImport env (providerLocation env provider)) in
              ret (initializationTasks
                     ++ [providerInitEnvTask providerModule amplifyMeta provider]))
             (λ e, throw (amplifyFaultWithTroubleshootingLink "PluginNotLoadedFault"
                            {| fo_message :=
                                 "Could not load plugin for provider " +:+ provider +:+ ".";
                               fo_details := Some (exn_message e);
                               fo_resolution := resolutionText;
                               fo_stack := exn_stack e |} e)))
        []
  end.

(** Lines 90-101: the provider-initialization phase. *)
Definition providerInitPhase (currentEnv : string) (initializationTasks : list Task) : M unit :=
  tryFinally
    (tryCatch
       (log (EvStartTimer INIT_ENV_PLATFORM) ;;; sequential initializationTasks)
       (λ e, throw (amplifyFaultWithTroubleshootingLink "ProjectInitFault"
                      {| fo_message :=
                           "Could not initialize platform for '" +:+ currentEnv +:+ "': "
                             +:+ exn_message e;
                         fo_details := None;
                         fo_resolution := resolutionText;
                         fo_stack := exn_stack e |} e)))
    (log (EvStopTimer INIT_ENV_PLATFORM)).

(** [Object.assign(context.exeInfo, projectDetails)], line 110. *)
Definition assignProjectDetails (x : ExeInfo) (projectDetails : ProjectDetails) : ExeInfo :=
  {| localEnvInfo := default (localEnvInfo x) (pd_localEnvInfo projectDetails);
     restoreBackend := default (restoreBackend x) (pd_restoreBackend projectDetails);
     forcePush := default (forcePush x) (pd_forcePush projectDetails);
     providers := default (providers x) (pd_providers projectDetails) |}.

Definition setExeInfo (s : Store) (x : ExeInfo) : Store :=
  mkStore x (smMeta s) (smCurrentMeta s) (smTeamProviderInfo s) (smBackendConfig s).

(** Lines 107-110. *)
Definition refreshProjectDetails (env : Env) : M unit :=
  log EvGetProjectDetails ;;;
  let! s := getStore in
  let! projectDetails := liftResult (getProjectDetails env s) in
  putStore (setExeInfo s (assignProjectDetails (exeInfo s) projectDetails)).

(** Lines 112-123: the category-initialization phase. *)
Definition categoryInitPhase (currentEnv : string) (categoryInitializationTasks : list Task)
  : M unit :=
  tryFinally
    (tryCatch
       (log (EvStartTimer INIT_ENV_CATEGORIES) ;;; sequential categoryInitializationTasks)
       (λ e, throw (amplifyFaultWithTroubleshootingLink "ProjectInitFault"
                      {| fo_message :=
                           "Could not initialize categories for '" +:+ currentEnv +:+ "': "
                             +:+ exn_message e;
                         fo_details := None;
                         fo_resolution := resolutionText;
                         fo_stack := exn_stack e |} e)))
    (log (EvStopTimer INIT_ENV_CATEGORIES)).

Definition pushQuestion : string :=
  "Do you want to push your resources to the cloud for your environment?".

(** Lines 125-129. *)
Definition pushDecision (env : Env) : M unit :=
  let! s := getStore in
  match forcePush (exeInfo s) with
  | None =>
      log (EvConfirmPrompt pushQuestion) ;;;
      let! answer := liftResult (confirmPrompt env pushQuestion) in
      let x := exeInfo s in
      putStore (setExeInfo s (mkExeInfo (localEnvInfo x) (restoreBackend x) (Some answer)
                                        (providers x)))
  | Some _ => ret tt
  end.

(** [() => providerModule.pushResources(context, resourceDefinition)], line 136. *)
Definition pushResourcesTask (providerModule : PluginModule) (provider : string)
    (resourceDefinition : value) : Task :=
  match pushResources providerModule with
  | Some hook =>
      log (EvPushResources provider resourceDefinition) ;;; callHook (hook resourceDefinition)
  | None => throw (TypeError "providerModule.pushResources is not a function")
  end.

(** Lines 132-137: the loop that queues the push tasks. *)
Definition queuePushTasks (env : Env) : M (list Task) :=
  let! s := getStore in
  match providers (exeInfo s) with
  | None => throw (TypeError "context.exeInfo.projectConfig.providers is not iterable")
  | Some providerList =>
      for_of providerList
        (λ providerPushTasks provider,
           log (EvImport (providerLocation env provider)) ;;;
           let! providerModule := liftResult (jsImport env (providerLocation env provider)) in
           log (EvGetResourceStatus provider) ;;;
           let! s := getStore in
           let! resourceDefinition := liftResult (getResourceStatus env provider s) in
           ret (providerPushTasks
                  ++ [pushResourcesTask providerModule provider resourceDefinition]))
        []
  end.

(** Lines 131-140. *)
Definition pushPhase (env : Env) : M unit :=
  let! s := getStore in
  match forcePush (exeInfo s) with
  | Some true =>
      let! providerPushTasks := queuePushTasks env in
      sequential providerPushTasks
  | _ => ret tt
  end.

(** Line 143. *)
Definition outputsRegeneration (env : Env) (currentAmplifyMeta : value) : M unit :=
  log (EvOnCategoryOutputsChange currentAmplifyMeta) ;;;
  callHook (onCategoryOutputsChange env currentAmplifyMeta).

(** Line 21. *)
Definition isPulling (i : Input) : bool :=
  String.eqb (command i) "pull"
  || (String.eqb (command i) "env"
      && match subCommands i with
         | first :: _ => String.eqb first "pull"
         | [] => false
         end).

(** Lines 24-65 and 67-84: merge, then resolve the category and the provider
    tasks. *)
Definition mergeAndResolve (env : Env) (currentEnv : string)
  : M (list Task * list Task) :=
  let! s := getStore in
  let projectPath := projectPath (localEnvInfo (exeInfo s)) in
  let! amplifyMeta := configMerge env projectPath currentEnv in
  let! categoryInitializationTasks := resolveCategoryTasks env in
  let! initializationTasks := resolveProviderTasks env amplifyMeta in
  ret (initializationTasks, categoryInitializationTasks).

(** The spinner texts of lines 87 and 104. *)
Definition startText (pulling : bool) (currentEnv : string) : string :=
  if pulling
  then "Fetching updates to backend environment: " +:+ currentEnv +:+ " from the cloud."
  else "Initializing your environment: " +:+ currentEnv.

Definition succeedText (pulling : bool) (currentEnv : string) : string :=
  if pulling
  then "Successfully pulled backend environment " +:+ currentEnv +:+ " from the cloud."
  else "Initialized provider successfully.".

(** Lines 86-123: the two timed initialization phases. *)
Definition initPhases (env : Env) (currentEnv : string)
    (initializationTasks categoryInitializationTasks : list Task) : M unit :=
  spinner_start (startText (isPulling (input env)) currentEnv) ;;;
  providerInitPhase currentEnv initializationTasks ;;;
  spinner_succeed (succeedText (isPulling (input env)) currentEnv) ;;;
  refreshProjectDetails env ;;;
  categoryInitPhase currentEnv categoryInitializationTasks.

(** Lines 24-129: everything up to the push decision. *)
Definition stepsBeforePush (env : Env) (currentEnv : string) : M unit :=
  let! tasks := mergeAndResolve env currentEnv in
  initPhases env currentEnv (fst tasks) (snd tasks) ;;;
  pushDecision env.

(** Lines 24-140: everything before the outputs regeneration. *)
Definition stepsBeforeOutputs (env : Env) (currentEnv : string) : M unit :=
  stepsBeforePush env currentEnv ;;;
  pushPhase env.

(** Lines 24-145: the body of the outer [try]. *)
Definition initializeEnv_try (env : Env) (currentAmplifyMeta : value) (currentEnv : string)
  : M unit :=
  stepsBeforeOutputs env currentEnv ;;;
  outputsRegeneration env currentAmplifyMeta ;;;
  printer_success
    (if isPulling (input env) then "" else "Initialized your environment successfully.").

Definition failText : string := "There was an error initializing your environment.".

(** The default value of the second parameter, line 18: it is evaluated
    when the caller passes nothing (or [undefined]). *)
Definition defaultCurrentAmplifyMeta (passed : value) (s : Store) : result value :=
  match passed with
  | VUndefined =>
      match smCurrentMeta s with
      | Some r => r
      | None => Ok VUndefined
      end
  | v => Ok v
  end.

(** Lines 16-151. *)
Definition initializeEnv (env : Env) (passedCurrentAmplifyMeta : value) : M unit :=
  let! s := getStore in
  let! currentAmplifyMeta :=
    liftResult (defaultCurrentAmplifyMeta passedCurrentAmplifyMeta s) in
  let currentEnv := envName (localEnvInfo (exeInfo s)) in
  tryCatch
    (initializeEnv_try env currentAmplifyMeta currentEnv)
    (λ e, spinner_fail failText ;;; throw e).

(** ** A sample project

    Environment "dev", one provider, one initialized category ("auth") with a
    plugin exposing [initEnv], and a category ("storage") that was never
    initialized. *)
Module Sample.

Definition okHook : value → Hook := λ _ s, (Ok tt, s).

Definition hookError : exn := JsError "Error" "stack update failed" "at plugin hook".

Definition failingHook : value → Hook := λ _ s, (Err hookError, s).

Definition loadError : exn := JsError "Error" "Cannot find module" "at import".

Definition cfnLocation : string := "amplify-provider-awscloudformation".

Definition pluginRegistry (push : option (value → Hook)) (location : string)
  : result PluginModule :=
  if String.eqb location cfnLocation then Ok (mkPluginModule (Some okHook) push)
  else if String.eqb location "amplify-category-auth" then Ok (mkPluginModule (Some okHook) None)
  else if String.eqb location "amplify-util-auth" then Ok (mkPluginModule None None)
  else Err loadError.

Definition hostingParams : obj := {[ "domain" := VStr "example.org" ]}.

Definition paramManager : IEnvironmentParameterManager :=
  {| hasResourceParamManager := λ c s, String.eqb c "hosting" && String.eqb s "ElasticContainer";
     hasAnyParams := λ _ _, true;
     getAllParams := λ _ _, hostingParams |}.

Definition noParams : IEnvironmentParameterManager :=
  {| hasResourceParamManager := λ _ _, false;
     hasAnyParams := λ _ _, false;
     getAllParams := λ _ _, ∅ |}.

Definition resourceDefinition : value := VObj {[ "resourcesToBeCreated" := VNum 1 ]}.

Definition env (answer : bool) (push : option (value → Hook)) : Env :=
  {| input := mkInput "init" [];
     ensureEnvParamManager := λ _, Ok noParams;
     getAllCategoryPluginInfo :=
       [("auth", [mkPluginInfo "amplify-category-auth"; mkPluginInfo "amplify-util-auth"]);
        ("storage", [mkPluginInfo "amplify-category-storage"])];
     getProviderPlugins := {[ "awscloudformation" := cfnLocation ]};
     jsImport := pluginRegistry push;
     getProjectDetails := λ _, Ok (mkProjectDetails None None None None);
     confirmPrompt := λ _, Ok answer;
     getResourceStatus := λ _ _, Ok resourceDefinition;
     onCategoryOutputsChange := okHook |}.

(** A project whose provider plugin loads but whose [initEnv] fails. *)
Definition brokenProviderEnv : Env :=
  {| input := mkInput "pull" [];
     ensureEnvParamManager := λ _, Ok noParams;
     getAllCategoryPluginInfo := [];
     getProviderPlugins := {[ "awscloudformation" := cfnLocation ]};
     jsImport := λ _, Ok (mkPluginModule (Some failingHook) None);
     getProjectDetails := λ _, Ok (mkProjectDetails None None None None);
     confirmPrompt := λ _, Ok false;
     getResourceStatus := λ _ _, Ok VNull;
     onCategoryOutputsChange := okHook |}.

Definition teamProviderInfo : value :=
  VObj {[ "dev" := VObj {[ "awscloudformation" := VObj {[ "Region" := VStr "eu-west-1" ]} ]} ]}.

Definition persistedMeta : obj :=
  {[ "providers" := VObj {[ "awscloudformation" := VObj {[ "Region" := VStr "us-east-1" ]} ]};
     "auth" := VObj {[ "userPool" := VObj {[ "service" := VStr "Cognito" ]} ]} ]}.

Definition backendConfig : obj :=
  {[ "auth" := VObj {[ "userPool" := VObj {[ "service" := VStr "Cognito" ]} ]} ]}.

Definition store (restore : bool) (providerList : list string) : Store :=
  {| exeInfo := mkExeInfo (mkLocalEnvInfo "dev" "/project") restore None (Some providerList);
     smMeta := Ok persistedMeta;
     smCurrentMeta := None;
     smTeamProviderInfo := Ok teamProviderInfo;
     smBackendConfig := Ok backendConfig |}.

Definition start (restore : bool) (providerList : list string) : RunState :=
  mkRun (store restore providerList) [] false.

End Sample.

(** ** Vocabulary of the statements *)

(** The events a run adds. *)
Definition addEvents (rs : RunState) (evs : list event) : RunState :=
  mkRun (store rs) (trace rs ++ evs) (spinning rs).

(** Events by the collaborator they reach. *)
Inductive eclass : Type := CMerge | CTask | CFail | COutputs | COther.

Definition classify (ev : event) : eclass :=
  match ev with
  | EvGetBackendConfig _ | EvHasResourceParamManager _ _ | EvSetMeta _ _ => CMerge
  | EvCategoryInitEnv _ | EvProviderInitEnv _ _ | EvPushResources _ _ => CTask
  | EvSpinnerFail _ => CFail
  | EvOnCategoryOutputsChange _ => COutputs
  | _ => COther
  end.

#[local] Instance eclass_eq_dec : EqDecision eclass.
Proof. solve_decision. Defined.

(** [safeAt P Q m rs]: run from [rs], [m] only appends events satisfying [P],
    and a value it returns satisfies [Q]; [safe P Q m]: so from every state. *)
Definition safeAt {A} (P : event → Prop) (Q : A → Prop) (m : M A) (rs : RunState) : Prop :=
  ∀ r rs', m rs = (r, rs') →
    (∃ evs, trace rs' = trace rs ++ evs ∧ Forall P evs) ∧ (∀ a, r = Ok a → Q a).

Definition safe {A} (P : event → Prop) (Q : A → Prop) (m : M A) : Prop :=
  ∀ rs, safeAt P Q m rs.

Definition anything {A} : A → Prop := λ _, True.

(** A task that only adds events satisfying [P]. *)
Definition taskSafe (P : event → Prop) (t : Task) : Prop := safe P anything t.

(** The spinner after [start], and after [succeed] or [fail]. *)
Definition spinnerOn (rs : RunState) (text : string) : RunState :=
  mkRun (store rs) (trace rs ++ [EvSpinnerStart text]) true.

Definition spinnerOff (rs : RunState) (ev : event) : RunState :=
  mkRun (store rs) (trace rs ++ [ev]) false.

(** The environment name of a run: [context.exeInfo.localEnvInfo.envName]
    when [initializeEnv] is entered. *)
Definition currentEnvOf (rs : RunState) : string := envName (localEnvInfo (exeInfo (store rs))).

Definition projectPathOf (rs : RunState) : string :=
  projectPath (localEnvInfo (exeInfo (store rs))).

(** How many events of a class a trace holds. *)
Definition countClass (c : eclass) (t : list event) : nat :=
  length (List.filter (λ ev, bool_decide (classify ev = c)) t).

(** The UI failure notifications and the outputs-changed calls of a trace. *)
Definition failNotifications : list event → nat := countClass CFail.
Definition outputsCalls : list event → nat := countClass COutputs.

(** The same environment with another parameter manager. *)
Definition withParamManager (env : Env) (m : IEnvironmentParameterManager) : Env :=
  {| input := input env;
     ensureEnvParamManager := λ _, Ok m;
     getAllCategoryPluginInfo := getAllCategoryPluginInfo env;
     getProviderPlugins := getProviderPlugins env;
     jsImport := jsImport env;
     getProjectDetails := getProjectDetails env;
     confirmPrompt := confirmPrompt env;
     getResourceStatus := getResourceStatus env;
     onCategoryOutputsChange := onCategoryOutputsChange env |}.

(** Two parameter managers that record the same for one pair. *)
Definition sameParamsAt (m1 m2 : IEnvironmentParameterManager) (category service : string)
  : Prop :=
  hasResourceParamManager m1 category service = hasResourceParamManager m2 category service
  ∧ hasAnyParams m1 category service = hasAnyParams m2 category service
  ∧ getAllParams m1 category service = getAllParams m2 category service.

(** [meta[category][service]] read leniently. *)
Definition entryOf (meta : obj) (category service : string) : value :=
  get_prop_opt (default VUndefined (meta !! category)) service.

(** The category task list in the words of the spec (4.2): for each category
    of the plugin info list that is in the initialized set, one task per
    listed plugin whose loaded module exposes [initEnv], in iteration
    order. *)
Definition tasksOfPlugins (env : Env) (plugins : list PluginInfo) : list Task :=
  flat_map
    (λ pluginInfo,
       match jsImport env (packageLocation pluginInfo) with
       | Ok pluginModule =>
           match initEnv pluginModule with
           | Some hook => [categoryInitEnvTask (packageLocation pluginInfo) hook]
           | None => []
           end
       | Err _ => []
       end)
    plugins.

Definition expectedCategoryTasks (env : Env) (initialized : obj) : list Task :=
  flat_map
    (λ entry, if has_key initialized (fst entry) then tasksOfPlugins env (snd entry) else [])
    (getAllCategoryPluginInfo env).

(** The plugin locations category resolution loads. *)
Definition expectedCategoryImports (env : Env) (initialized : obj) : list event :=
  flat_map
    (λ entry,
       if has_key initialized (fst entry)
       then map (λ pluginInfo, EvImport (packageLocation pluginInfo)) (snd entry)
       else [])
    (getAllCategoryPluginInfo env).

(** *** Vocabulary of the further properties *)

(** [followsAt R Q m rs]: run from [rs], [m] ends in a state related to [rs]
    by [R], and a value it returns satisfies [Q]; [follows R Q m]: so from
    every state. *)
Definition followsAt {A} (R : RunState → RunState → Prop) (Q : A → Prop) (m : M A)
    (rs : RunState) : Prop :=
  ∀ r rs', m rs = (r, rs') → R rs rs' ∧ (∀ a, r = Ok a → Q a).

Definition follows {A} (R : RunState → RunState → Prop) (Q : A → Prop) (m : M A) : Prop :=
  ∀ rs, followsAt R Q m rs.

Definition taskFollows (R : RunState → RunState → Prop) (t : Task) : Prop :=
  follows R anything t.

(** The events other than those of the phase timers and of the spinner. *)
Definition isPlain (ev : event) : bool :=
  match ev with
  | EvStartTimer _ | EvStopTimer _
  | EvSpinnerStart _ | EvSpinnerSucceed _ | EvSpinnerFail _ => false
  | _ => true
  end.

Definition isTimer (ev : event) : bool :=
  match ev with
  | EvStartTimer _ | EvStopTimer _ => true
  | _ => false
  end.

(** The calls to [context.usageData] among some events, in order. *)
Definition timerEvents (evs : list event) : list event := List.filter isTimer evs.

(** A run that adds the timer calls [X], and one that adds none. *)
Definition addsTimers (X : list event) (rs rs' : RunState) : Prop :=
  timerEvents (trace rs') = timerEvents (trace rs) ++ X.

Definition noTimers (rs rs' : RunState) : Prop :=
  timerEvents (trace rs') = timerEvents (trace rs).

(** The timer calls of the platform phase and of both phases. *)
Definition platformTimers : list event :=
  [EvStartTimer INIT_ENV_PLATFORM; EvStopTimer INIT_ENV_PLATFORM].

Definition allTimers : list event :=
  [EvStartTimer INIT_ENV_PLATFORM; EvStopTimer INIT_ENV_PLATFORM;
   EvStartTimer INIT_ENV_CATEGORIES; EvStopTimer INIT_ENV_CATEGORIES].

(** A run that leaves the spinner as it was. *)
Definition keepsSpinner (rs rs' : RunState) : Prop := spinning rs' = spinning rs.

(** The provider task list in the words of the spec (4.2): one task per
    entry of the provider list, in list order, for the modules [loaded]. *)
Definition expectedProviderTasks (loaded : string → PluginModule) (amplifyMeta : obj)
    (providerList : list string) : list Task :=
  map (λ provider, providerInitEnvTask (loaded provider) amplifyMeta provider) providerList.

(** The push task list: one [pushResources] task per entry of the provider
    list, in list order, each with the resource definition obtained for its
    provider. *)
Definition expectedPushTasks (loaded : string → PluginModule) (definition : string → value)
    (providerList : list string) : list Task :=
  map (λ provider, pushResourcesTask (loaded provider) provider (definition provider))
    providerList.

(** A run that leaves the store as it was. *)
Definition keepsStore (rs rs' : RunState) : Prop := store rs' = store rs.

(** The five calls of the merge step (lines 27-36). *)
Definition isMergeCall (ev : event) : bool :=
  match ev with
  | EvGetTeamProviderInfo _ | EvEnsureEnvParamManager _ | EvGetBackendConfig _
  | EvHasResourceParamManager _ _ | EvSetMeta _ _ => true
  | _ => false
  end.

(** The events other than the calls of the merge step and the provider
    [initEnv] calls. *)
Definition isLate (ev : event) : bool :=
  match ev with
  | EvProviderInitEnv _ _ => false
  | _ => negb (isMergeCall ev)
  end.

(** [amplifyMeta.providers[provider]] for the meta built at lines 26-29 from
    the team-provider info. *)
Definition providerMetaFrom (teamProviderInfo : value) (currentEnv provider : string) : value :=
  if decide (provider = "awscloudformation")
  then get_prop_opt (get_prop_opt teamProviderInfo currentEnv) "awscloudformation"
  else VUndefined.

(** The module [import] yields for a provider. *)
Definition loadedProvider (env : Env) (provider : string) : PluginModule :=
  match jsImport env (providerLocation env provider) with
  | Ok providerModule => providerModule
  | Err _ => mkPluginModule None None
  end.

(** ** Reasoning about runs *)

Lemma bind_ok {A B} (m : M A) (k : A → M B) rs a rs' :
  m rs = (Ok a, rs') → bind m k rs = k a rs'.
Proof. intros H. unfold bind. by rewrite H. Qed.

Lemma bind_err {A B} (m : M A) (k : A → M B) rs e rs' :
  m rs = (Err e, rs') → bind m k rs = (Err e, rs').
Proof. intros H. unfold bind. by rewrite H. Qed.

Lemma bind_inv {A B} (m : M A) (k : A → M B) rs r rs2 :
  bind m k rs = (r, rs2) →
  (∃ a rs1, m rs = (Ok a, rs1) ∧ k a rs1 = (r, rs2))
  ∨ (∃ e, m rs = (Err e, rs2) ∧ r = Err e).
Proof.
  unfold bind. destruct (m rs) as [[a|e] rs1]; intros H.
  - left. eauto.
  - right. inversion H; subst. eauto.
Qed.

Lemma addEvents_nil rs : addEvents rs [] = rs.
Proof. destruct rs. unfold addEvents. simpl. by rewrite app_nil_r. Qed.

Lemma addEvents_app rs evs1 evs2 :
  addEvents (addEvents rs evs1) evs2 = addEvents rs (evs1 ++ evs2).
Proof. unfold addEvents. simpl. by rewrite app_assoc. Qed.

Section Safe.
Context (P : event → Prop).

Lemma safe_weaken {A} (Q Q' : A → Prop) (m : M A) :
  (∀ a, Q a → Q' a) → safe P Q m → safe P Q' m.
Proof.
  intros HQ Hm rs r rs' Hrun. destruct (Hm _ _ _ Hrun) as [Hev Hret].
  split; [done | eauto].
Qed.

Lemma safe_ret {A} (Q : A → Prop) (a : A) : Q a → safe P Q (ret a).
Proof.
  intros HQ rs r rs' Hrun. inversion Hrun; subst. split.
  - exists []. by rewrite app_nil_r.
  - by intros ? [= <-].
Qed.

Lemma safe_throw {A} (Q : A → Prop) (e : exn) : safe P Q (throw e).
Proof.
  intros rs r rs' Hrun. inversion Hrun; subst. split.
  - exists []. by rewrite app_nil_r.
  - intros ? [=].
Qed.

Lemma safe_liftResult {A} (Q : A → Prop) (r : result A) :
  (∀ a, r = Ok a → Q a) → safe P Q (liftResult r).
Proof.
  intros HQ rs r' rs' Hrun. inversion Hrun; subst. split; [|done].
  exists []. by rewrite app_nil_r.
Qed.

Lemma safe_getStore (Q : Store → Prop) : (∀ s, Q s) → safe P Q getStore.
Proof.
  intros HQ rs r rs' Hrun. inversion Hrun; subst. split; [|by intros ? [= <-]].
  exists []. by rewrite app_nil_r.
Qed.

Lemma safe_putStore s : safe P anything (putStore s).
Proof.
  intros rs r rs' Hrun. inversion Hrun; subst. split; [|done].
  exists []. by rewrite app_nil_r.
Qed.

Lemma safe_setSpinning b : safe P anything (setSpinning b).
Proof.
  intros rs r rs' Hrun. inversion Hrun; subst. split; [|done].
  exists []. by rewrite app_nil_r.
Qed.

Lemma safe_callHook h : safe P anything (callHook h).
Proof.
  intros rs r rs' Hrun. unfold callHook in Hrun.
  destruct (h (store rs)) as [r0 s']. inversion Hrun; subst. split; [|done].
  exists []. by rewrite app_nil_r.
Qed.

Lemma safe_log ev : P ev → safe P anything (log ev).
Proof.
  intros HP rs r rs' Hrun. inversion Hrun; subst. split; [|done].
  exists [ev]. split; [done|]. by constructor.
Qed.

Lemma safe_bind {A B} (Q1 : A → Prop) (Q : B → Prop) (m : M A) (k : A → M B) :
  safe P Q1 m → (∀ a, Q1 a → safe P Q (k a)) → safe P Q (bind m k).
Proof.
  intros Hm Hk rs r rs2 Hrun.
  destruct (bind_inv _ _ _ _ _ Hrun) as [(a & rs1 & H1 & H2)|(e & H1 & ->)].
  - destruct (Hm _ _ _ H1) as [(evs1 & Ht1 & HP1) HQ1].
    destruct (Hk a (HQ1 a eq_refl) _ _ _ H2) as [(evs2 & Ht2 & HP2) HQ2].
    split; [|done]. exists (evs1 ++ evs2). split.
    + by rewrite Ht2, Ht1, app_assoc.
    + by apply Forall_app.
  - destruct (Hm _ _ _ H1) as [Hev _]. split; [done|]. intros ? [=].
Qed.

Lemma safe_tryCatch {A} (Q : A → Prop) (m : M A) (h : exn → M A) :
  safe P Q m → (∀ e, safe P Q (h e)) → safe P Q (tryCatch m h).
Proof.
  intros Hm Hh rs r rs2 Hrun. unfold tryCatch in Hrun.
  destruct (m rs) as [[a|e] rs1] eqn:E.
  - inversion Hrun; subst. exact (Hm _ _ _ E).
  - destruct (Hm _ _ _ E) as [(evs1 & Ht1 & HP1) _].
    destruct (Hh e _ _ _ Hrun) as [(evs2 & Ht2 & HP2) HQ2].
    split; [|done]. exists (evs1 ++ evs2). split.
    + by rewrite Ht2, Ht1, app_assoc.
    + by apply Forall_app.
Qed.

Lemma safe_tryFinally {A} (Q : A → Prop) (m : M A) (f : M unit) :
  safe P Q m → safe P anything f → safe P Q (tryFinally m f).
Proof.
  intros Hm Hf rs r rs2 Hrun. unfold tryFinally in Hrun.
  destruct (m rs) as [r1 rs1] eqn:E.
  destruct (f rs1) as [rf rsf] eqn:Ef.
  destruct (Hm _ _ _ E) as [(evs1 & Ht1 & HP1) HQ1].
  destruct (Hf _ _ _ Ef) as [(evs2 & Ht2 & HP2) _].
  assert (trace rs2 = trace rs ++ (evs1 ++ evs2)) as Ht.
  { destruct rf; inversion Hrun; subst; by rewrite Ht2, Ht1, app_assoc. }
  split.
  - exists (evs1 ++ evs2). split; [done|]. by apply Forall_app.
  - destruct rf; inversion Hrun; subst; [done|]. intros ? [=].
Qed.

Lemma safe_for_of {A S} (I : S → Prop) (xs : list A) (f : S → A → M S) (acc : S) :
  I acc → (∀ acc x, I acc → x ∈ xs → safe P I (f acc x)) → safe P I (for_of xs f acc).
Proof.
  revert acc. induction xs as [|x xs IH]; intros acc Hacc Hf; simpl.
  - by apply safe_ret.
  - apply safe_bind with (Q1 := I).
    + apply Hf; [done|]. by left.
    + intros acc' Hacc'. apply IH; [done|]. intros ? ? ? ?. apply Hf; [done|]. by right.
Qed.

Lemma safe_sequential tasks : Forall (taskSafe P) tasks → safe P anything (sequential tasks).
Proof.
  induction 1 as [|t tasks Ht _ IH]; simpl.
  - by apply safe_ret.
  - eapply safe_bind; [exact Ht|]. intros _ _. exact IH.
Qed.

End Safe.

(** *** What each piece of [initializeEnv] may add to the trace *)

(** Evaluate the left-hand side of an equation between closed runs. *)
Ltac compute_lhs :=
  match goal with
  | |- ?l = _ => let l' := eval vm_compute in l in change l with l'
  end.

(** Evaluate the closed run inside a membership goal. *)
Ltac compute_trace :=
  match goal with
  | |- _ ∈ ?t => let t' := eval vm_compute in t in change t with t'
  end.

Ltac class_ok :=
  match goal with
  | H : ∀ ev, classify ev = _ → ?P ev |- ?P _ => apply H; reflexivity
  end.

Ltac safe_prim :=
  first
    [ apply safe_throw
    | apply safe_putStore
    | apply safe_setSpinning
    | apply safe_callHook
    | apply safe_log; class_ok
    | apply safe_getStore; done
    | apply safe_liftResult; done
    | apply safe_ret; done ].

Ltac safe_go :=
  repeat first
    [ safe_prim
    | apply (safe_bind _ anything); [|intros ? _]
    | apply safe_tryCatch; [|intros ?]
    | apply safe_tryFinally
    | match goal with
      | |- safe _ _ (match ?x with _ => _ end) => destruct x
      end ].

Section TraceOfPhases.
Context (env : Env) (P : event → Prop).
Context (Hother : ∀ ev, classify ev = COther → P ev).

Lemma spinner_start_safe text : safe P anything (spinner_start text).
Proof. unfold spinner_start. safe_go. Qed.

Lemma spinner_succeed_safe text : safe P anything (spinner_succeed text).
Proof. unfold spinner_succeed. safe_go. Qed.

Lemma getMeta_safe : safe P anything getMeta.
Proof. unfold getMeta. safe_go. Qed.

Lemma getTeamProviderInfo_safe path : safe P anything (getTeamProviderInfo path).
Proof. unfold getTeamProviderInfo. safe_go. Qed.

Lemma refreshProjectDetails_safe : safe P anything (refreshProjectDetails env).
Proof. unfold refreshProjectDetails. safe_go. Qed.

Lemma pushDecision_safe : safe P anything (pushDecision env).
Proof. unfold pushDecision. safe_go. Qed.

Lemma printer_success_safe text : safe P anything (printer_success text).
Proof. unfold printer_success. safe_go. Qed.

Lemma providerInitPhase_safe currentEnv tasks :
  Forall (taskSafe P) tasks → safe P anything (providerInitPhase currentEnv tasks).
Proof.
  intros Ht. unfold providerInitPhase. safe_go. by apply safe_sequential.
Qed.

Lemma categoryInitPhase_safe currentEnv tasks :
  Forall (taskSafe P) tasks → safe P anything (categoryInitPhase currentEnv tasks).
Proof.
  intros Ht. unfold categoryInitPhase. safe_go. by apply safe_sequential.
Qed.

Lemma initPhases_safe currentEnv initializationTasks categoryInitializationTasks :
  Forall (taskSafe P) initializationTasks →
  Forall (taskSafe P) categoryInitializationTasks →
  safe P anything (initPhases env currentEnv initializationTasks categoryInitializationTasks).
Proof.
  intros Hp Hc. unfold initPhases.
  apply (safe_bind _ anything); [apply spinner_start_safe|intros _ _].
  apply (safe_bind _ anything); [by apply providerInitPhase_safe|intros _ _].
  apply (safe_bind _ anything); [apply spinner_succeed_safe|intros _ _].
  apply (safe_bind _ anything); [apply refreshProjectDetails_safe|intros _ _].
  by apply categoryInitPhase_safe.
Qed.

(** The tasks queued by the resolution steps only add task events. *)
Section Tasks.
Context (P' : event → Prop).
Context (Htask : ∀ ev, classify ev = CTask → P' ev).

Lemma categoryInitEnvTask_safe location hook :
  taskSafe P' (categoryInitEnvTask location hook).
Proof. unfold taskSafe, categoryInitEnvTask. safe_go. Qed.

Lemma providerInitEnvTask_safe providerModule amplifyMeta provider :
  taskSafe P' (providerInitEnvTask providerModule amplifyMeta provider).
Proof. unfold taskSafe, providerInitEnvTask. safe_go. Qed.

Lemma pushResourcesTask_safe providerModule provider resourceDefinition :
  taskSafe P' (pushResourcesTask providerModule provider resourceDefinition).
Proof. unfold taskSafe, pushResourcesTask. safe_go. Qed.

Lemma importCategoryPluginAndQueueInitEnvTask_safe tasks pluginInfo category :
  Forall (taskSafe P') tasks →
  safe P (Forall (taskSafe P'))
    (importCategoryPluginAndQueueInitEnvTask env tasks pluginInfo category).
Proof.
  intros Ht. unfold importCategoryPluginAndQueueInitEnvTask.
  apply safe_tryCatch; [|intros e; apply safe_throw].
  apply (safe_bind _ anything); [safe_go|intros _ _].
  apply (safe_bind _ anything); [safe_go|intros m _].
  destruct (initEnv m) as [hook|]; apply safe_ret; [|done].
  apply Forall_app. split; [done|].
  constructor; [apply categoryInitEnvTask_safe|constructor].
Qed.

Lemma resolveCategoryTasks_safe :
  safe P (Forall (taskSafe P')) (resolveCategoryTasks env).
Proof.
  unfold resolveCategoryTasks.
  apply (safe_bind _ anything); [apply getMeta_safe|intros meta _].
  apply safe_for_of; [constructor|]. intros tasks category Ht _.
  destruct (pluginsOf _ category) as [plugins|]; [|apply safe_throw].
  apply safe_for_of; [done|]. intros tasks' pluginInfo Ht' _.
  by apply importCategoryPluginAndQueueInitEnvTask_safe.
Qed.

Lemma resolveProviderTasks_safe amplifyMeta :
  safe P (Forall (taskSafe P')) (resolveProviderTasks env amplifyMeta).
Proof.
  unfold resolveProviderTasks.
  apply (safe_bind _ anything); [safe_go|intros s _].
  destruct (providers (exeInfo s)) as [providerList|]; [|apply safe_throw].
  apply safe_for_of; [constructor|]. intros tasks provider Ht _.
  apply safe_tryCatch; [|intros e; apply safe_throw].
  apply (safe_bind _ anything); [safe_go|intros _ _].
  apply (safe_bind _ anything); [safe_go|intros m _].
  apply safe_ret. apply Forall_app. split; [done|].
  constructor; [apply providerInitEnvTask_safe|constructor].
Qed.

Lemma queuePushTasks_safe : safe P (Forall (taskSafe P')) (queuePushTasks env).
Proof.
  unfold queuePushTasks.
  apply (safe_bind _ anything); [safe_go|intros s _].
  destruct (providers (exeInfo s)) as [providerList|]; [|apply safe_throw].
  apply safe_for_of; [constructor|]. intros tasks provider Ht _.
  apply (safe_bind _ anything); [safe_go|intros _ _].
  apply (safe_bind _ anything); [safe_go|intros m _].
  apply (safe_bind _ anything); [safe_go|intros _ _].
  apply (safe_bind _ anything); [safe_go|intros s' _].
  apply (safe_bind _ anything); [safe_go|intros d _].
  apply safe_ret. apply Forall_app. split; [done|].
  constructor; [apply pushResourcesTask_safe|constructor].
Qed.

End Tasks.

Lemma pushPhase_safe :
  (∀ ev, classify ev = CTask → P ev) → safe P anything (pushPhase env).
Proof.
  intros Htask. unfold pushPhase.
  apply (safe_bind _ anything); [safe_go|intros s _].
  destruct (forcePush (exeInfo s)) as [[|]|]; try (by apply safe_ret).
  apply (safe_bind _ (Forall (taskSafe P))); [by apply queuePushTasks_safe|].
  intros tasks Ht. by apply safe_sequential.
Qed.

Lemma configMerge_safe projectPath currentEnv :
  (∀ ev, classify ev = CMerge → P ev) →
  safe P anything (configMerge env projectPath currentEnv).
Proof.
  intros Hmerge. unfold configMerge.
  apply (safe_bind _ anything); [apply getTeamProviderInfo_safe|intros tpi _].
  apply (safe_bind _ anything); [safe_go|intros _ _].
  apply (safe_bind _ anything); [safe_go|intros epm _].
  apply (safe_bind _ anything); [safe_go|intros s _].
  destruct (negb _); [|by apply safe_ret].
  unfold mergeBackendConfigIntoAmplifyMeta, getBackendConfig,
    mergeCategoryEnvParamsIntoAmplifyMeta, setMeta.
  safe_go.
Qed.

Lemma mergeAndResolve_safe (P' : event → Prop) currentEnv :
  (∀ ev, classify ev = CMerge → P ev) →
  (∀ ev, classify ev = CTask → P' ev) →
  safe P (λ tasks, Forall (taskSafe P') (fst tasks) ∧ Forall (taskSafe P') (snd tasks))
    (mergeAndResolve env currentEnv).
Proof.
  intros Hmerge Htask. unfold mergeAndResolve.
  apply (safe_bind _ anything); [safe_go|intros s _].
  apply (safe_bind _ anything); [by apply configMerge_safe|intros amplifyMeta _].
  apply (safe_bind _ (Forall (taskSafe P'))); [by apply resolveCategoryTasks_safe|].
  intros ct Hct.
  apply (safe_bind _ (Forall (taskSafe P'))); [by apply resolveProviderTasks_safe|].
  intros pt Hpt. by apply safe_ret.
Qed.

Lemma stepsBeforePush_safe currentEnv :
  (∀ ev, classify ev = CMerge → P ev) →
  (∀ ev, classify ev = CTask → P ev) →
  safe P anything (stepsBeforePush env currentEnv).
Proof.
  intros Hmerge Htask. unfold stepsBeforePush.
  eapply safe_bind; [by apply (mergeAndResolve_safe P)|].
  intros [pt ct] [Hpt Hct]. simpl in *.
  apply (safe_bind _ anything); [by apply initPhases_safe|intros _ _].
  apply pushDecision_safe.
Qed.

Lemma stepsBeforeOutputs_safe currentEnv :
  (∀ ev, classify ev = CMerge → P ev) →
  (∀ ev, classify ev = CTask → P ev) →
  safe P anything (stepsBeforeOutputs env currentEnv).
Proof.
  intros Hmerge Htask. unfold stepsBeforeOutputs.
  apply (safe_bind _ anything); [by apply stepsBeforePush_safe|intros _ _].
  by apply pushPhase_safe.
Qed.

Lemma initializeEnv_try_safe currentAmplifyMeta currentEnv :
  (∀ ev, classify ev = CMerge → P ev) →
  (∀ ev, classify ev = CTask → P ev) →
  (∀ ev, classify ev = COutputs → P ev) →
  safe P anything (initializeEnv_try env currentAmplifyMeta currentEnv).
Proof.
  intros Hmerge Htask Hout. unfold initializeEnv_try.
  apply (safe_bind _ anything); [by apply stepsBeforeOutputs_safe|intros _ _].
  apply (safe_bind _ anything); [unfold outputsRegeneration; safe_go|intros _ _].
  apply printer_success_safe.
Qed.

End TraceOfPhases.

(** ** The sequential executor *)

Lemma sequential_app_ok pre rest rs rs1 :
  sequential pre rs = (Ok tt, rs1) → sequential (pre ++ rest) rs = sequential rest rs1.
Proof.
  revert rs. induction pre as [|t pre IH]; intros rs H; simpl in *.
  - by inversion H.
  - unfold bind in *. destruct (t rs) as [[[]|e] rs0]; [by apply IH|done].
Qed.

Lemma sequential_err_inv tasks rs e rs2 :
  sequential tasks rs = (Err e, rs2) →
  ∃ pre t post rs1,
    tasks = pre ++ t :: post ∧ sequential pre rs = (Ok tt, rs1) ∧ t rs1 = (Err e, rs2).
Proof.
  revert rs. induction tasks as [|t tasks IH]; intros rs H; simpl in H; [done|].
  destruct (bind_inv _ _ _ _ _ H) as [([] & rs1 & Ht & Hrest)|(e' & Ht & [= <-])].
  - destruct (IH _ Hrest) as (pre & t' & post & rs1' & -> & Hpre & Hfail).
    exists (t :: pre), t', post, rs1'. split; [done|]. split; [|done].
    simpl. by rewrite (bind_ok _ _ _ _ _ Ht).
  - exists [], t, tasks, rs. done.
Qed.

(** C8. The executor runs the tasks in list order, each from the state the
    previous one left; the first failing task ends the run with its own
    error, in the state that task left, whatever follows it in the list; the
    empty list succeeds and changes nothing. *)
Theorem sequential_stops_at_first_failure :
  (∀ rs, sequential [] rs = (Ok tt, rs))
  ∧ (∀ (t : Task) rest rs rs1,
       t rs = (Ok tt, rs1) → sequential (t :: rest) rs = sequential rest rs1)
  ∧ (∀ pre (t : Task) post rs rs1 e rs2,
       sequential pre rs = (Ok tt, rs1) → t rs1 = (Err e, rs2) →
       sequential (pre ++ t :: post) rs = (Err e, rs2))
  ∧ (∀ (A B C : Task) rs rsA e rsB,
       A rs = (Ok tt, rsA) → B rsA = (Err e, rsB) →
       sequential [A; B; C] rs = (Err e, rsB)).
Proof.
  split; [done|]. split; [|split].
  - intros t rest rs rs1 Ht. simpl. by rewrite (bind_ok _ _ _ _ _ Ht).
  - intros pre t post rs rs1 e rs2 Hpre Ht.
    rewrite (sequential_app_ok _ _ _ _ Hpre). simpl.
    by rewrite (bind_err _ _ _ _ _ Ht).
  - intros A B C rs rsA e rsB HA HB. simpl.
    rewrite (bind_ok _ _ _ _ _ HA). by rewrite (bind_err _ _ _ _ _ HB).
Qed.

Lemma sequential_stops_at_first_failure_witness :
  sequential [log (EvCategoryInitEnv "A"); throw Sample.hookError; log (EvCategoryInitEnv "C")]
    (Sample.start false []) =
  (Err Sample.hookError, addEvents (Sample.start false []) [EvCategoryInitEnv "A"]).
Proof.
  apply (proj2 (proj2 (proj2 sequential_stops_at_first_failure)) _ _ _ _
           (addEvents (Sample.start false []) [EvCategoryInitEnv "A"]));
    reflexivity.
Defined.

(** ** The parameter merge *)

Lemma assignParams_frame meta category service params meta' :
  assignParams meta category service params = Ok meta' →
  (∀ c, c ≠ category → meta' !! c = meta !! c)
  ∧ (∀ s, s ≠ service → entryOf meta' category s = entryOf meta category s).
Proof.
  unfold assignParams, entryOf. intros H.
  destruct (meta !! category) as [[| | | | |cat]|] eqn:Ec; simpl in H; try done.
  destruct (cat !! service) as [[| | | | |target]|] eqn:Es; simpl in H;
    try done; inversion H; subst; clear H.
  1-3: by rewrite Ec.
  split.
  - intros c Hc. by rewrite lookup_insert_ne.
  - intros s Hs. rewrite lookup_insert_eq. simpl. by rewrite lookup_insert_ne.
Qed.

Lemma mergeCategoryEnvParams_run epm meta category service rs :
  mergeCategoryEnvParamsIntoAmplifyMeta epm meta category service rs =
  (if hasResourceParamManager epm category service && hasAnyParams epm category service
   then assignParams meta category service (getAllParams epm category service)
   else Ok meta,
   addEvents rs [EvHasResourceParamManager category service]).
Proof.
  unfold mergeCategoryEnvParamsIntoAmplifyMeta, bind, log. simpl.
  by destruct (_ && _).
Qed.

(** C2, as the code has it.  With no overrides recorded for the pair the
    merge returns the meta as it was and raises nothing, whether or not the
    meta has the entry; with overrides recorded and the entry present as an
    object, the entry afterwards holds every override under its key and keeps
    the values of its other keys. *)
Theorem param_merge_noop_or_overrides_win
    (epm : IEnvironmentParameterManager) (meta : obj) (category service : string)
    (rs : RunState) :
  (hasResourceParamManager epm category service && hasAnyParams epm category service = false →
   mergeCategoryEnvParamsIntoAmplifyMeta epm meta category service rs =
   (Ok meta, addEvents rs [EvHasResourceParamManager category service]))
  ∧ (∀ cat target,
       hasResourceParamManager epm category service && hasAnyParams epm category service = true →
       meta !! category = Some (VObj cat) →
       cat !! service = Some (VObj target) →
       ∃ meta' merged,
         mergeCategoryEnvParamsIntoAmplifyMeta epm meta category service rs =
         (Ok meta', addEvents rs [EvHasResourceParamManager category service])
         ∧ entryOf meta' category service = VObj merged
         ∧ (∀ k v, getAllParams epm category service !! k = Some v → merged !! k = Some v)
         ∧ (∀ k, getAllParams epm category service !! k = None → merged !! k = target !! k)).
Proof.
  split.
  - intros Hno. rewrite mergeCategoryEnvParams_run. by rewrite Hno.
  - intros cat target Hyes Hc Hs. rewrite mergeCategoryEnvParams_run, Hyes.
    unfold assignParams. rewrite Hc. simpl. rewrite Hs. simpl.
    eexists _, _. split; [done|]. split; [|split].
    + unfold entryOf. rewrite lookup_insert_eq. simpl. by rewrite lookup_insert_eq.
    + intros k v Hk. unfold Object_assign. by apply lookup_union_Some_l.
    + intros k Hk. unfold Object_assign. by apply lookup_union_r.
Qed.

Lemma param_merge_noop_or_overrides_win_witness :
  entryOf
    (default ∅
       (match fst (mergeCategoryEnvParamsIntoAmplifyMeta Sample.paramManager
                     {[ "hosting" := VObj {[ "ElasticContainer" :=
                                               VObj {[ "domain" := VStr "old.example.org" ]} ]} ]}
                     "hosting" "ElasticContainer" (Sample.start false [])) with
        | Ok m => Some m
        | Err _ => None
        end))
    "hosting" "ElasticContainer"
  ≠ VUndefined.
Proof.
  destruct (proj2 (param_merge_noop_or_overrides_win Sample.paramManager
              {[ "hosting" := VObj {[ "ElasticContainer" :=
                                        VObj {[ "domain" := VStr "old.example.org" ]} ]} ]}
              "hosting" "ElasticContainer" (Sample.start false []))
              {[ "ElasticContainer" := VObj {[ "domain" := VStr "old.example.org" ]} ]}
              {[ "domain" := VStr "old.example.org" ]})
    as (meta' & merged & Hrun & Hentry & _);
    [reflexivity | vm_compute; reflexivity | vm_compute; reflexivity |].
  rewrite Hrun. simpl. by rewrite Hentry.
Defined.

(** C2 as stated fails: with overrides recorded for the pair and no entry
    for it in the meta, the merge raises a [TypeError]. *)
Lemma param_merge_raises_on_absent_entry :
  Sample.backendConfig !! "hosting" = None
  ∧ fst (mergeCategoryEnvParamsIntoAmplifyMeta Sample.paramManager Sample.backendConfig
           "hosting" "ElasticContainer" (Sample.start false []))
    = Err (TypeError "Cannot read properties of undefined (reading 'ElasticContainer')").
Proof. split; reflexivity. Qed.

Lemma bind_ext {A B} (m : M A) (k1 k2 : A → M B) rs :
  (∀ a rs', k1 a rs' = k2 a rs') → bind m k1 rs = bind m k2 rs.
Proof. intros H. unfold bind. destruct (m rs) as [[a|e] rs']; [apply H|done]. Qed.

Lemma bind_liftResult_ok {A B} (a : A) (k : A → M B) rs :
  bind (liftResult (Ok a)) k rs = k a rs.
Proof. reflexivity. Qed.

(** C10. The parameter merge of [initializeEnv] changes the meta at
    [hosting.ElasticContainer] only: every other top-level field and every
    other resource of [hosting] is as before, and the store is untouched;
    and what the parameter manager records for any other pair has no
    influence on the merge step: two managers that agree on
    (hosting, ElasticContainer) give the same meta, store and trace. *)
Theorem param_merge_touches_only_hosting_ElasticContainer :
  (∀ epm (meta meta' : obj) rs rs',
     mergeCategoryEnvParamsIntoAmplifyMeta epm meta "hosting" "ElasticContainer" rs
       = (Ok meta', rs') →
     store rs' = store rs
     ∧ (∀ c, c ≠ "hosting" → meta' !! c = meta !! c)
     ∧ (∀ s, s ≠ "ElasticContainer" → entryOf meta' "hosting" s = entryOf meta "hosting" s))
  ∧ (∀ env m1 m2 projectPath currentEnv rs,
       sameParamsAt m1 m2 "hosting" "ElasticContainer" →
       configMerge (withParamManager env m1) projectPath currentEnv rs
       = configMerge (withParamManager env m2) projectPath currentEnv rs).
Proof.
  split.
  - intros epm meta meta' rs rs' H. rewrite mergeCategoryEnvParams_run in H.
    inversion H as [[Hr Hs]]. split; [done|].
    destruct (_ && _).
    + by apply assignParams_frame with (params := getAllParams epm "hosting" "ElasticContainer").
    + inversion Hr; subst. done.
  - intros env m1 m2 projectPath currentEnv rs (Hhas & Hany & Hall).
    unfold configMerge.
    apply bind_ext; intros tpi rs1.
    apply bind_ext; intros _ rs2.
    change (ensureEnvParamManager (withParamManager env m1) currentEnv) with (Ok m1).
    change (ensureEnvParamManager (withParamManager env m2) currentEnv) with (Ok m2).
    rewrite !bind_liftResult_ok.
    apply bind_ext; intros s rs3.
    destruct (negb _); [|done].
    apply bind_ext; intros meta rs4.
    unfold bind at 1 3.
    by rewrite !mergeCategoryEnvParams_run, Hhas, Hany, Hall.
Qed.

Lemma param_merge_touches_only_hosting_ElasticContainer_witness :
  configMerge (withParamManager (Sample.env false None) Sample.paramManager)
    "/project" "dev" (Sample.start false [])
  = configMerge
      (withParamManager (Sample.env false None)
         {| hasResourceParamManager := λ _ _, true;
            hasAnyParams := λ _ _, true;
            getAllParams := λ c _, if String.eqb c "hosting" then Sample.hostingParams
                                   else {[ "stray" := VNull ]} |})
      "/project" "dev" (Sample.start false []).
Proof.
  apply (proj2 param_merge_touches_only_hosting_ElasticContainer).
  repeat split; reflexivity.
Defined.

(** ** Category resolution *)

Lemma importCategoryPlugin_loaded env tasks pluginInfo category pluginModule rs :
  jsImport env (packageLocation pluginInfo) = Ok pluginModule →
  importCategoryPluginAndQueueInitEnvTask env tasks pluginInfo category rs =
  (Ok (tasks ++ tasksOfPlugins env [pluginInfo]),
   addEvents rs [EvImport (packageLocation pluginInfo)]).
Proof.
  intros Hload. unfold importCategoryPluginAndQueueInitEnvTask, tasksOfPlugins, tryCatch, bind,
    log, liftResult. simpl. rewrite Hload.
  destruct (initEnv pluginModule); simpl; [done|]. by rewrite app_nil_r.
Qed.

Lemma tasksOfPlugins_cons env pluginInfo plugins :
  tasksOfPlugins env (pluginInfo :: plugins) =
  tasksOfPlugins env [pluginInfo] ++ tasksOfPlugins env plugins.
Proof. unfold tasksOfPlugins. simpl. by rewrite app_nil_r. Qed.

Lemma forEachPlugin_loaded env category plugins tasks rs :
  (∀ pluginInfo, pluginInfo ∈ plugins →
     ∃ pluginModule, jsImport env (packageLocation pluginInfo) = Ok pluginModule) →
  for_of plugins
    (λ tasks pluginInfo, importCategoryPluginAndQueueInitEnvTask env tasks pluginInfo category)
    tasks rs =
  (Ok (tasks ++ tasksOfPlugins env plugins),
   addEvents rs (map (λ pluginInfo, EvImport (packageLocation pluginInfo)) plugins)).
Proof.
  revert tasks rs. induction plugins as [|pluginInfo plugins IH]; intros tasks rs Hload.
  - simpl. unfold ret. by rewrite app_nil_r, addEvents_nil.
  - destruct (Hload pluginInfo) as [pluginModule Hm]; [by left|].
    rewrite tasksOfPlugins_cons. simpl for_of.
    rewrite (bind_ok _ _ _ _ _ (importCategoryPlugin_loaded _ _ _ _ _ _ Hm)).
    rewrite IH by (intros ? ?; apply Hload; by right).
    by rewrite addEvents_app, app_assoc.
Qed.

Lemma pluginsOf_NoDup (infoList : list (string * list PluginInfo)) category plugins :
  NoDup (map fst infoList) → (category, plugins) ∈ infoList →
  pluginsOf infoList category = Some plugins.
Proof.
  induction infoList as [|[k ps] infoList IH]; intros Hnd Hin; [by inversion Hin|].
  simpl in *. apply NoDup_cons in Hnd as [Hk Hnd].
  apply elem_of_cons in Hin as [[= <- <-]|Hin].
  - by rewrite String.eqb_refl.
  - destruct (String.eqb_spec k category) as [->|_]; [|by apply IH].
    exfalso. apply Hk. apply list_elem_of_fmap. by exists (category, plugins).
Qed.

Lemma forEachCategory_loaded env (infoList : list (string * list PluginInfo)) (meta : obj)
    entries tasks rs :
  (∀ entry, entry ∈ entries → pluginsOf infoList (fst entry) = Some (snd entry)) →
  (∀ entry pluginInfo, entry ∈ entries → has_key meta (fst entry) = true →
     pluginInfo ∈ snd entry →
     ∃ pluginModule, jsImport env (packageLocation pluginInfo) = Ok pluginModule) →
  for_of (List.filter (λ key, has_key meta key) (map fst entries))
    (λ tasks category,
       match pluginsOf infoList category with
       | Some plugins =>
           for_of plugins
             (λ tasks pluginInfo,
                importCategoryPluginAndQueueInitEnvTask env tasks pluginInfo category)
             tasks
       | None => throw (TypeError "categoryPluginInfoList[category] is not iterable")
       end)
    tasks rs =
  (Ok (tasks
       ++ flat_map (λ entry, if has_key meta (fst entry) then tasksOfPlugins env (snd entry)
                             else []) entries),
   addEvents rs
     (flat_map (λ entry, if has_key meta (fst entry)
                         then map (λ pluginInfo, EvImport (packageLocation pluginInfo))
                                (snd entry)
                         else []) entries)).
Proof.
  revert tasks rs. induction entries as [|[category plugins] entries IH];
    intros tasks rs Hlook Hload; simpl.
  - unfold ret. by rewrite app_nil_r, addEvents_nil.
  - destruct (has_key meta category) eqn:Hkey; simpl.
    + pose proof (Hlook (category, plugins) ltac:(by left)) as Hp. simpl in Hp.
      rewrite Hp.
      erewrite bind_ok; last first.
      { apply forEachPlugin_loaded. intros pluginInfo Hin.
        apply (Hload (category, plugins)); [by left|done|done]. }
      rewrite IH.
      * by rewrite addEvents_app, app_assoc.
      * intros ? ?. apply Hlook. by right.
      * intros ? ? ?. apply Hload. by right.
    + apply IH.
      * intros ? ?. apply Hlook. by right.
      * intros ? ? ?. apply Hload. by right.
Qed.

(** C7. When every plugin listed for an initialized category loads, category
    resolution succeeds and yields exactly the tasks the spec describes: one
    per plugin, in iteration order, of those categories of the plugin info
    list that are keys of the persisted meta and whose module exposes
    [initEnv].  Plugins of other categories are not even loaded, and a
    module without the hook adds no task and no error. *)
Theorem category_tasks_resolved (env : Env) (rs : RunState) (meta : obj) :
  smMeta (store rs) = Ok meta →
  NoDup (map fst (getAllCategoryPluginInfo env)) →
  (∀ category plugins pluginInfo,
     (category, plugins) ∈ getAllCategoryPluginInfo env →
     has_key meta category = true →
     pluginInfo ∈ plugins →
     ∃ pluginModule, jsImport env (packageLocation pluginInfo) = Ok pluginModule) →
  resolveCategoryTasks env rs =
  (Ok (expectedCategoryTasks env meta),
   addEvents rs (EvGetMeta :: expectedCategoryImports env meta)).
Proof.
  intros Hmeta Hnd Hload. unfold resolveCategoryTasks.
  assert (getMeta rs = (Ok meta, addEvents rs [EvGetMeta])) as Hget.
  { unfold getMeta, bind, log, getStore, liftResult. simpl. by rewrite Hmeta. }
  rewrite (bind_ok _ _ _ _ _ Hget).
  rewrite forEachCategory_loaded.
  - by rewrite addEvents_app.
  - intros [category plugins] Hin. by apply pluginsOf_NoDup.
  - intros [category plugins] pluginInfo Hin Hkey Hp. by apply (Hload category plugins).
Qed.

Lemma category_tasks_resolved_witness :
  resolveCategoryTasks (Sample.env false None) (Sample.start true ["awscloudformation"]) =
  (Ok [categoryInitEnvTask "amplify-category-auth" Sample.okHook],
   addEvents (Sample.start true ["awscloudformation"])
     [EvGetMeta; EvImport "amplify-category-auth"; EvImport "amplify-util-auth"]).
Proof.
  apply (category_tasks_resolved (Sample.env false None) _ Sample.persistedMeta).
  - reflexivity.
  - by apply (bool_decide_unpack _).
  - intros category plugins pluginInfo Hin Hkey Hp. simpl in Hin.
    apply elem_of_cons in Hin as [[= -> ->]|Hin].
    + apply elem_of_cons in Hp as [->|Hp]; [by eexists|].
      apply elem_of_cons in Hp as [->|Hp]; [by eexists|]. by inversion Hp.
    + apply elem_of_cons in Hin as [[= -> ->]|Hin]; [|by inversion Hin].
      by vm_compute in Hkey.
Defined.

(** ** The orchestration *)

Lemma countClass_app c t1 t2 : countClass c (t1 ++ t2) = countClass c t1 + countClass c t2.
Proof. unfold countClass. by rewrite List.filter_app, length_app. Qed.

Lemma countClass_none c evs : Forall (λ ev, classify ev ≠ c) evs → countClass c evs = 0.
Proof.
  unfold countClass. induction 1 as [|ev evs Hev _ IH]; [done|]. simpl.
  by rewrite bool_decide_eq_false_2.
Qed.

Lemma countClass_one c ev : classify ev = c → countClass c [ev] = 1.
Proof. intros H. unfold countClass. simpl. by rewrite bool_decide_eq_true_2. Qed.

Lemma countClass_other c ev : classify ev ≠ c → countClass c [ev] = 0.
Proof. intros H. unfold countClass. simpl. by rewrite bool_decide_eq_false_2. Qed.

Lemma countClass_cons c ev l : countClass c (ev :: l) = countClass c [ev] + countClass c l.
Proof. apply (countClass_app c [ev] l). Qed.

Lemma initializeEnv_run env passed rs currentAmplifyMeta :
  defaultCurrentAmplifyMeta passed (store rs) = Ok currentAmplifyMeta →
  initializeEnv env passed rs =
  match initializeEnv_try env currentAmplifyMeta (currentEnvOf rs) rs with
  | (Ok a, rs') => (Ok a, rs')
  | (Err e, rs') => (Err e, spinnerOff rs' (EvSpinnerFail failText))
  end.
Proof.
  intros Hdef. unfold initializeEnv, bind, getStore, liftResult, tryCatch. simpl.
  rewrite Hdef. fold (currentEnvOf rs).
  by destruct (initializeEnv_try _ _ _ rs) as [[a|e] rs'].
Qed.

Lemma providerInitPhase_run currentEnv tasks rs :
  providerInitPhase currentEnv tasks rs =
  match sequential tasks (addEvents rs [EvStartTimer INIT_ENV_PLATFORM]) with
  | (Ok a, rs') => (Ok a, addEvents rs' [EvStopTimer INIT_ENV_PLATFORM])
  | (Err e, rs') =>
      (Err (AmplifyFault "ProjectInitFault"
              {| fo_message :=
                   "Could not initialize platform for '" +:+ currentEnv +:+ "': "
                     +:+ exn_message e;
                 fo_details := None;
                 fo_resolution := resolutionText;
                 fo_stack := exn_stack e |} e),
       addEvents rs' [EvStopTimer INIT_ENV_PLATFORM])
  end.
Proof.
  unfold providerInitPhase, tryFinally, tryCatch, bind, log, throw. simpl.
  fold (addEvents rs [EvStartTimer INIT_ENV_PLATFORM]).
  by destruct (sequential tasks _) as [[a|e] rs'].
Qed.

Lemma categoryInitPhase_run currentEnv tasks rs :
  categoryInitPhase currentEnv tasks rs =
  match sequential tasks (addEvents rs [EvStartTimer INIT_ENV_CATEGORIES]) with
  | (Ok a, rs') => (Ok a, addEvents rs' [EvStopTimer INIT_ENV_CATEGORIES])
  | (Err e, rs') =>
      (Err (AmplifyFault "ProjectInitFault"
              {| fo_message :=
                   "Could not initialize categories for '" +:+ currentEnv +:+ "': "
                     +:+ exn_message e;
                 fo_details := None;
                 fo_resolution := resolutionText;
                 fo_stack := exn_stack e |} e),
       addEvents rs' [EvStopTimer INIT_ENV_CATEGORIES])
  end.
Proof.
  unfold categoryInitPhase, tryFinally, tryCatch, bind, log, throw. simpl.
  fold (addEvents rs [EvStartTimer INIT_ENV_CATEGORIES]).
  by destruct (sequential tasks _) as [[a|e] rs'].
Qed.

Lemma refreshProjectDetails_run env rs projectDetails :
  getProjectDetails env (store rs) = Ok projectDetails →
  refreshProjectDetails env rs =
  (Ok tt,
   mkRun (setExeInfo (store rs) (assignProjectDetails (exeInfo (store rs)) projectDetails))
     (trace rs ++ [EvGetProjectDetails]) (spinning rs)).
Proof.
  intros H. unfold refreshProjectDetails, bind, log, getStore, liftResult, putStore. simpl.
  by rewrite H.
Qed.

(** C4. Whatever error the body of the outer [try] ends with, [initializeEnv]
    ends with that same error, after one [spinner.fail] that leaves the
    spinner stopped; the body itself never emits a failure notification, so
    the run emits exactly one. *)
Theorem failure_reported_once_and_rethrown
    (env : Env) (passed currentAmplifyMeta : value) (rs rs' : RunState) (e : exn) :
  defaultCurrentAmplifyMeta passed (store rs) = Ok currentAmplifyMeta →
  initializeEnv_try env currentAmplifyMeta (currentEnvOf rs) rs = (Err e, rs') →
  initializeEnv env passed rs = (Err e, spinnerOff rs' (EvSpinnerFail failText))
  ∧ spinning (spinnerOff rs' (EvSpinnerFail failText)) = false
  ∧ failNotifications (trace (spinnerOff rs' (EvSpinnerFail failText)))
    = S (failNotifications (trace rs)).
Proof.
  intros Hdef Hbody. split; [|split; [done|]].
  - by rewrite (initializeEnv_run _ _ _ _ Hdef), Hbody.
  - assert (safe (λ ev, classify ev ≠ CFail) anything
              (initializeEnv_try env currentAmplifyMeta (currentEnvOf rs))) as Hsafe.
    { apply initializeEnv_try_safe; by intros ev ->. }
    destruct (Hsafe _ _ _ Hbody) as [(evs & Ht & Hevs) _].
    unfold failNotifications. simpl. rewrite Ht, !countClass_app.
    rewrite (countClass_none _ _ Hevs), (countClass_one CFail) by done. lia.
Qed.

Lemma failure_reported_once_and_rethrown_witness :
  initializeEnv (Sample.env true (Some Sample.failingHook)) VUndefined
    (Sample.start false ["awscloudformation"])
  = (Err Sample.hookError,
     spinnerOff
       (snd (initializeEnv_try (Sample.env true (Some Sample.failingHook)) VUndefined "dev"
               (Sample.start false ["awscloudformation"])))
       (EvSpinnerFail failText)).
Proof.
  apply (failure_reported_once_and_rethrown (Sample.env true (Some Sample.failingHook))
           VUndefined VUndefined (Sample.start false ["awscloudformation"])).
  - reflexivity.
  - vm_compute. reflexivity.
Defined.

(** C9, as the code has it.  A run whose steps before it have succeeded -
    whether the push phase ran its tasks or was skipped - calls the
    outputs-changed hook exactly once, on the store those steps left and
    with the current meta it was given, and ends as the hook ends: in
    success after [printer.success], or with the hook's own error after the
    failure notification.  A run in which one of those steps fails - a
    failing push task among them - ends with that error and never calls the
    hook. *)
Theorem outputs_hook_invoked_once
    (env : Env) (passed currentAmplifyMeta : value) (rs : RunState) :
  defaultCurrentAmplifyMeta passed (store rs) = Ok currentAmplifyMeta →
  (∀ rs1,
     stepsBeforeOutputs env (currentEnvOf rs) rs = (Ok tt, rs1) →
     initializeEnv env passed rs
     = (match onCategoryOutputsChange env currentAmplifyMeta (store rs1) with
        | (Ok _, s2) =>
            (Ok tt,
             mkRun s2
               (trace rs1
                  ++ [EvOnCategoryOutputsChange currentAmplifyMeta;
                      EvPrinterSuccess (if isPulling (input env) then ""
                                        else "Initialized your environment successfully.")])
               (spinning rs1))
        | (Err e, s2) =>
            (Err e,
             mkRun s2
               (trace rs1
                  ++ [EvOnCategoryOutputsChange currentAmplifyMeta; EvSpinnerFail failText])
               false)
        end)
     ∧ outputsCalls (trace (snd (initializeEnv env passed rs))) = S (outputsCalls (trace rs))
     ∧ EvOnCategoryOutputsChange currentAmplifyMeta
         ∈ trace (snd (initializeEnv env passed rs)))
  ∧ (∀ e rs1,
       stepsBeforeOutputs env (currentEnvOf rs) rs = (Err e, rs1) →
       initializeEnv env passed rs = (Err e, spinnerOff rs1 (EvSpinnerFail failText))
       ∧ outputsCalls (trace (snd (initializeEnv env passed rs))) = outputsCalls (trace rs)).
Proof.
  intros Hdef.
  assert (safe (λ ev, classify ev ≠ COutputs) anything
            (stepsBeforeOutputs env (currentEnvOf rs))) as Hsafe.
  { apply stepsBeforeOutputs_safe; by intros ev ->. }
  split.
  - intros rs1 Hsteps.
    destruct (Hsafe _ _ _ Hsteps) as [(evs & Ht & Hevs) _].
    rewrite (initializeEnv_run _ _ _ _ Hdef). unfold initializeEnv_try.
    rewrite (bind_ok _ _ _ _ _ Hsteps).
    unfold outputsRegeneration, printer_success, bind, log, callHook. simpl.
    destruct (onCategoryOutputsChange env currentAmplifyMeta (store rs1)) as [[[]|e] s2];
      simpl; unfold outputsCalls, spinnerOff; simpl; rewrite <- !app_assoc; simpl;
      (split; [done|]);
      rewrite Ht, !countClass_app, (countClass_none _ _ Hevs);
      rewrite countClass_cons, (countClass_one COutputs), countClass_other by done;
      (split; [lia|set_solver]).
  - intros e rs1 Hsteps.
    destruct (Hsafe _ _ _ Hsteps) as [(evs & Ht & Hevs) _].
    rewrite (initializeEnv_run _ _ _ _ Hdef). unfold initializeEnv_try.
    rewrite (bind_err _ _ _ _ _ Hsteps). split; [done|]. simpl.
    unfold outputsCalls. rewrite Ht, !countClass_app, (countClass_none _ _ Hevs).
    rewrite countClass_other by done. lia.
Qed.

Lemma outputs_hook_invoked_once_witness :
  outputsCalls
    (trace (snd (initializeEnv (Sample.env false None) VUndefined
                   (Sample.start false ["awscloudformation"])))) = 1
  ∧ outputsCalls
      (trace (snd (initializeEnv (Sample.env true (Some Sample.okHook)) VUndefined
                     (Sample.start false ["awscloudformation"])))) = 1.
Proof.
  split.
  - apply (proj1 (outputs_hook_invoked_once (Sample.env false None) VUndefined VUndefined
                    (Sample.start false ["awscloudformation"]) eq_refl)
             (snd (stepsBeforeOutputs (Sample.env false None) "dev"
                     (Sample.start false ["awscloudformation"])))).
    vm_compute. reflexivity.
  - apply (proj1 (outputs_hook_invoked_once (Sample.env true (Some Sample.okHook))
                    VUndefined VUndefined
                    (Sample.start false ["awscloudformation"]) eq_refl)
             (snd (stepsBeforeOutputs (Sample.env true (Some Sample.okHook)) "dev"
                     (Sample.start false ["awscloudformation"])))).
    vm_compute. reflexivity.
Defined.

(** C9 as stated fails: in this run the push is confirmed and executed, its
    [pushResources] task fails, and the outputs-changed hook is not called
    at all. *)
Lemma outputs_hook_not_invoked_when_push_fails :
  EvConfirmPrompt pushQuestion
    ∈ trace (snd (initializeEnv (Sample.env true (Some Sample.failingHook)) VUndefined
                    (Sample.start false ["awscloudformation"])))
  ∧ EvPushResources "awscloudformation" Sample.resourceDefinition
      ∈ trace (snd (initializeEnv (Sample.env true (Some Sample.failingHook)) VUndefined
                      (Sample.start false ["awscloudformation"])))
  ∧ outputsCalls
      (trace (snd (initializeEnv (Sample.env true (Some Sample.failingHook)) VUndefined
                     (Sample.start false ["awscloudformation"])))) = 0
  ∧ ¬ outputsCalls
        (trace (snd (initializeEnv (Sample.env true (Some Sample.failingHook)) VUndefined
                       (Sample.start false ["awscloudformation"])))) = 1.
Proof.
  assert (outputsCalls
            (trace (snd (initializeEnv (Sample.env true (Some Sample.failingHook)) VUndefined
                           (Sample.start false ["awscloudformation"])))) = 0) as Hzero.
  { vm_compute. reflexivity. }
  split; [|split; [|split; [done|by rewrite Hzero]]].
  - compute_trace. apply list_elem_of_In. vm_compute. tauto.
  - compute_trace. apply list_elem_of_In. vm_compute. tauto.
Qed.

Lemma spinner_start_run text rs : spinner_start text rs = (Ok tt, spinnerOn rs text).
Proof. reflexivity. Qed.

Lemma spinner_succeed_run text rs :
  spinner_succeed text rs = (Ok tt, spinnerOff rs (EvSpinnerSucceed text)).
Proof. reflexivity. Qed.

Lemma initializeEnv_try_initPhases_err env currentAmplifyMeta currentEnv rs tasks rs1 e rs2 :
  mergeAndResolve env currentEnv rs = (Ok tasks, rs1) →
  initPhases env currentEnv (fst tasks) (snd tasks) rs1 = (Err e, rs2) →
  initializeEnv_try env currentAmplifyMeta currentEnv rs = (Err e, rs2).
Proof.
  intros Hmr Hinit. unfold initializeEnv_try, stepsBeforeOutputs, stepsBeforePush.
  apply bind_err, bind_err. rewrite (bind_ok _ _ _ _ _ Hmr). by apply bind_err.
Qed.

Lemma initializeEnv_try_pushPhase_err env currentAmplifyMeta currentEnv rs rs1 e rs2 :
  stepsBeforePush env currentEnv rs = (Ok tt, rs1) →
  pushPhase env rs1 = (Err e, rs2) →
  initializeEnv_try env currentAmplifyMeta currentEnv rs = (Err e, rs2).
Proof.
  intros Hsteps Hpush. unfold initializeEnv_try, stepsBeforeOutputs.
  apply bind_err. by rewrite (bind_ok _ _ _ _ _ Hsteps).
Qed.

Lemma pushPhase_run env rs tasks rs1 :
  forcePush (exeInfo (store rs)) = Some true →
  queuePushTasks env rs = (Ok tasks, rs1) →
  pushPhase env rs = sequential tasks rs1.
Proof.
  intros Hforce Hqueue. unfold pushPhase, bind at 1, getStore. rewrite Hforce.
  by rewrite (bind_ok _ _ _ _ _ Hqueue).
Qed.

(** C5. A failing provider-initialization task ends the run with one
    [ProjectInitFault] whose message is "Could not initialize platform for
    '<env>': <message of the task's error>" and whose cause is that error;
    after the failing task only the phase timer is stopped and the failure
    is notified - no category task, push or outputs regeneration.  A failing
    category-initialization task is wrapped the same way with "Could not
    initialize categories for '<env>': ...". *)
Theorem init_phase_failure_wrapped_and_final
    (env : Env) (passed currentAmplifyMeta : value) (rs rs1 : RunState)
    (initializationTasks categoryInitializationTasks : list Task) :
  defaultCurrentAmplifyMeta passed (store rs) = Ok currentAmplifyMeta →
  mergeAndResolve env (currentEnvOf rs) rs
    = (Ok (initializationTasks, categoryInitializationTasks), rs1) →
  (∀ e rs2,
     sequential initializationTasks
       (addEvents (spinnerOn rs1 (startText (isPulling (input env)) (currentEnvOf rs)))
          [EvStartTimer INIT_ENV_PLATFORM])
       = (Err e, rs2) →
     initializeEnv env passed rs =
     (Err (AmplifyFault "ProjectInitFault"
             {| fo_message :=
                  "Could not initialize platform for '" +:+ currentEnvOf rs +:+ "': "
                    +:+ exn_message e;
                fo_details := None;
                fo_resolution := resolutionText;
                fo_stack := exn_stack e |} e),
      spinnerOff (addEvents rs2 [EvStopTimer INIT_ENV_PLATFORM]) (EvSpinnerFail failText)))
  ∧ (∀ rs2 projectDetails e rs3,
       sequential initializationTasks
         (addEvents (spinnerOn rs1 (startText (isPulling (input env)) (currentEnvOf rs)))
            [EvStartTimer INIT_ENV_PLATFORM])
         = (Ok tt, rs2) →
       getProjectDetails env (store rs2) = Ok projectDetails →
       sequential categoryInitializationTasks
         (mkRun
            (setExeInfo (store rs2) (assignProjectDetails (exeInfo (store rs2)) projectDetails))
            (trace rs2
               ++ [EvStopTimer INIT_ENV_PLATFORM;
                   EvSpinnerSucceed (succeedText (isPulling (input env)) (currentEnvOf rs));
                   EvGetProjectDetails;
                   EvStartTimer INIT_ENV_CATEGORIES])
            false)
         = (Err e, rs3) →
       initializeEnv env passed rs =
       (Err (AmplifyFault "ProjectInitFault"
               {| fo_message :=
                    "Could not initialize categories for '" +:+ currentEnvOf rs +:+ "': "
                      +:+ exn_message e;
                  fo_details := None;
                  fo_resolution := resolutionText;
                  fo_stack := exn_stack e |} e),
        spinnerOff (addEvents rs3 [EvStopTimer INIT_ENV_CATEGORIES])
          (EvSpinnerFail failText))).
Proof.
  intros Hdef Hmr. split.
  - intros e rs2 Hseq. rewrite (initializeEnv_run _ _ _ _ Hdef).
    erewrite initializeEnv_try_initPhases_err; [done|exact Hmr|].
    simpl. unfold initPhases.
    rewrite (bind_ok _ _ _ _ _ (spinner_start_run _ _)).
    apply bind_err. by rewrite providerInitPhase_run, Hseq.
  - intros rs2 projectDetails e rs3 Hseq Hpd Hcat. rewrite (initializeEnv_run _ _ _ _ Hdef).
    erewrite initializeEnv_try_initPhases_err; [done|exact Hmr|].
    simpl. unfold initPhases.
    rewrite (bind_ok _ _ _ _ _ (spinner_start_run _ _)).
    erewrite bind_ok; [|by rewrite providerInitPhase_run, Hseq].
    rewrite (bind_ok _ _ _ _ _ (spinner_succeed_run _ _)).
    erewrite bind_ok; [|by apply refreshProjectDetails_run].
    rewrite categoryInitPhase_run.
    unfold addEvents, spinnerOff in *. simpl in *.
    rewrite <- !app_assoc. simpl. by rewrite Hcat.
Qed.

Lemma init_phase_failure_wrapped_and_final_witness :
  fst (initializeEnv Sample.brokenProviderEnv VUndefined (Sample.start true ["awscloudformation"]))
  = Err (AmplifyFault "ProjectInitFault"
           {| fo_message := "Could not initialize platform for 'dev': stack update failed";
              fo_details := None;
              fo_resolution := resolutionText;
              fo_stack := "at plugin hook" |} Sample.hookError).
Proof.
  edestruct (init_phase_failure_wrapped_and_final Sample.brokenProviderEnv VUndefined VUndefined
               (Sample.start true ["awscloudformation"])) as [Hplatform _].
  - reflexivity.
  - compute_lhs. reflexivity.
  - erewrite Hplatform; last (compute_lhs; reflexivity). reflexivity.
Defined.

(** C3. When the push was confirmed and the run of the queued
    [pushResources] tasks fails with an error [e], [initializeEnv] ends with
    [e] itself - the error of the failing task, see [sequential_err_inv] -
    not with a fault wrapped around it; only the failure notification
    follows the failing task. *)
Theorem push_failure_propagates_unwrapped
    (env : Env) (passed currentAmplifyMeta : value) (rs rs1 rs2 rs3 : RunState)
    (providerPushTasks : list Task) (e : exn) :
  defaultCurrentAmplifyMeta passed (store rs) = Ok currentAmplifyMeta →
  stepsBeforePush env (currentEnvOf rs) rs = (Ok tt, rs1) →
  forcePush (exeInfo (store rs1)) = Some true →
  queuePushTasks env rs1 = (Ok providerPushTasks, rs2) →
  sequential providerPushTasks rs2 = (Err e, rs3) →
  initializeEnv env passed rs = (Err e, spinnerOff rs3 (EvSpinnerFail failText)).
Proof.
  intros Hdef Hsteps Hforce Hqueue Hseq. rewrite (initializeEnv_run _ _ _ _ Hdef).
  erewrite initializeEnv_try_pushPhase_err; [done|exact Hsteps|].
  by rewrite (pushPhase_run _ _ _ _ Hforce Hqueue).
Qed.

Lemma push_failure_propagates_unwrapped_witness :
  fst (initializeEnv (Sample.env true (Some Sample.failingHook)) VUndefined
         (Sample.start false ["awscloudformation"]))
  = Err Sample.hookError.
Proof.
  erewrite (push_failure_propagates_unwrapped (Sample.env true (Some Sample.failingHook))
              VUndefined VUndefined (Sample.start false ["awscloudformation"])).
  - reflexivity.
  - reflexivity.
  - compute_lhs. reflexivity.
  - reflexivity.
  - compute_lhs. reflexivity.
  - compute_lhs. reflexivity.
Defined.

(** ** Provider resolution *)

Lemma providerLoop_loaded env amplifyMeta (pre : list string) tasks rs :
  (∀ q, q ∈ pre → ∃ providerModule, jsImport env (providerLocation env q) = Ok providerModule) →
  ∃ tasks',
    for_of pre
      (λ initializationTasks provider,
         tryCatch
           (log (EvImport (providerLocation env provider)) ;;;
            let! providerModule := liftResult (jsImport env (providerLocation env provider)) in
            ret (initializationTasks
                   ++ [providerInitEnvTask providerModule amplifyMeta provider]))
           (λ e, throw (amplifyFaultWithTroubleshootingLink "PluginNotLoadedFault"
                          {| fo_message :=
                               "Could not load plugin for provider " +:+ provider +:+ ".";
                             fo_details := Some (exn_message e);
                             fo_resolution := resolutionText;
                             fo_stack := exn_stack e |} e)))
      tasks rs
    = (Ok tasks', addEvents rs (map (λ q, EvImport (providerLocation env q)) pre)).
Proof.
  revert tasks rs. induction pre as [|q pre IH]; intros tasks rs Hload.
  - exists tasks. simpl. unfold ret. by rewrite addEvents_nil.
  - destruct (Hload q) as [providerModule Hm]; [by left|].
    destruct (IH (tasks ++ [providerInitEnvTask providerModule amplifyMeta q])
                (addEvents rs [EvImport (providerLocation env q)])) as [tasks' Hrest].
    { intros ? ?. apply Hload. by right. }
    exists tasks'. simpl for_of. erewrite bind_ok.
    + rewrite Hrest. by rewrite addEvents_app.
    + unfold tryCatch, bind, log, liftResult. simpl. by rewrite Hm.
Qed.

Lemma for_of_app {A S} (xs ys : list A) (f : S → A → M S) acc rs acc' rs' :
  for_of xs f acc rs = (Ok acc', rs') → for_of (xs ++ ys) f acc rs = for_of ys f acc' rs'.
Proof.
  revert acc rs. induction xs as [|x xs IH]; intros acc rs H; simpl in *.
  - by inversion H.
  - unfold bind in *. destruct (f acc x rs) as [[a|e] rs0]; [by apply IH|done].
Qed.

(** C6. When resolution reaches a provider of the project's list whose
    plugin does not load - the providers before it having loaded - the run
    ends at once with a [PluginNotLoadedFault] that names the provider and
    carries the load error (as its cause, and its message as details); the
    providers after it are not loaded, and no task of any kind has run. *)
Theorem provider_load_failure_is_fatal
    (env : Env) (passed currentAmplifyMeta : value) (rs rs1 rs2 : RunState)
    (amplifyMeta : obj) (categoryInitializationTasks : list Task)
    (pre post : list string) (provider : string) (e : exn) :
  defaultCurrentAmplifyMeta passed (store rs) = Ok currentAmplifyMeta →
  configMerge env (projectPathOf rs) (currentEnvOf rs) rs = (Ok amplifyMeta, rs1) →
  resolveCategoryTasks env rs1 = (Ok categoryInitializationTasks, rs2) →
  providers (exeInfo (store rs2)) = Some (pre ++ provider :: post) →
  (∀ q, q ∈ pre → ∃ providerModule, jsImport env (providerLocation env q) = Ok providerModule) →
  jsImport env (providerLocation env provider) = Err e →
  initializeEnv env passed rs =
  (Err (AmplifyFault "PluginNotLoadedFault"
          {| fo_message := "Could not load plugin for provider " +:+ provider +:+ ".";
             fo_details := Some (exn_message e);
             fo_resolution := resolutionText;
             fo_stack := exn_stack e |} e),
   spinnerOff
     (addEvents rs2 (map (λ q, EvImport (providerLocation env q)) (pre ++ [provider])))
     (EvSpinnerFail failText))
  ∧ countClass CTask (trace (snd (initializeEnv env passed rs))) = countClass CTask (trace rs).
Proof.
  intros Hdef Hmerge Hcat Hprov Hpre Hfail.
  set (fault := AmplifyFault "PluginNotLoadedFault" _ e).
  assert (resolveProviderTasks env amplifyMeta rs2 =
          (Err fault,
           addEvents rs2 (map (λ q, EvImport (providerLocation env q)) (pre ++ [provider]))))
    as Hres.
  { unfold resolveProviderTasks, bind at 1, getStore. rewrite Hprov.
    destruct (providerLoop_loaded env amplifyMeta pre [] rs2 Hpre) as [tasks' Hloop].
    rewrite (for_of_app _ _ _ _ _ _ _ Hloop). simpl for_of.
    apply bind_err. unfold tryCatch, bind, log, liftResult, throw. simpl. rewrite Hfail.
    by rewrite map_app, <- addEvents_app. }
  assert (initializeEnv_try env currentAmplifyMeta (currentEnvOf rs) rs =
          (Err fault,
           addEvents rs2 (map (λ q, EvImport (providerLocation env q)) (pre ++ [provider]))))
    as Htry.
  { unfold initializeEnv_try, stepsBeforeOutputs, stepsBeforePush.
    apply bind_err, bind_err, bind_err. unfold mergeAndResolve, bind at 1, getStore.
    fold (projectPathOf rs).
    rewrite (bind_ok _ _ _ _ _ Hmerge), (bind_ok _ _ _ _ _ Hcat). by apply bind_err. }
  assert (initializeEnv env passed rs =
          (Err fault,
           spinnerOff
             (addEvents rs2 (map (λ q, EvImport (providerLocation env q)) (pre ++ [provider])))
             (EvSpinnerFail failText))) as Hrun.
  { by rewrite (initializeEnv_run _ _ _ _ Hdef), Htry. }
  split; [done|]. rewrite Hrun.
  assert (safe (λ ev, classify ev ≠ CTask) anything
            (configMerge env (projectPathOf rs) (currentEnvOf rs))) as Hs1.
  { apply configMerge_safe; by intros ev ->. }
  assert (safe (λ ev, classify ev ≠ CTask) (Forall (taskSafe (λ _, True)))
            (resolveCategoryTasks env)) as Hs2.
  { apply resolveCategoryTasks_safe; [by intros ev ->|done]. }
  destruct (Hs1 _ _ _ Hmerge) as [(evs1 & Ht1 & Hevs1) _].
  destruct (Hs2 _ _ _ Hcat) as [(evs2 & Ht2 & Hevs2) _].
  simpl. rewrite Ht2, Ht1, !countClass_app.
  rewrite (countClass_none _ _ Hevs1), (countClass_none _ _ Hevs2).
  rewrite (countClass_other CTask) by done.
  rewrite (countClass_none CTask (map _ _)); [lia|].
  apply Forall_fmap, Forall_forall. by intros q _.
Qed.

Lemma provider_load_failure_is_fatal_witness :
  fst (initializeEnv (Sample.env false None) VUndefined
         (Sample.start false ["awscloudformation"; "other"; "awscloudformation"]))
  = Err (AmplifyFault "PluginNotLoadedFault"
           {| fo_message := "Could not load plugin for provider other.";
              fo_details := Some "Cannot find module";
              fo_resolution := resolutionText;
              fo_stack := "at import" |} Sample.loadError).
Proof.
  edestruct (provider_load_failure_is_fatal (Sample.env false None) VUndefined VUndefined
               (Sample.start false ["awscloudformation"; "other"; "awscloudformation"]))
    with (pre := ["awscloudformation"]) (post := ["awscloudformation"])
         (provider := "other") (e := Sample.loadError)
    as [Hrun _].
  - reflexivity.
  - compute_lhs. reflexivity.
  - compute_lhs. reflexivity.
  - reflexivity.
  - intros q Hq. apply list_elem_of_singleton in Hq as ->. by eexists.
  - reflexivity.
  - by rewrite Hrun.
Defined.

(** ** Restoring a backend *)

Lemma safeAt_bind {A B} P (Q1 : A → Prop) (Q : B → Prop) (m : M A) (k : A → M B) rs :
  safeAt P Q1 m rs →
  (∀ a rs1, m rs = (Ok a, rs1) → Q1 a → safeAt P Q (k a) rs1) →
  safeAt P Q (bind m k) rs.
Proof.
  intros Hm Hk r rs2 Hrun.
  destruct (bind_inv _ _ _ _ _ Hrun) as [(a & rs1 & H1 & H2)|(e & H1 & ->)].
  - destruct (Hm _ _ H1) as [(evs1 & Ht1 & HP1) HQ1].
    destruct (Hk a rs1 H1 (HQ1 a eq_refl) _ _ H2) as [(evs2 & Ht2 & HP2) HQ2].
    split; [|done]. exists (evs1 ++ evs2). split.
    + by rewrite Ht2, Ht1, app_assoc.
    + by apply Forall_app.
  - destruct (Hm _ _ H1) as [Hev _]. split; [done|]. intros ? [=].
Qed.

Lemma safeAt_tryCatch {A} P (Q : A → Prop) (m : M A) (h : exn → M A) rs :
  safeAt P Q m rs → (∀ e, safe P Q (h e)) → safeAt P Q (tryCatch m h) rs.
Proof.
  intros Hm Hh r rs2 Hrun. unfold tryCatch in Hrun.
  destruct (m rs) as [[a|e] rs1] eqn:E.
  - inversion Hrun; subst. exact (Hm _ _ E).
  - destruct (Hm _ _ E) as [(evs1 & Ht1 & HP1) _].
    destruct (Hh e _ _ _ Hrun) as [(evs2 & Ht2 & HP2) HQ2].
    split; [|done]. exists (evs1 ++ evs2). split.
    + by rewrite Ht2, Ht1, app_assoc.
    + by apply Forall_app.
Qed.

Lemma configMerge_restore env projectPath currentEnv rs :
  restoreBackend (exeInfo (store rs)) = true →
  configMerge env projectPath currentEnv rs =
  match smTeamProviderInfo (store rs) with
  | Err e => (Err e, addEvents rs [EvGetTeamProviderInfo projectPath])
  | Ok teamProviderInfo =>
      (match ensureEnvParamManager env currentEnv with
       | Err e => Err e
       | Ok _ => Ok (freshMeta teamProviderInfo currentEnv)
       end,
       addEvents rs [EvGetTeamProviderInfo projectPath; EvEnsureEnvParamManager currentEnv])
  end.
Proof.
  intros Hrestore.
  unfold configMerge, getTeamProviderInfo, bind, log, getStore, liftResult. simpl.
  destruct (smTeamProviderInfo (store rs)) as [tpi|e]; [|done].
  unfold addEvents. simpl. rewrite <- app_assoc. simpl.
  destruct (ensureEnvParamManager env currentEnv) as [epm|e]; [|done].
  by rewrite Hrestore.
Qed.

Section RestoreTrace.
Context (env : Env) (P : event → Prop).
Context (Hother : ∀ ev, classify ev = COther → P ev).
Context (Htask : ∀ ev, classify ev = CTask → P ev).
Context (Hout : ∀ ev, classify ev = COutputs → P ev).
Context (Hfail : ∀ ev, classify ev = CFail → P ev).

Lemma configMerge_restore_safeAt projectPath currentEnv rs :
  restoreBackend (exeInfo (store rs)) = true →
  safeAt P anything (configMerge env projectPath currentEnv) rs.
Proof.
  intros Hrestore r rs' Hrun. rewrite (configMerge_restore _ _ _ _ Hrestore) in Hrun.
  split; [|done].
  destruct (smTeamProviderInfo (store rs)); inversion Hrun; subst; simpl;
    eexists; (split; [done|]); repeat constructor; by apply Hother.
Qed.

Lemma initializeEnv_restore_safeAt passed rs :
  restoreBackend (exeInfo (store rs)) = true →
  safeAt P anything (initializeEnv env passed) rs.
Proof.
  intros Hrestore. unfold initializeEnv.
  apply (safeAt_bind _ anything); [by apply safe_getStore|].
  intros s rs0 [= <- <-] _.
  apply (safeAt_bind _ anything); [by apply safe_liftResult|].
  intros currentAmplifyMeta rs0 Hlift _.
  assert (rs0 = rs) as -> by (by inversion Hlift).
  apply safeAt_tryCatch; last first.
  { intros e. apply (safe_bind _ anything); [|intros _ _; apply safe_throw].
    unfold spinner_fail. apply (safe_bind _ anything); [|intros _ _; apply safe_setSpinning].
    apply safe_log. by apply Hfail. }
  unfold initializeEnv_try.
  apply (safeAt_bind _ anything); last first.
  { intros _ rs1 _ _. apply (safe_bind _ anything).
    - unfold outputsRegeneration. apply (safe_bind _ anything); [|intros _ _; apply safe_callHook].
      apply safe_log. by apply Hout.
    - intros _ _. by apply printer_success_safe. }
  unfold stepsBeforeOutputs.
  apply (safeAt_bind _ anything); [|intros _ rs1 _ _; by apply pushPhase_safe].
  unfold stepsBeforePush.
  apply (safeAt_bind _ (λ tasks, Forall (taskSafe P) (fst tasks)
                                 ∧ Forall (taskSafe P) (snd tasks))); last first.
  { intros [pt ct] rs1 _ [Hpt Hct]. simpl in *.
    apply (safe_bind _ anything); [by apply initPhases_safe|].
    intros _ _. by apply pushDecision_safe. }
  unfold mergeAndResolve.
  apply (safeAt_bind _ anything); [by apply safe_getStore|].
  intros s rs0 [= <- <-] _.
  apply (safeAt_bind _ anything); [by apply configMerge_restore_safeAt|].
  intros amplifyMeta rs1 _ _.
  apply (safe_bind _ (Forall (taskSafe P))); [by apply resolveCategoryTasks_safe|].
  intros ct Hct.
  apply (safe_bind _ (Forall (taskSafe P))); [by apply resolveProviderTasks_safe|].
  intros pt Hpt. by apply safe_ret.
Qed.

End RestoreTrace.

Lemma providerInitEnvTask_freshMeta providerModule hook teamProviderInfo currentEnv provider rs :
  initEnv providerModule = Some hook →
  providerInitEnvTask providerModule (freshMeta teamProviderInfo currentEnv) provider rs =
  let providerMeta :=
    if decide (provider = "awscloudformation")
    then get_prop_opt (get_prop_opt teamProviderInfo currentEnv) "awscloudformation"
    else VUndefined in
  (log (EvProviderInitEnv provider providerMeta) ;;; callHook (hook providerMeta)) rs.
Proof.
  intros Hhook. unfold providerInitEnvTask, freshMeta. rewrite Hhook.
  unfold get_prop at 1. rewrite lookup_singleton_eq. simpl.
  rewrite bind_liftResult_ok. unfold get_prop. rewrite bind_liftResult_ok.
  destruct (decide (provider = "awscloudformation")) as [->|Hne].
  - by rewrite lookup_singleton_eq.
  - by rewrite lookup_singleton_ne.
Qed.


(** C1 as stated fails: in this run with [restoreBackend] set, the meta the
    merge step hands on is not the persisted meta, and the provider's
    [initEnv] receives the team-provider info's entry ("eu-west-1"), which is
    not the provider entry of the persisted meta ("us-east-1"). *)
Lemma restore_backend_provider_meta_is_not_persisted_meta :
  restoreBackend (exeInfo (store (Sample.start true ["awscloudformation"]))) = true
  ∧ smMeta (store (Sample.start true ["awscloudformation"])) = Ok Sample.persistedMeta
  ∧ fst (configMerge (Sample.env false None) "/project" "dev"
           (Sample.start true ["awscloudformation"]))
    ≠ Ok Sample.persistedMeta
  ∧ ¬ (∀ provider providerMeta,
         EvProviderInitEnv provider providerMeta
           ∈ trace (snd (initializeEnv (Sample.env false None) VUndefined
                           (Sample.start true ["awscloudformation"]))) →
         providerMeta = entryOf Sample.persistedMeta "providers" provider).
Proof.
  split; [done|]. split; [done|]. split.
  - intros Heq.
    apply (f_equal (λ r : result obj, match r with Ok m => m !! "auth" | Err _ => None end))
      in Heq.
    vm_compute in Heq. discriminate Heq.
  - intros H.
    specialize (H "awscloudformation" (VObj {[ "Region" := VStr "eu-west-1" ]})).
    assert (VObj {[ "Region" := VStr "eu-west-1" ]}
            = entryOf Sample.persistedMeta "providers" "awscloudformation") as Heq.
    { apply H. compute_trace. do 8 right. left. }
    vm_compute in Heq. discriminate Heq.
Qed.

(** * Further properties of [initialize-env.ts] *)

(** ** Runs related by a preorder *)

Section Follows.
Context (R : RunState → RunState → Prop) (ok : event → Prop).
Context (Hrefl : ∀ rs, R rs rs).
Context (Htrans : ∀ x y z, R x y → R y z → R x z).

Lemma follows_ret {A} (Q : A → Prop) (a : A) : Q a → follows R Q (ret a).
Proof. intros HQ rs r rs' Hrun. inversion Hrun; subst. split; [done|]. by intros ? [= <-]. Qed.

Lemma follows_throw {A} (Q : A → Prop) (e : exn) : follows R Q (throw e).
Proof. intros rs r rs' Hrun. inversion Hrun; subst. split; [done|]. intros ? [=]. Qed.

Lemma follows_liftResult {A} (Q : A → Prop) (r : result A) :
  (∀ a, r = Ok a → Q a) → follows R Q (liftResult r).
Proof. intros HQ rs r' rs' Hrun. inversion Hrun; subst. done. Qed.

Lemma follows_getStore (Q : Store → Prop) : (∀ s, Q s) → follows R Q getStore.
Proof. intros HQ rs r rs' Hrun. inversion Hrun; subst. split; [done|]. by intros ? [= <-]. Qed.

Lemma follows_bind {A B} (Q1 : A → Prop) (Q : B → Prop) (m : M A) (k : A → M B) :
  follows R Q1 m → (∀ a, Q1 a → follows R Q (k a)) → follows R Q (bind m k).
Proof.
  intros Hm Hk rs r rs2 Hrun.
  destruct (bind_inv _ _ _ _ _ Hrun) as [(a & rs1 & H1 & H2)|(e & H1 & ->)].
  - destruct (Hm _ _ _ H1) as [HR1 HQ1].
    destruct (Hk a (HQ1 a eq_refl) _ _ _ H2) as [HR2 HQ2]. split; [|done].
    by apply (Htrans _ rs1).
  - destruct (Hm _ _ _ H1) as [HR1 _]. split; [done|]. intros ? [=].
Qed.

Lemma follows_tryCatch {A} (Q : A → Prop) (m : M A) (h : exn → M A) :
  follows R Q m → (∀ e, follows R Q (h e)) → follows R Q (tryCatch m h).
Proof.
  intros Hm Hh rs r rs2 Hrun. unfold tryCatch in Hrun.
  destruct (m rs) as [[a|e] rs1] eqn:E.
  - inversion Hrun; subst. exact (Hm _ _ _ E).
  - destruct (Hm _ _ _ E) as [HR1 _]. destruct (Hh e _ _ _ Hrun) as [HR2 HQ2].
    split; [|done]. by apply (Htrans _ rs1).
Qed.

Lemma follows_tryFinally {A} (Q : A → Prop) (m : M A) (f : M unit) :
  follows R Q m → follows R anything f → follows R Q (tryFinally m f).
Proof.
  intros Hm Hf rs r rs2 Hrun. unfold tryFinally in Hrun.
  destruct (m rs) as [r1 rs1] eqn:E. destruct (f rs1) as [rf rsf] eqn:Ef.
  destruct (Hm _ _ _ E) as [HR1 HQ1]. destruct (Hf _ _ _ Ef) as [HR2 _].
  destruct rf; inversion Hrun; subst; (split; [by apply (Htrans _ rs1)|]); [done|].
  intros ? [=].
Qed.

Lemma follows_for_of {A S} (I : S → Prop) (xs : list A) (f : S → A → M S) (acc : S) :
  I acc → (∀ acc x, I acc → x ∈ xs → follows R I (f acc x)) → follows R I (for_of xs f acc).
Proof.
  revert acc. induction xs as [|x xs IH]; intros acc Hacc Hf; simpl.
  - by apply follows_ret.
  - apply follows_bind with (Q1 := I).
    + apply Hf; [done|]. by left.
    + intros acc' Hacc'. apply IH; [done|]. intros ? ? ? ?. apply Hf; [done|]. by right.
Qed.

Lemma follows_sequential tasks :
  Forall (taskFollows R) tasks → follows R anything (sequential tasks).
Proof.
  induction 1 as [|t tasks Ht _ IH]; simpl.
  - by apply follows_ret.
  - eapply follows_bind; [exact Ht|]. intros _ _. exact IH.
Qed.

(** What the primitives that change the state must respect. *)
Context (Hstore : ∀ rs s, R rs (mkRun s (trace rs) (spinning rs))).
Context (Hlog : ∀ rs ev, ok ev → R rs (addEvents rs [ev])).

Lemma follows_putStore s : follows R anything (putStore s).
Proof. intros rs r rs' Hrun. inversion Hrun; subst. split; [apply Hstore|done]. Qed.

Lemma follows_callHook h : follows R anything (callHook h).
Proof.
  intros rs r rs' Hrun. unfold callHook in Hrun.
  destruct (h (store rs)) as [r0 s']. inversion Hrun; subst. split; [apply Hstore|done].
Qed.

Lemma follows_log ev : ok ev → follows R anything (log ev).
Proof. intros Hev rs r rs' Hrun. inversion Hrun; subst. split; [by apply Hlog|done]. Qed.

End Follows.

Section FollowsPhases.
Context (env : Env) (R : RunState → RunState → Prop) (ok : event → Prop).
Context (Hrefl : ∀ rs, R rs rs).
Context (Htrans : ∀ x y z, R x y → R y z → R x z).
Context (Hstore : ∀ rs s, R rs (mkRun s (trace rs) (spinning rs))).
Context (Hlog : ∀ rs ev, ok ev → R rs (addEvents rs [ev])).
Context (Hplain : ∀ ev, isPlain ev = true → ok ev).

Ltac follows_prim :=
  first
    [ apply (follows_throw _ Hrefl)
    | apply (follows_putStore _ Hstore)
    | apply (follows_callHook _ Hstore)
    | apply (follows_log _ _ Hlog); apply Hplain; reflexivity
    | apply (follows_getStore _ Hrefl); done
    | apply (follows_liftResult _ Hrefl); done
    | apply (follows_ret _ Hrefl); done ].

Ltac follows_go :=
  repeat first
    [ follows_prim
    | apply (follows_bind _ Htrans anything); [|intros ? _]
    | apply (follows_tryCatch _ Htrans); [|intros ?]
    | apply (follows_tryFinally _ Htrans)
    | match goal with
      | |- follows _ _ (match ?x with _ => _ end) => destruct x
      end ].

Lemma categoryInitEnvTask_follows location hook :
  taskFollows R (categoryInitEnvTask location hook).
Proof. unfold taskFollows, categoryInitEnvTask. follows_go. Qed.

Lemma providerInitEnvTask_follows providerModule amplifyMeta provider :
  taskFollows R (providerInitEnvTask providerModule amplifyMeta provider).
Proof. unfold taskFollows, providerInitEnvTask. follows_go. Qed.

Lemma pushResourcesTask_follows providerModule provider resourceDefinition :
  taskFollows R (pushResourcesTask providerModule provider resourceDefinition).
Proof. unfold taskFollows, pushResourcesTask. follows_go. Qed.

Lemma resolveCategoryTasks_follows :
  follows R (Forall (taskFollows R)) (resolveCategoryTasks env).
Proof.
  unfold resolveCategoryTasks.
  apply (follows_bind _ Htrans anything); [unfold getMeta; follows_go|intros meta _].
  apply (follows_for_of _ Hrefl Htrans); [constructor|]. intros tasks category Ht _.
  destruct (pluginsOf _ category) as [plugins|]; [|apply (follows_throw _ Hrefl)].
  apply (follows_for_of _ Hrefl Htrans); [done|]. intros tasks' pluginInfo Ht' _.
  unfold importCategoryPluginAndQueueInitEnvTask.
  apply (follows_tryCatch _ Htrans); [|intros e; apply (follows_throw _ Hrefl)].
  apply (follows_bind _ Htrans anything); [follows_go|intros _ _].
  apply (follows_bind _ Htrans anything); [follows_go|intros m _].
  destruct (initEnv m) as [hook|]; apply (follows_ret _ Hrefl); [|done].
  apply Forall_app. split; [done|].
  constructor; [apply categoryInitEnvTask_follows|constructor].
Qed.

Lemma resolveProviderTasks_follows amplifyMeta :
  follows R (Forall (taskFollows R)) (resolveProviderTasks env amplifyMeta).
Proof.
  unfold resolveProviderTasks.
  apply (follows_bind _ Htrans anything); [follows_go|intros s _].
  destruct (providers (exeInfo s)) as [providerList|]; [|apply (follows_throw _ Hrefl)].
  apply (follows_for_of _ Hrefl Htrans); [constructor|]. intros tasks provider Ht _.
  apply (follows_tryCatch _ Htrans); [|intros e; apply (follows_throw _ Hrefl)].
  apply (follows_bind _ Htrans anything); [follows_go|intros _ _].
  apply (follows_bind _ Htrans anything); [follows_go|intros m _].
  apply (follows_ret _ Hrefl). apply Forall_app. split; [done|].
  constructor; [apply providerInitEnvTask_follows|constructor].
Qed.

Lemma queuePushTasks_follows : follows R (Forall (taskFollows R)) (queuePushTasks env).
Proof.
  unfold queuePushTasks.
  apply (follows_bind _ Htrans anything); [follows_go|intros s _].
  destruct (providers (exeInfo s)) as [providerList|]; [|apply (follows_throw _ Hrefl)].
  apply (follows_for_of _ Hrefl Htrans); [constructor|]. intros tasks provider Ht _.
  apply (follows_bind _ Htrans anything); [follows_go|intros _ _].
  apply (follows_bind _ Htrans anything); [follows_go|intros m _].
  apply (follows_bind _ Htrans anything); [follows_go|intros _ _].
  apply (follows_bind _ Htrans anything); [follows_go|intros s' _].
  apply (follows_bind _ Htrans anything); [follows_go|intros d _].
  apply (follows_ret _ Hrefl). apply Forall_app. split; [done|].
  constructor; [apply pushResourcesTask_follows|constructor].
Qed.

Lemma pushPhase_follows : follows R anything (pushPhase env).
Proof.
  unfold pushPhase.
  apply (follows_bind _ Htrans anything); [follows_go|intros s _].
  destruct (forcePush (exeInfo s)) as [[|]|]; try (by apply (follows_ret _ Hrefl)).
  apply (follows_bind _ Htrans (Forall (taskFollows R))); [by apply queuePushTasks_follows|].
  intros tasks Ht. by apply (follows_sequential _ Hrefl Htrans).
Qed.

Lemma pushDecision_follows : follows R anything (pushDecision env).
Proof. unfold pushDecision. follows_go. Qed.

Lemma refreshProjectDetails_follows : follows R anything (refreshProjectDetails env).
Proof. unfold refreshProjectDetails. follows_go. Qed.

Lemma outputsRegeneration_follows currentAmplifyMeta :
  follows R anything (outputsRegeneration env currentAmplifyMeta).
Proof. unfold outputsRegeneration. follows_go. Qed.

Lemma printer_success_follows text : follows R anything (printer_success text).
Proof. unfold printer_success. follows_go. Qed.

Lemma configMerge_follows projectPath currentEnv :
  follows R anything (configMerge env projectPath currentEnv).
Proof.
  unfold configMerge, getTeamProviderInfo.
  apply (follows_bind _ Htrans anything); [follows_go|intros tpi _].
  apply (follows_bind _ Htrans anything); [follows_go|intros _ _].
  apply (follows_bind _ Htrans anything); [follows_go|intros epm _].
  apply (follows_bind _ Htrans anything); [follows_go|intros s _].
  destruct (negb _); [|by apply (follows_ret _ Hrefl)].
  unfold mergeBackendConfigIntoAmplifyMeta, getBackendConfig,
    mergeCategoryEnvParamsIntoAmplifyMeta, setMeta.
  follows_go.
Qed.

Lemma mergeAndResolve_follows currentEnv :
  follows R (λ tasks, Forall (taskFollows R) (fst tasks) ∧ Forall (taskFollows R) (snd tasks))
    (mergeAndResolve env currentEnv).
Proof.
  unfold mergeAndResolve.
  apply (follows_bind _ Htrans anything); [follows_go|intros s _].
  apply (follows_bind _ Htrans anything); [by apply configMerge_follows|intros amplifyMeta _].
  apply (follows_bind _ Htrans (Forall (taskFollows R)));
    [by apply resolveCategoryTasks_follows|].
  intros ct Hct.
  apply (follows_bind _ Htrans (Forall (taskFollows R)));
    [by apply resolveProviderTasks_follows|].
  intros pt Hpt. by apply (follows_ret _ Hrefl).
Qed.

Lemma categoryInitPhase_follows currentEnv tasks :
  ok (EvStartTimer INIT_ENV_CATEGORIES) → ok (EvStopTimer INIT_ENV_CATEGORIES) →
  Forall (taskFollows R) tasks → follows R anything (categoryInitPhase currentEnv tasks).
Proof.
  intros Hstart Hstop Ht. unfold categoryInitPhase.
  apply (follows_tryFinally _ Htrans); [|by apply (follows_log _ _ Hlog)].
  apply (follows_tryCatch _ Htrans); [|intros e; apply (follows_throw _ Hrefl)].
  apply (follows_bind _ Htrans anything); [by apply (follows_log _ _ Hlog)|intros _ _].
  by apply (follows_sequential _ Hrefl Htrans).
Qed.

(** Lines 125-145: what follows the two initialization phases. *)
Lemma afterInitPhases_follows currentAmplifyMeta text :
  follows R anything
    (pushDecision env ;;; pushPhase env ;;;
     outputsRegeneration env currentAmplifyMeta ;;; printer_success text).
Proof.
  apply (follows_bind _ Htrans anything); [apply pushDecision_follows|intros _ _].
  apply (follows_bind _ Htrans anything); [apply pushPhase_follows|intros _ _].
  apply (follows_bind _ Htrans anything); [apply outputsRegeneration_follows|intros _ _].
  apply printer_success_follows.
Qed.

End FollowsPhases.

(** ** The spinner *)

Lemma bind_cases {A B} (m : M A) (k : A → M B) rs (G : result B → RunState → Prop) :
  (∀ e rs1, m rs = (Err e, rs1) → G (Err e) rs1) →
  (∀ a rs1, m rs = (Ok a, rs1) → ∀ r rs2, k a rs1 = (r, rs2) → G r rs2) →
  ∀ r rs2, bind m k rs = (r, rs2) → G r rs2.
Proof.
  intros Herr Hok r rs2 Hrun.
  destruct (bind_inv _ _ _ _ _ Hrun) as [(a & rs1 & H1 & H2)|(e & H1 & ->)]; eauto.
Qed.

Lemma initializeEnv_default_err env passed rs e :
  defaultCurrentAmplifyMeta passed (store rs) = Err e →
  initializeEnv env passed rs = (Err e, rs).
Proof.
  intros Hdef. unfold initializeEnv, bind, getStore, liftResult. simpl. by rewrite Hdef.
Qed.

Lemma keepsSpinner_refl rs : keepsSpinner rs rs.
Proof. done. Qed.

Lemma keepsSpinner_trans x y z : keepsSpinner x y → keepsSpinner y z → keepsSpinner x z.
Proof. unfold keepsSpinner. intros H1 H2. by rewrite H2, H1. Qed.

Lemma keepsSpinner_store rs s : keepsSpinner rs (mkRun s (trace rs) (spinning rs)).
Proof. done. Qed.

Lemma keepsSpinner_log rs ev : True → keepsSpinner rs (addEvents rs [ev]).
Proof. done. Qed.

Ltac keeps_side :=
  first [ exact keepsSpinner_refl | exact keepsSpinner_trans | exact keepsSpinner_store
        | exact keepsSpinner_log | done ].

Lemma afterSucceed_keepsSpinner env currentEnv categoryInitializationTasks :
  Forall (taskFollows keepsSpinner) categoryInitializationTasks →
  follows keepsSpinner anything
    (refreshProjectDetails env ;;; categoryInitPhase currentEnv categoryInitializationTasks).
Proof.
  intros Hct. apply (follows_bind _ keepsSpinner_trans anything).
  - eapply (refreshProjectDetails_follows env keepsSpinner (λ _, True)); keeps_side.
  - intros _ _. eapply (categoryInitPhase_follows keepsSpinner (λ _, True)); keeps_side.
Qed.

Lemma initPhases_ok_spinner env currentEnv initializationTasks categoryInitializationTasks
    rs rs' :
  Forall (taskFollows keepsSpinner) categoryInitializationTasks →
  initPhases env currentEnv initializationTasks categoryInitializationTasks rs = (Ok tt, rs') →
  spinning rs' = false.
Proof.
  intros Hct. unfold initPhases.
  rewrite (bind_ok _ _ _ _ _ (spinner_start_run _ _)). intros Hrun.
  refine (bind_cases _ _ _ (λ r rs', r = Ok tt → spinning rs' = false) _ _ _ _ Hrun eq_refl);
    [done|].
  clear Hrun rs'. intros [] rs1 _ r rs'.
  rewrite (bind_ok _ _ _ _ _ (spinner_succeed_run _ _)). intros Hrest ->.
  destruct (afterSucceed_keepsSpinner env currentEnv _ Hct _ _ _ Hrest) as [Hspin _].
  by rewrite Hspin.
Qed.

(** X1. Whenever the default of the second parameter evaluates, the run
    leaves the spinner stopped: on failure through [spinner.fail], on
    success because nothing after [spinner.succeed] starts it again. *)
Theorem spinner_stopped_after_run
    (env : Env) (passed currentAmplifyMeta : value) (rs : RunState) :
  defaultCurrentAmplifyMeta passed (store rs) = Ok currentAmplifyMeta →
  spinning (snd (initializeEnv env passed rs)) = false.
Proof.
  intros Hdef. rewrite (initializeEnv_run _ _ _ _ Hdef).
  destruct (initializeEnv_try env currentAmplifyMeta (currentEnvOf rs) rs) as [[[]|e] rs']
    eqn:Hbody; [|done]. simpl.
  revert Hbody. unfold initializeEnv_try, stepsBeforeOutputs, stepsBeforePush.
  intros Hbody.
  destruct (bind_inv _ _ _ _ _ Hbody) as [(a1 & rs1 & H1 & Hrest1)|(e & _ & [=])].
  destruct (bind_inv _ _ _ _ _ H1) as [(a2 & rs2 & H2 & Hpush)|(e & _ & [=])].
  destruct (bind_inv _ _ _ _ _ H2) as [(tasks & rs3 & H3 & Hinit)|(e & _ & [=])].
  destruct (bind_inv _ _ _ _ _ Hinit) as [([] & rs4 & H4 & Hdecide)|(e & _ & [=])].
  assert (follows keepsSpinner
            (λ tasks, Forall (taskFollows keepsSpinner) (fst tasks)
                      ∧ Forall (taskFollows keepsSpinner) (snd tasks))
            (mergeAndResolve env (currentEnvOf rs))) as Hmr.
  { eapply (mergeAndResolve_follows env keepsSpinner (λ _, True)); keeps_side. }
  destruct (Hmr _ _ _ H3) as [_ Htasks]. destruct (Htasks tasks eq_refl) as [_ Hct].
  pose proof (initPhases_ok_spinner _ _ _ _ _ _ Hct H4) as Hoff.
  assert (follows keepsSpinner anything (pushDecision env)) as Hd.
  { eapply (pushDecision_follows env keepsSpinner (λ _, True)); keeps_side. }
  assert (follows keepsSpinner anything (pushPhase env)) as Hp.
  { eapply (pushPhase_follows env keepsSpinner (λ _, True)); keeps_side. }
  assert (follows keepsSpinner anything
            (outputsRegeneration env currentAmplifyMeta ;;;
             printer_success (if isPulling (input env) then ""
                              else "Initialized your environment successfully."))) as Hlast.
  { apply (follows_bind _ keepsSpinner_trans anything).
    - eapply (outputsRegeneration_follows env keepsSpinner (λ _, True)); keeps_side.
    - intros _ _. eapply (printer_success_follows keepsSpinner (λ _, True)); keeps_side. }
  destruct (Hd _ _ _ Hdecide) as [Hk1 _]. destruct (Hp _ _ _ Hpush) as [Hk2 _].
  destruct (Hlast _ _ _ Hrest1) as [Hk3 _].
  unfold keepsSpinner in *. by rewrite Hk3, Hk2, Hk1.
Qed.

Lemma spinner_stopped_after_run_witness :
  spinning (snd (initializeEnv (Sample.env false None) VUndefined
                   (mkRun (Sample.store false ["awscloudformation"]) [] true))) = false.
Proof.
  apply (spinner_stopped_after_run (Sample.env false None) VUndefined VUndefined).
  reflexivity.
Defined.

(** ** The phase timers *)

Lemma timerEvents_app a b : timerEvents (a ++ b) = timerEvents a ++ timerEvents b.
Proof. unfold timerEvents. apply List.filter_app. Qed.

Lemma noTimers_refl rs : noTimers rs rs.
Proof. done. Qed.

Lemma noTimers_trans x y z : noTimers x y → noTimers y z → noTimers x z.
Proof. unfold noTimers. intros H1 H2. by rewrite H2, H1. Qed.

Lemma noTimers_store rs s : noTimers rs (mkRun s (trace rs) (spinning rs)).
Proof. done. Qed.

Lemma noTimers_log rs ev : isTimer ev = false → noTimers rs (addEvents rs [ev]).
Proof.
  intros Hev. unfold noTimers. simpl. rewrite timerEvents_app. unfold timerEvents at 2. simpl.
  rewrite Hev. by rewrite app_nil_r.
Qed.

Lemma plain_noTimer ev : isPlain ev = true → isTimer ev = false.
Proof. by destruct ev. Qed.

Ltac timers_side :=
  first [ exact noTimers_refl | exact noTimers_trans | exact noTimers_store
        | exact noTimers_log | exact plain_noTimer | done ].

Lemma sequential_noTimers tasks rs r rs' :
  Forall (taskFollows noTimers) tasks → sequential tasks rs = (r, rs') → noTimers rs rs'.
Proof.
  intros Ht Hrun.
  by destruct (follows_sequential _ noTimers_refl noTimers_trans _ Ht _ _ _ Hrun).
Qed.

Lemma initPhases_cases env currentEnv initializationTasks categoryInitializationTasks rs :
  initPhases env currentEnv initializationTasks categoryInitializationTasks rs =
  match sequential initializationTasks
          (addEvents (spinnerOn rs (startText (isPulling (input env)) currentEnv))
             [EvStartTimer INIT_ENV_PLATFORM]) with
  | (Err e, rs1) =>
      (Err (AmplifyFault "ProjectInitFault"
              {| fo_message :=
                   "Could not initialize platform for '" +:+ currentEnv +:+ "': "
                     +:+ exn_message e;
                 fo_details := None;
                 fo_resolution := resolutionText;
                 fo_stack := exn_stack e |} e),
       addEvents rs1 [EvStopTimer INIT_ENV_PLATFORM])
  | (Ok _, rs1) =>
      let rs2 :=
        addEvents
          (spinnerOff (addEvents rs1 [EvStopTimer INIT_ENV_PLATFORM])
             (EvSpinnerSucceed (succeedText (isPulling (input env)) currentEnv)))
          [EvGetProjectDetails] in
      match getProjectDetails env (store rs1) with
      | Err e => (Err e, rs2)
      | Ok projectDetails =>
          match sequential categoryInitializationTasks
                  (addEvents
                     (mkRun (setExeInfo (store rs1)
                               (assignProjectDetails (exeInfo (store rs1)) projectDetails))
                        (trace rs2) false)
                     [EvStartTimer INIT_ENV_CATEGORIES]) with
          | (Err e, rs3) =>
              (Err (AmplifyFault "ProjectInitFault"
                      {| fo_message :=
                           "Could not initialize categories for '" +:+ currentEnv +:+ "': "
                             +:+ exn_message e;
                         fo_details := None;
                         fo_resolution := resolutionText;
                         fo_stack := exn_stack e |} e),
               addEvents rs3 [EvStopTimer INIT_ENV_CATEGORIES])
          | (Ok a, rs3) => (Ok a, addEvents rs3 [EvStopTimer INIT_ENV_CATEGORIES])
          end
      end
  end.
Proof.
  unfold initPhases. rewrite (bind_ok _ _ _ _ _ (spinner_start_run _ _)).
  unfold bind at 1. rewrite providerInitPhase_run.
  destruct (sequential initializationTasks _) as [[[]|e] rs1]; [|done].
  rewrite (bind_ok _ _ _ _ _ (spinner_succeed_run _ _)).
  unfold refreshProjectDetails, bind, log, getStore, liftResult, putStore. simpl.
  destruct (getProjectDetails env (store rs1)) as [projectDetails|e]; [|done].
  rewrite categoryInitPhase_run.
  by destruct (sequential categoryInitializationTasks _) as [[a|e] rs3].
Qed.

Lemma initializeEnv_try_cases env currentAmplifyMeta currentEnv rs :
  initializeEnv_try env currentAmplifyMeta currentEnv rs =
  match mergeAndResolve env currentEnv rs with
  | (Err e, rs1) => (Err e, rs1)
  | (Ok tasks, rs1) =>
      match initPhases env currentEnv (fst tasks) (snd tasks) rs1 with
      | (Err e, rs2) => (Err e, rs2)
      | (Ok _, rs2) =>
          (pushDecision env ;;; pushPhase env ;;;
           outputsRegeneration env currentAmplifyMeta ;;;
           printer_success (if isPulling (input env) then ""
                            else "Initialized your environment successfully.")) rs2
      end
  end.
Proof.
  unfold initializeEnv_try, stepsBeforeOutputs, stepsBeforePush, bind.
  destruct (mergeAndResolve env currentEnv rs) as [[tasks|e] rs1]; [|done].
  destruct (initPhases env currentEnv tasks.1 tasks.2 rs1) as [[[]|e] rs2]; [|done].
  destruct (pushDecision env rs2) as [[[]|e] rs3]; [|done].
  by destruct (pushPhase env rs3) as [[[]|e] rs4].
Qed.

Lemma initPhases_timers env currentEnv initializationTasks categoryInitializationTasks
    rs r rs' :
  Forall (taskFollows noTimers) initializationTasks →
  Forall (taskFollows noTimers) categoryInitializationTasks →
  initPhases env currentEnv initializationTasks categoryInitializationTasks rs = (r, rs') →
  ∃ X, addsTimers X rs rs'
       ∧ (X = platformTimers ∨ X = allTimers)
       ∧ (∀ a, r = Ok a → X = allTimers).
Proof.
  intros Hpt Hct. rewrite initPhases_cases. unfold addsTimers.
  destruct (sequential initializationTasks _) as [[[]|e] rs1] eqn:Hseq;
    pose proof (sequential_noTimers _ _ _ _ Hpt Hseq) as H1;
    unfold noTimers in H1; simpl in H1; rewrite !timerEvents_app in H1; simpl in H1;
    rewrite app_nil_r in H1.
  - simpl. destruct (getProjectDetails env (store rs1)) as [projectDetails|e].
    + intros Hrun. exists allTimers.
      split; [|split; [by right|done]].
      destruct (sequential categoryInitializationTasks _) as [[[]|e] rs2] eqn:Hseq2;
        pose proof (sequential_noTimers _ _ _ _ Hct Hseq2) as H2;
        unfold noTimers in H2; simpl in H2; rewrite !timerEvents_app in H2; simpl in H2;
        rewrite !app_nil_r in H2;
        inversion Hrun; subst; simpl; rewrite timerEvents_app, H2, H1; simpl;
        by rewrite <- !app_assoc.
    + intros [= <- <-]. exists platformTimers. simpl.
      rewrite !timerEvents_app, H1. simpl. rewrite !app_nil_r.
      split; [by rewrite <- app_assoc|]. split; [by left|done].
  - intros [= <- <-]. exists platformTimers. simpl. rewrite timerEvents_app, H1. simpl.
    split; [by rewrite <- app_assoc|]. split; [by left|done].
Qed.

(** X2. In every run the phase timers are called in matched pairs, in
    order: a run calls no timer at all, or starts and stops the platform
    timer, or does so and then starts and stops the categories timer - a
    phase that fails still stops its timer - and a run that succeeds has
    timed both phases. *)
Theorem timers_paired (env : Env) (passed : value) (rs : RunState) :
  ∃ X, addsTimers X rs (snd (initializeEnv env passed rs))
       ∧ (X = [] ∨ X = platformTimers ∨ X = allTimers)
       ∧ (∀ a, fst (initializeEnv env passed rs) = Ok a → X = allTimers).
Proof.
  destruct (defaultCurrentAmplifyMeta passed (store rs)) as [currentAmplifyMeta|e] eqn:Hdef.
  2:{ rewrite (initializeEnv_default_err _ _ _ _ Hdef). exists []. unfold addsTimers. simpl.
      rewrite app_nil_r. split; [done|]. split; [by left|done]. }
  rewrite (initializeEnv_run _ _ _ _ Hdef), initializeEnv_try_cases.
  assert (follows noTimers
            (λ tasks, Forall (taskFollows noTimers) (fst tasks)
                      ∧ Forall (taskFollows noTimers) (snd tasks))
            (mergeAndResolve env (currentEnvOf rs))) as Hmr.
  { eapply (mergeAndResolve_follows env noTimers (λ ev, isTimer ev = false)); timers_side. }
  assert (follows noTimers anything
            (pushDecision env ;;; pushPhase env ;;;
             outputsRegeneration env currentAmplifyMeta ;;;
             printer_success (if isPulling (input env) then ""
                              else "Initialized your environment successfully."))) as Hafter.
  { eapply (afterInitPhases_follows env noTimers (λ ev, isTimer ev = false)); timers_side. }
  unfold addsTimers.
  destruct (mergeAndResolve env (currentEnvOf rs) rs) as [[tasks|e] rs1] eqn:H1;
    destruct (Hmr _ _ _ H1) as [Hq Htasks]; unfold noTimers in Hq.
  2:{ exists []. simpl. rewrite timerEvents_app, Hq. simpl.
      split; [done|]. split; [by left|done]. }
  destruct (Htasks tasks eq_refl) as [Hpt Hct].
  destruct (initPhases env (currentEnvOf rs) (fst tasks) (snd tasks) rs1) as [r2 rs2] eqn:H2.
  destruct (initPhases_timers _ _ _ _ _ _ _ Hpt Hct H2) as (X & HX & Hshape & Hok).
  unfold addsTimers in HX.
  destruct r2 as [[]|e].
  2:{ exists X. simpl. rewrite timerEvents_app, HX, Hq. simpl. rewrite app_nil_r.
      split; [done|]. split; [tauto|done]. }
  specialize (Hok tt eq_refl). subst X. exists allTimers.
  match goal with
  | |- context [match ?run with _ => _ end] => destruct run as [[[]|e] rs3] eqn:Hrun
  end; destruct (Hafter _ _ _ Hrun) as [H3 _]; unfold noTimers in H3; simpl;
    rewrite ?timerEvents_app, H3, HX, Hq; simpl; rewrite ?app_nil_r;
    (split; [done|]); (split; [tauto|done]).
Qed.

(** ** Outcomes of a run *)

(** X3. An error raised while the default of the second parameter is
    evaluated - [stateManager.getCurrentMeta()] throwing when the caller
    passes no current meta and the file exists - is raised before the
    outer [try] is entered: the run ends with that error and has done
    nothing else, not even the failure notification. *)
Theorem default_meta_error_escapes_catch (env : Env) (rs : RunState) (e : exn) :
  smCurrentMeta (store rs) = Some (Err e) →
  initializeEnv env VUndefined rs = (Err e, rs).
Proof.
  intros Hcur. apply initializeEnv_default_err. unfold defaultCurrentAmplifyMeta.
  by rewrite Hcur.
Qed.

Lemma default_meta_error_escapes_catch_witness :
  initializeEnv (Sample.env false None) VUndefined
    (mkRun (mkStore (exeInfo (Sample.store false []))
              (Ok Sample.persistedMeta) (Some (Err Sample.loadError))
              (Ok Sample.teamProviderInfo) (Ok Sample.backendConfig)) [] false)
  = (Err Sample.loadError,
     mkRun (mkStore (exeInfo (Sample.store false []))
              (Ok Sample.persistedMeta) (Some (Err Sample.loadError))
              (Ok Sample.teamProviderInfo) (Ok Sample.backendConfig)) [] false).
Proof. by apply default_meta_error_escapes_catch. Defined.

Lemma afterInitPhases_ok_end env currentAmplifyMeta text rs rs' :
  (pushDecision env ;;; pushPhase env ;;;
   outputsRegeneration env currentAmplifyMeta ;;; printer_success text) rs = (Ok tt, rs') →
  ∃ evs, trace rs' = trace rs ++ evs
                     ++ [EvOnCategoryOutputsChange currentAmplifyMeta; EvPrinterSuccess text].
Proof.
  intros Hrun.
  destruct (bind_inv _ _ _ _ _ Hrun) as [([] & rs1 & H1 & Hrun1)|(e & _ & [=])].
  destruct (bind_inv _ _ _ _ _ Hrun1) as [([] & rs2 & H2 & Hrun2)|(e & _ & [=])].
  destruct (pushDecision_safe env (λ _, True) ltac:(done) _ _ _ H1) as [(evs1 & Ht1 & _) _].
  destruct (pushPhase_safe env (λ _, True) ltac:(done) ltac:(done) _ _ _ H2)
    as [(evs2 & Ht2 & _) _].
  revert Hrun2. unfold outputsRegeneration, printer_success, bind, log, callHook. simpl.
  destruct (onCategoryOutputsChange env currentAmplifyMeta (store rs2)) as [[[]|e] s3];
    [|done].
  intros [= <-]. simpl. exists (evs1 ++ evs2). rewrite Ht2, Ht1.
  by rewrite <- !app_assoc.
Qed.

(** X4. Once the default of the second parameter has evaluated, a run
    succeeds exactly when it emits no failure notification, and a successful
    run ends with the outputs-changed call followed by [printer.success],
    whose text is empty for a pull and "Initialized your environment
    successfully." otherwise. *)
Theorem success_iff_no_failure_notification
    (env : Env) (passed currentAmplifyMeta : value) (rs : RunState) :
  defaultCurrentAmplifyMeta passed (store rs) = Ok currentAmplifyMeta →
  (fst (initializeEnv env passed rs) = Ok tt
   ↔ failNotifications (trace (snd (initializeEnv env passed rs)))
     = failNotifications (trace rs))
  ∧ (fst (initializeEnv env passed rs) = Ok tt →
     ∃ evs,
       trace (snd (initializeEnv env passed rs))
       = trace rs ++ evs
         ++ [EvOnCategoryOutputsChange currentAmplifyMeta;
             EvPrinterSuccess (if isPulling (input env) then ""
                               else "Initialized your environment successfully.")]).
Proof.
  intros Hdef. rewrite (initializeEnv_run _ _ _ _ Hdef).
  destruct (initializeEnv_try env currentAmplifyMeta (currentEnvOf rs) rs) as [[[]|e] rs']
    eqn:Hbody.
  - assert (safe (λ ev, classify ev ≠ CFail) anything
              (initializeEnv_try env currentAmplifyMeta (currentEnvOf rs))) as Hsafe.
    { apply initializeEnv_try_safe; by intros ev ->. }
    destruct (Hsafe _ _ _ Hbody) as [(evs & Ht & Hevs) _]. simpl. split.
    + split; [intros _|done]. unfold failNotifications.
      rewrite Ht, countClass_app, (countClass_none _ _ Hevs). lia.
    + intros _. rewrite initializeEnv_try_cases in Hbody.
      destruct (mergeAndResolve env (currentEnvOf rs) rs) as [[tasks|e] rs1] eqn:H1; [|done].
      destruct (initPhases env (currentEnvOf rs) tasks.1 tasks.2 rs1) as [[[]|e] rs2] eqn:H2;
        [|done].
      destruct (afterInitPhases_ok_end _ _ _ _ _ Hbody) as [evs3 Ht3].
      destruct (mergeAndResolve_safe env (λ _, True) ltac:(done) (λ _, True) _
                  ltac:(done) ltac:(done) _ _ _ H1) as [(evs1 & Ht1 & _) Htasks].
      destruct (Htasks tasks eq_refl) as [Hpt Hct].
      destruct (initPhases_safe env (λ _, True) ltac:(done) _ _ _ Hpt Hct _ _ _ H2)
        as [(evs2 & Ht2 & _) _].
      exists (evs1 ++ evs2 ++ evs3). rewrite Ht3, Ht2, Ht1. by rewrite <- !app_assoc.
  - assert (safe (λ ev, classify ev ≠ CFail) anything
              (initializeEnv_try env currentAmplifyMeta (currentEnvOf rs))) as Hsafe.
    { apply initializeEnv_try_safe; by intros ev ->. }
    destruct (Hsafe _ _ _ Hbody) as [(evs & Ht & Hevs) _]. simpl. split; [|done].
    split; [done|]. unfold failNotifications.
    rewrite Ht, !countClass_app, (countClass_none _ _ Hevs), (countClass_one CFail) by done.
    lia.
Qed.

Lemma success_iff_no_failure_notification_witness :
  fst (initializeEnv (Sample.env false None) VUndefined
         (Sample.start false ["awscloudformation"])) = Ok tt
  ↔ failNotifications
      (trace (snd (initializeEnv (Sample.env false None) VUndefined
                     (Sample.start false ["awscloudformation"]))))
    = failNotifications (trace (Sample.start false ["awscloudformation"])).
Proof.
  apply (success_iff_no_failure_notification (Sample.env false None) VUndefined VUndefined).
  reflexivity.
Defined.

(** X5. A failing [getProjectDetails] after a successful provider phase ends
    the run with its own error, not wrapped in any fault: the spinner has
    already reported the provider success, no category task runs, and only
    the failure notification follows. *)
Theorem project_details_failure_unwrapped
    (env : Env) (passed currentAmplifyMeta : value) (rs rs1 rs2 : RunState)
    (tasks : list Task * list Task) (e : exn) :
  defaultCurrentAmplifyMeta passed (store rs) = Ok currentAmplifyMeta →
  mergeAndResolve env (currentEnvOf rs) rs = (Ok tasks, rs1) →
  sequential (fst tasks)
    (addEvents (spinnerOn rs1 (startText (isPulling (input env)) (currentEnvOf rs)))
       [EvStartTimer INIT_ENV_PLATFORM])
    = (Ok tt, rs2) →
  getProjectDetails env (store rs2) = Err e →
  initializeEnv env passed rs =
  (Err e,
   mkRun (store rs2)
     (trace rs2
        ++ [EvStopTimer INIT_ENV_PLATFORM;
            EvSpinnerSucceed (succeedText (isPulling (input env)) (currentEnvOf rs));
            EvGetProjectDetails;
            EvSpinnerFail failText])
     false).
Proof.
  intros Hdef Hmr Hseq Hpd.
  rewrite (initializeEnv_run _ _ _ _ Hdef), initializeEnv_try_cases, Hmr, initPhases_cases.
  rewrite Hseq. simpl. rewrite Hpd. unfold spinnerOff, addEvents. simpl.
  by rewrite <- !app_assoc.
Qed.

Lemma project_details_failure_unwrapped_witness :
  fst (initializeEnv
         {| input := mkInput "init" [];
            ensureEnvParamManager := λ _, Ok Sample.noParams;
            getAllCategoryPluginInfo := [];
            getProviderPlugins := {[ "awscloudformation" := Sample.cfnLocation ]};
            jsImport := Sample.pluginRegistry None;
            getProjectDetails := λ _, Err Sample.hookError;
            confirmPrompt := λ _, Ok false;
            getResourceStatus := λ _ _, Ok VNull;
            onCategoryOutputsChange := Sample.okHook |}
         VUndefined (Sample.start true ["awscloudformation"]))
  = Err Sample.hookError.
Proof.
  erewrite (project_details_failure_unwrapped _ VUndefined VUndefined
              (Sample.start true ["awscloudformation"])).
  - reflexivity.
  - reflexivity.
  - compute_lhs. reflexivity.
  - compute_lhs. reflexivity.
  - reflexivity.
Defined.

(** X6. The push is skipped unless it was confirmed: with [forcePush]
    pre-set to [false] the decision and push steps do nothing at all - no
    prompt, no import, no resource status, no task; with [forcePush] unset
    and the prompt answered "no", the only call is the prompt and the answer
    is recorded in [exeInfo.forcePush]; with [forcePush] pre-set the prompt
    is never shown. *)
Theorem push_skipped_unless_confirmed (env : Env) (rs : RunState) :
  (forcePush (exeInfo (store rs)) = Some false →
   (pushDecision env ;;; pushPhase env) rs = (Ok tt, rs))
  ∧ (forcePush (exeInfo (store rs)) = None →
     confirmPrompt env pushQuestion = Ok false →
     (pushDecision env ;;; pushPhase env) rs =
     (Ok tt,
      mkRun
        (setExeInfo (store rs)
           (mkExeInfo (localEnvInfo (exeInfo (store rs))) (restoreBackend (exeInfo (store rs)))
              (Some false) (providers (exeInfo (store rs)))))
        (trace rs ++ [EvConfirmPrompt pushQuestion]) (spinning rs)))
  ∧ (∀ answer, forcePush (exeInfo (store rs)) = Some answer →
     pushDecision env rs = (Ok tt, rs)).
Proof.
  split; [|split].
  - intros Hforce. unfold pushDecision, pushPhase, bind, getStore. simpl.
    rewrite Hforce. simpl. by rewrite Hforce.
  - intros Hforce Hanswer.
    unfold pushDecision, pushPhase, bind, getStore, log, liftResult, putStore. simpl.
    rewrite Hforce. simpl. by rewrite Hanswer.
  - intros answer Hforce. unfold pushDecision, bind, getStore. simpl. by rewrite Hforce.
Qed.

Lemma push_skipped_unless_confirmed_witness :
  (pushDecision (Sample.env false None) ;;; pushPhase (Sample.env false None))
    (Sample.start false ["awscloudformation"])
  = (Ok tt,
     mkRun
       (setExeInfo (Sample.store false ["awscloudformation"])
          (mkExeInfo (mkLocalEnvInfo "dev" "/project") false (Some false)
             (Some ["awscloudformation"])))
       [EvConfirmPrompt pushQuestion] false).
Proof.
  apply (proj1 (proj2 (push_skipped_unless_confirmed (Sample.env false None)
                         (Sample.start false ["awscloudformation"]))));
    reflexivity.
Defined.

(** ** The merge step, case by case *)

Lemma configMerge_cases env projectPath currentEnv rs :
  configMerge env projectPath currentEnv rs =
  match smTeamProviderInfo (store rs) with
  | Err e => (Err e, addEvents rs [EvGetTeamProviderInfo projectPath])
  | Ok teamProviderInfo =>
      match ensureEnvParamManager env currentEnv with
      | Err e =>
          (Err e,
           addEvents rs [EvGetTeamProviderInfo projectPath; EvEnsureEnvParamManager currentEnv])
      | Ok envParamManager =>
          if restoreBackend (exeInfo (store rs))
          then
            (Ok (freshMeta teamProviderInfo currentEnv),
             addEvents rs
               [EvGetTeamProviderInfo projectPath; EvEnsureEnvParamManager currentEnv])
          else
            match smBackendConfig (store rs) with
            | Err e =>
                (Err e,
                 addEvents rs
                   [EvGetTeamProviderInfo projectPath; EvEnsureEnvParamManager currentEnv;
                    EvGetBackendConfig projectPath])
            | Ok backendConfig =>
                match
                  (if hasResourceParamManager envParamManager "hosting" "ElasticContainer"
                      && hasAnyParams envParamManager "hosting" "ElasticContainer"
                   then assignParams
                          (Object_assign (freshMeta teamProviderInfo currentEnv) backendConfig)
                          "hosting" "ElasticContainer"
                          (getAllParams envParamManager "hosting" "ElasticContainer")
                   else Ok (Object_assign (freshMeta teamProviderInfo currentEnv)
                              backendConfig))
                with
                | Err e =>
                    (Err e,
                     addEvents rs
                       [EvGetTeamProviderInfo projectPath; EvEnsureEnvParamManager currentEnv;
                        EvGetBackendConfig projectPath;
                        EvHasResourceParamManager "hosting" "ElasticContainer"])
                | Ok amplifyMeta =>
                    (Ok amplifyMeta,
                     mkRun
                       (mkStore (exeInfo (store rs)) (Ok amplifyMeta) (smCurrentMeta (store rs))
                          (smTeamProviderInfo (store rs)) (smBackendConfig (store rs)))
                       (trace rs
                          ++ [EvGetTeamProviderInfo projectPath;
                              EvEnsureEnvParamManager currentEnv;
                              EvGetBackendConfig projectPath;
                              EvHasResourceParamManager "hosting" "ElasticContainer";
                              EvSetMeta projectPath amplifyMeta])
                       (spinning rs))
                end
            end
      end
  end.
Proof.
  unfold configMerge, getTeamProviderInfo, mergeBackendConfigIntoAmplifyMeta, getBackendConfig,
    mergeCategoryEnvParamsIntoAmplifyMeta, setMeta, bind, log, getStore, liftResult, putStore,
    ret, addEvents.
  simpl.
  destruct (smTeamProviderInfo (store rs)) as [tpi|e] eqn:Htpi; [|done].
  destruct (ensureEnvParamManager env currentEnv) as [epm|e];
    [|by rewrite <- !app_assoc].
  destruct (restoreBackend (exeInfo (store rs))); simpl; [by rewrite <- !app_assoc|].
  destruct (smBackendConfig (store rs)) as [bc|e] eqn:Hbc; [|by rewrite <- !app_assoc].
  destruct (_ && _); simpl.
  - destruct (assignParams _ _ _ _) as [am|e]; simpl;
      by rewrite <- !app_assoc, ?Htpi, ?Hbc.
  - by rewrite <- !app_assoc, ?Htpi, ?Hbc.
Qed.

(** X7. A merge step that succeeds without [restoreBackend] has read the
    team-provider info, the parameter manager and the backend config, has
    queried the overrides of (hosting, ElasticContainer) and has written the
    meta last: the meta it returns is what [stateManager.getMeta()] yields
    afterwards, nothing else of the store has changed, and outside [hosting]
    every key of the backend config holds the backend config's value - also
    the key [providers], should the backend config have one - while a key
    the backend config lacks is as in the fresh meta.  A merge step that
    fails, with or without [restoreBackend], leaves the store as it was. *)
Theorem merge_persists_what_it_returns
    (env : Env) (projectPath currentEnv : string) (rs rs' : RunState) :
  (∀ amplifyMeta,
     restoreBackend (exeInfo (store rs)) = false →
     configMerge env projectPath currentEnv rs = (Ok amplifyMeta, rs') →
     ∃ teamProviderInfo backendConfig,
       smTeamProviderInfo (store rs) = Ok teamProviderInfo
       ∧ smBackendConfig (store rs) = Ok backendConfig
       ∧ store rs'
         = mkStore (exeInfo (store rs)) (Ok amplifyMeta) (smCurrentMeta (store rs))
             (smTeamProviderInfo (store rs)) (smBackendConfig (store rs))
       ∧ trace rs'
         = trace rs
           ++ [EvGetTeamProviderInfo projectPath; EvEnsureEnvParamManager currentEnv;
               EvGetBackendConfig projectPath;
               EvHasResourceParamManager "hosting" "ElasticContainer";
               EvSetMeta projectPath amplifyMeta]
       ∧ (∀ k, k ≠ "hosting" →
            amplifyMeta !! k
            = match backendConfig !! k with
              | Some v => Some v
              | None => freshMeta teamProviderInfo currentEnv !! k
              end))
  ∧ (∀ e, configMerge env projectPath currentEnv rs = (Err e, rs') → store rs' = store rs).
Proof.
  rewrite configMerge_cases. split.
  - intros amplifyMeta Hrestore Hrun. rewrite Hrestore in Hrun.
    destruct (smTeamProviderInfo (store rs)) as [tpi|e]; [|done].
    destruct (ensureEnvParamManager env currentEnv) as [epm|e]; [|done].
    destruct (smBackendConfig (store rs)) as [bc|e]; [|done].
    exists tpi, bc.
    assert (∀ k, (Object_assign (freshMeta tpi currentEnv) bc : obj) !! k
                 = match bc !! k with
                   | Some v => Some v
                   | None => freshMeta tpi currentEnv !! k
                   end) as Hassign.
    { intros k. unfold Object_assign. rewrite lookup_union.
      destruct (bc !! k); [|by destruct (freshMeta tpi currentEnv !! k)].
      by destruct (freshMeta tpi currentEnv !! k). }
    destruct (hasResourceParamManager epm "hosting" "ElasticContainer"
              && hasAnyParams epm "hosting" "ElasticContainer").
    + destruct (assignParams (Object_assign (freshMeta tpi currentEnv) bc) "hosting"
                  "ElasticContainer" (getAllParams epm "hosting" "ElasticContainer"))
        as [am|e] eqn:Hparams; [|done].
      inversion Hrun; subst. repeat (split; [done|]).
      intros k Hk. destruct (assignParams_frame _ _ _ _ _ Hparams) as [Hframe _].
      by rewrite (Hframe k Hk), Hassign.
    + inversion Hrun; subst. repeat (split; [done|]). intros k _. apply Hassign.
  - intros e Hrun.
    destruct (smTeamProviderInfo (store rs)) as [tpi|e1]; [|by inversion Hrun].
    destruct (ensureEnvParamManager env currentEnv) as [epm|e1]; [|by inversion Hrun].
    destruct (restoreBackend (exeInfo (store rs))); [done|].
    destruct (smBackendConfig (store rs)) as [bc|e1]; [|by inversion Hrun].
    match type of Hrun with
    | (match ?x with _ => _ end) = _ => destruct x as [am|e1]
    end; [done|by inversion Hrun].
Qed.

Lemma merge_persists_what_it_returns_witness :
  smMeta (store (snd (configMerge (Sample.env false None) "/project" "dev"
                        (Sample.start false ["awscloudformation"]))))
  = Ok (Sample.backendConfig ∪ freshMeta Sample.teamProviderInfo "dev").
Proof.
  destruct (proj1 (merge_persists_what_it_returns (Sample.env false None) "/project" "dev"
                     (Sample.start false ["awscloudformation"])
                     (snd (configMerge (Sample.env false None) "/project" "dev"
                             (Sample.start false ["awscloudformation"]))))
              (Sample.backendConfig ∪ freshMeta Sample.teamProviderInfo "dev"))
    as (tpi & bc & _ & _ & Hstore & _).
  - reflexivity.
  - rewrite configMerge_cases. reflexivity.
  - by rewrite Hstore.
Defined.

Lemma mergeAndResolve_cases env currentEnv rs :
  mergeAndResolve env currentEnv rs =
  match configMerge env (projectPathOf rs) currentEnv rs with
  | (Err e, rs1) => (Err e, rs1)
  | (Ok amplifyMeta, rs1) =>
      (let! categoryInitializationTasks := resolveCategoryTasks env in
       let! initializationTasks := resolveProviderTasks env amplifyMeta in
       ret (initializationTasks, categoryInitializationTasks)) rs1
  end.
Proof.
  unfold mergeAndResolve, bind at 1, getStore. fold (projectPathOf rs).
  unfold bind at 1. by destruct (configMerge _ _ _ rs) as [[am|e] rs1].
Qed.


(** ** The task lists of the providers *)

Lemma providerLoop_run env amplifyMeta (loaded : string → PluginModule) (ps : list string)
    tasks rs :
  (∀ p, p ∈ ps → jsImport env (providerLocation env p) = Ok (loaded p)) →
  for_of ps
    (λ initializationTasks provider,
       tryCatch
         (log (EvImport (providerLocation env provider)) ;;;
          let! providerModule := liftResult (jsImport env (providerLocation env provider)) in
          ret (initializationTasks
                 ++ [providerInitEnvTask providerModule amplifyMeta provider]))
         (λ e, throw (amplifyFaultWithTroubleshootingLink "PluginNotLoadedFault"
                        {| fo_message :=
                             "Could not load plugin for provider " +:+ provider +:+ ".";
                           fo_details := Some (exn_message e);
                           fo_resolution := resolutionText;
                           fo_stack := exn_stack e |} e)))
    tasks rs
  = (Ok (tasks ++ expectedProviderTasks loaded amplifyMeta ps),
     addEvents rs (map (λ p, EvImport (providerLocation env p)) ps)).
Proof.
  revert tasks rs. induction ps as [|p ps IH]; intros tasks rs Hload.
  - simpl. unfold ret. by rewrite app_nil_r, addEvents_nil.
  - simpl for_of.
    match goal with
    | |- bind ?m _ _ = _ =>
        assert (m rs = (Ok (tasks ++ [providerInitEnvTask (loaded p) amplifyMeta p]),
                        addEvents rs [EvImport (providerLocation env p)])) as Hstep
    end.
    { unfold tryCatch, bind, log, liftResult. simpl. by rewrite (Hload p) by (by left). }
    rewrite (bind_ok _ _ _ _ _ Hstep), IH by (intros ? ?; apply Hload; by right).
    by rewrite addEvents_app, <- app_assoc.
Qed.

(** X9. When every provider of the project's list loads, provider
    resolution yields one [initEnv] task per entry of the list, in list
    order - an entry listed twice gives two tasks, and a module without
    [initEnv] still gives a task - and loads the plugins in that order. *)
Theorem provider_tasks_resolved
    (env : Env) (amplifyMeta : obj) (rs : RunState) (providerList : list string)
    (loaded : string → PluginModule) :
  providers (exeInfo (store rs)) = Some providerList →
  (∀ p, p ∈ providerList → jsImport env (providerLocation env p) = Ok (loaded p)) →
  resolveProviderTasks env amplifyMeta rs =
  (Ok (expectedProviderTasks loaded amplifyMeta providerList),
   addEvents rs (map (λ p, EvImport (providerLocation env p)) providerList)).
Proof.
  intros Hprov Hload. unfold resolveProviderTasks, bind at 1, getStore. rewrite Hprov.
  by rewrite (providerLoop_run env amplifyMeta loaded).
Qed.

Lemma provider_tasks_resolved_witness :
  resolveProviderTasks (Sample.env false None) ∅
    (Sample.start false ["awscloudformation"; "awscloudformation"])
  = (Ok [providerInitEnvTask (mkPluginModule (Some Sample.okHook) None) ∅ "awscloudformation";
         providerInitEnvTask (mkPluginModule (Some Sample.okHook) None) ∅ "awscloudformation"],
     addEvents (Sample.start false ["awscloudformation"; "awscloudformation"])
       [EvImport Sample.cfnLocation; EvImport Sample.cfnLocation]).
Proof.
  apply (provider_tasks_resolved (Sample.env false None) ∅ _
           ["awscloudformation"; "awscloudformation"]
           (λ _, mkPluginModule (Some Sample.okHook) None)).
  - reflexivity.
  - intros p Hp. apply elem_of_cons in Hp as [->|Hp]; [reflexivity|].
    apply list_elem_of_singleton in Hp as ->. reflexivity.
Defined.

Lemma pushLoop_run env (loaded : string → PluginModule) (definition : string → value)
    (ps : list string) tasks rs :
  (∀ p, p ∈ ps → jsImport env (providerLocation env p) = Ok (loaded p)) →
  (∀ p, p ∈ ps → getResourceStatus env p (store rs) = Ok (definition p)) →
  for_of ps
    (λ providerPushTasks provider,
       log (EvImport (providerLocation env provider)) ;;;
       let! providerModule := liftResult (jsImport env (providerLocation env provider)) in
       log (EvGetResourceStatus provider) ;;;
       let! s := getStore in
       let! resourceDefinition := liftResult (getResourceStatus env provider s) in
       ret (providerPushTasks
              ++ [pushResourcesTask providerModule provider resourceDefinition]))
    tasks rs
  = (Ok (tasks ++ expectedPushTasks loaded definition ps),
     addEvents rs
       (flat_map (λ p, [EvImport (providerLocation env p); EvGetResourceStatus p]) ps)).
Proof.
  revert tasks rs. induction ps as [|p ps IH]; intros tasks rs Hload Hdef.
  - simpl. unfold ret. by rewrite app_nil_r, addEvents_nil.
  - simpl for_of.
    match goal with
    | |- bind ?m _ _ = _ =>
        assert (m rs = (Ok (tasks ++ [pushResourcesTask (loaded p) p (definition p)]),
                        addEvents rs [EvImport (providerLocation env p);
                                      EvGetResourceStatus p])) as Hstep
    end.
    { unfold bind, log, liftResult, getStore. simpl.
      rewrite (Hload p) by (by left). simpl. rewrite (Hdef p) by (by left).
      unfold addEvents. simpl. by rewrite <- app_assoc. }
    rewrite (bind_ok _ _ _ _ _ Hstep), IH.
    + by rewrite addEvents_app, <- app_assoc.
    + intros ? ?. apply Hload. by right.
    + intros ? ?. simpl. apply Hdef. by right.
Qed.

(** X10. When every provider of the list loads and has a resource status,
    the push loop queues one [pushResources] task per entry of the list, in
    list order, each with the definition [getResourceStatus] returned for its
    provider; every definition is read from the store as it is before the
    first push, and queueing only loads modules and reads statuses. *)
Theorem push_tasks_queued
    (env : Env) (rs : RunState) (providerList : list string)
    (loaded : string → PluginModule) (definition : string → value) :
  providers (exeInfo (store rs)) = Some providerList →
  (∀ p, p ∈ providerList → jsImport env (providerLocation env p) = Ok (loaded p)) →
  (∀ p, p ∈ providerList → getResourceStatus env p (store rs) = Ok (definition p)) →
  queuePushTasks env rs =
  (Ok (expectedPushTasks loaded definition providerList),
   addEvents rs
     (flat_map (λ p, [EvImport (providerLocation env p); EvGetResourceStatus p])
        providerList)).
Proof.
  intros Hprov Hload Hdef. unfold queuePushTasks, bind at 1, getStore. rewrite Hprov.
  by rewrite (pushLoop_run env loaded definition).
Qed.

Lemma push_tasks_queued_witness :
  queuePushTasks (Sample.env true (Some Sample.okHook))
    (Sample.start false ["awscloudformation"])
  = (Ok [pushResourcesTask (mkPluginModule (Some Sample.okHook) (Some Sample.okHook))
           "awscloudformation" Sample.resourceDefinition],
     addEvents (Sample.start false ["awscloudformation"])
       [EvImport Sample.cfnLocation; EvGetResourceStatus "awscloudformation"]).
Proof.
  apply (push_tasks_queued (Sample.env true (Some Sample.okHook)) _ ["awscloudformation"]
           (λ _, mkPluginModule (Some Sample.okHook) (Some Sample.okHook))
           (λ _, Sample.resourceDefinition)).
  - reflexivity.
  - intros p Hp. apply list_elem_of_singleton in Hp as ->. reflexivity.
  - intros p Hp. reflexivity.
Defined.


(** ** Plugins that do not load, modules without the hook *)

Lemma importCategoryPlugin_failed env tasks pluginInfo category e rs :
  jsImport env (packageLocation pluginInfo) = Err e →
  importCategoryPluginAndQueueInitEnvTask env tasks pluginInfo category rs =
  (Err (AmplifyFault "PluginNotLoadedFault"
          {| fo_message := "Could not load plugin for category " +:+ category +:+ ".";
             fo_details := Some (exn_message e);
             fo_resolution := resolutionText;
             fo_stack := exn_stack e |} e),
   addEvents rs [EvImport (packageLocation pluginInfo)]).
Proof.
  intros Hload. unfold importCategoryPluginAndQueueInitEnvTask, tryCatch, bind, log,
    liftResult, throw. simpl. by rewrite Hload.
Qed.

Lemma filter_keys_app (meta : obj) (pre post : list (string * list PluginInfo)) :
  List.filter (λ key, has_key meta key) (map fst (pre ++ post))
  = List.filter (λ key, has_key meta key) (map fst pre)
    ++ List.filter (λ key, has_key meta key) (map fst post).
Proof. by rewrite map_app, List.filter_app. Qed.

(** X12. A plugin of an initialized category that does not load is fatal:
    when the plugins resolution reaches before it have loaded, the run ends
    with a [PluginNotLoadedFault] that names the category and carries the
    load error; the plugins after it, the later categories and every
    provider plugin are not loaded, and no task runs. *)
Theorem category_load_failure_is_fatal
    (env : Env) (passed currentAmplifyMeta : value) (rs rs1 : RunState)
    (amplifyMeta meta : obj) (pre post : list (string * list PluginInfo))
    (category : string) (before after : list PluginInfo) (pluginInfo : PluginInfo) (e : exn) :
  defaultCurrentAmplifyMeta passed (store rs) = Ok currentAmplifyMeta →
  configMerge env (projectPathOf rs) (currentEnvOf rs) rs = (Ok amplifyMeta, rs1) →
  smMeta (store rs1) = Ok meta →
  NoDup (map fst (getAllCategoryPluginInfo env)) →
  getAllCategoryPluginInfo env = pre ++ (category, before ++ pluginInfo :: after) :: post →
  has_key meta category = true →
  (∀ entry q, entry ∈ pre → has_key meta (fst entry) = true → q ∈ snd entry →
     ∃ pluginModule, jsImport env (packageLocation q) = Ok pluginModule) →
  (∀ q, q ∈ before → ∃ pluginModule, jsImport env (packageLocation q) = Ok pluginModule) →
  jsImport env (packageLocation pluginInfo) = Err e →
  initializeEnv env passed rs =
  (Err (AmplifyFault "PluginNotLoadedFault"
          {| fo_message := "Could not load plugin for category " +:+ category +:+ ".";
             fo_details := Some (exn_message e);
             fo_resolution := resolutionText;
             fo_stack := exn_stack e |} e),
   spinnerOff
     (addEvents rs1
        (EvGetMeta
         :: flat_map (λ entry, if has_key meta (fst entry)
                               then map (λ q, EvImport (packageLocation q)) (snd entry)
                               else []) pre
         ++ map (λ q, EvImport (packageLocation q)) (before ++ [pluginInfo])))
     (EvSpinnerFail failText)).
Proof.
  intros Hdef Hmerge Hmeta Hnd Hlist Hkey Hpre Hbefore Hfail.
  set (fault := AmplifyFault "PluginNotLoadedFault" _ e).
  assert (resolveCategoryTasks env rs1 =
          (Err fault,
           addEvents rs1
             (EvGetMeta
              :: flat_map (λ entry, if has_key meta (fst entry)
                                    then map (λ q, EvImport (packageLocation q)) (snd entry)
                                    else []) pre
              ++ map (λ q, EvImport (packageLocation q)) (before ++ [pluginInfo]))))
    as Hres.
  { unfold resolveCategoryTasks.
    assert (getMeta rs1 = (Ok meta, addEvents rs1 [EvGetMeta])) as Hget.
    { unfold getMeta, bind, log, getStore, liftResult. simpl. by rewrite Hmeta. }
    rewrite (bind_ok _ _ _ _ _ Hget). rewrite Hlist at 1. rewrite filter_keys_app.
    erewrite for_of_app; last first.
    { apply forEachCategory_loaded.
      - intros [c ps] Hin. apply pluginsOf_NoDup; [done|]. rewrite Hlist.
        apply elem_of_app. by left.
      - done. }
    simpl. rewrite Hkey. simpl for_of.
    rewrite (pluginsOf_NoDup _ category (before ++ pluginInfo :: after) Hnd)
      by (rewrite Hlist; apply elem_of_app; right; by left).
    apply bind_err.
    erewrite for_of_app; last by apply forEachPlugin_loaded.
    simpl for_of. erewrite bind_err; last by apply importCategoryPlugin_failed.
    rewrite !addEvents_app, map_app. simpl. by rewrite <- ?app_assoc. }
  rewrite (initializeEnv_run _ _ _ _ Hdef), initializeEnv_try_cases, mergeAndResolve_cases.
  rewrite Hmerge. by rewrite (bind_err _ _ _ _ _ Hres).
Qed.

Lemma category_load_failure_is_fatal_witness :
  fst (initializeEnv
         {| input := mkInput "init" [];
            ensureEnvParamManager := λ _, Ok Sample.noParams;
            getAllCategoryPluginInfo :=
              [("storage", [mkPluginInfo "amplify-category-storage"]);
               ("auth", [mkPluginInfo "amplify-category-auth";
                         mkPluginInfo "amplify-category-missing"])];
            getProviderPlugins := {[ "awscloudformation" := Sample.cfnLocation ]};
            jsImport := Sample.pluginRegistry None;
            getProjectDetails := λ _, Ok (mkProjectDetails None None None None);
            confirmPrompt := λ _, Ok false;
            getResourceStatus := λ _ _, Ok VNull;
            onCategoryOutputsChange := Sample.okHook |}
         VUndefined (Sample.start true ["awscloudformation"]))
  = Err (AmplifyFault "PluginNotLoadedFault"
           {| fo_message := "Could not load plugin for category auth.";
              fo_details := Some "Cannot find module";
              fo_resolution := resolutionText;
              fo_stack := "at import" |} Sample.loadError).
Proof.
  erewrite (category_load_failure_is_fatal _ VUndefined VUndefined
              (Sample.start true ["awscloudformation"]) _ _ Sample.persistedMeta
              [("storage", [mkPluginInfo "amplify-category-storage"])] []
              "auth" [mkPluginInfo "amplify-category-auth"] []
              (mkPluginInfo "amplify-category-missing") Sample.loadError).
  - reflexivity.
  - reflexivity.
  - compute_lhs. reflexivity.
  - reflexivity.
  - by apply (bool_decide_unpack _).
  - reflexivity.
  - reflexivity.
  - intros entry q Hin Hkey. apply list_elem_of_singleton in Hin as ->.
    by vm_compute in Hkey.
  - intros q Hq. apply list_elem_of_singleton in Hq as ->. by eexists.
  - reflexivity.
Defined.

(** X13. A provider module that loads but exposes no [initEnv] is not
    skipped as a category module is: its task is queued all the same and
    fails when it is run, with a [TypeError] that the platform phase wraps
    into its [ProjectInitFault]; the tasks before it have run, the ones
    after it have not. *)
Theorem provider_without_initEnv_fails_platform_phase
    (env : Env) (passed currentAmplifyMeta : value) (rs rs1 rs2 : RunState)
    (tasks : list Task * list Task) (pre post : list Task)
    (providerModule : PluginModule) (amplifyMeta : obj) (provider : string)
    (providersEntry providerMeta : value) :
  defaultCurrentAmplifyMeta passed (store rs) = Ok currentAmplifyMeta →
  mergeAndResolve env (currentEnvOf rs) rs = (Ok tasks, rs1) →
  fst tasks = pre ++ providerInitEnvTask providerModule amplifyMeta provider :: post →
  initEnv providerModule = None →
  get_prop (VObj amplifyMeta) "providers" = Ok providersEntry →
  get_prop providersEntry provider = Ok providerMeta →
  sequential pre
    (addEvents (spinnerOn rs1 (startText (isPulling (input env)) (currentEnvOf rs)))
       [EvStartTimer INIT_ENV_PLATFORM])
    = (Ok tt, rs2) →
  ∃ message,
    initializeEnv env passed rs =
    (Err (AmplifyFault "ProjectInitFault"
            {| fo_message :=
                 "Could not initialize platform for '" +:+ currentEnvOf rs +:+ "': "
                   +:+ message;
               fo_details := None;
               fo_resolution := resolutionText;
               fo_stack := exn_stack (TypeError message) |} (TypeError message)),
     spinnerOff (addEvents rs2 [EvStopTimer INIT_ENV_PLATFORM]) (EvSpinnerFail failText)).
Proof.
  intros Hdef Hmr Htasks Hnone Hprovs Hmeta Hpre.
  exists "providerModule.initEnv is not a function".
  rewrite (initializeEnv_run _ _ _ _ Hdef), initializeEnv_try_cases, Hmr, initPhases_cases.
  rewrite Htasks, (sequential_app_ok _ _ _ _ Hpre). simpl sequential.
  assert ((providerInitEnvTask providerModule amplifyMeta provider ;;; sequential post) rs2
          = (Err (TypeError "providerModule.initEnv is not a function"), rs2)) as Hfail.
  { apply bind_err. unfold providerInitEnvTask.
    rewrite Hprovs, bind_liftResult_ok, Hmeta, bind_liftResult_ok. by rewrite Hnone. }
  by rewrite Hfail.
Qed.

Lemma provider_without_initEnv_fails_platform_phase_witness :
  ∃ message,
    fst (initializeEnv
           {| input := mkInput "init" [];
              ensureEnvParamManager := λ _, Ok Sample.noParams;
              getAllCategoryPluginInfo := [];
              getProviderPlugins := {[ "awscloudformation" := "amplify-util-auth" ]};
              jsImport := Sample.pluginRegistry None;
              getProjectDetails := λ _, Ok (mkProjectDetails None None None None);
              confirmPrompt := λ _, Ok false;
              getResourceStatus := λ _ _, Ok VNull;
              onCategoryOutputsChange := Sample.okHook |}
           VUndefined (Sample.start true ["awscloudformation"]))
    = Err (AmplifyFault "ProjectInitFault"
             {| fo_message := "Could not initialize platform for 'dev': " +:+ message;
                fo_details := None;
                fo_resolution := resolutionText;
                fo_stack := exn_stack (TypeError message) |} (TypeError message)).
Proof.
  edestruct (provider_without_initEnv_fails_platform_phase
               {| input := mkInput "init" [];
                  ensureEnvParamManager := λ _, Ok Sample.noParams;
                  getAllCategoryPluginInfo := [];
                  getProviderPlugins := {[ "awscloudformation" := "amplify-util-auth" ]};
                  jsImport := Sample.pluginRegistry None;
                  getProjectDetails := λ _, Ok (mkProjectDetails None None None None);
                  confirmPrompt := λ _, Ok false;
                  getResourceStatus := λ _ _, Ok VNull;
                  onCategoryOutputsChange := Sample.okHook |}
               VUndefined VUndefined (Sample.start true ["awscloudformation"]))
    with (pre := @nil Task) (post := @nil Task)
         (providerModule := mkPluginModule None None)
         (amplifyMeta := freshMeta Sample.teamProviderInfo "dev")
         (provider := "awscloudformation")
    as [message Hrun].
  - reflexivity.
  - compute_lhs. reflexivity.
  - reflexivity.
  - reflexivity.
  - reflexivity.
  - reflexivity.
  - reflexivity.
  - exists message. by rewrite Hrun.
Defined.

(** ** What a run does after the merge step *)

Section LateEvents.
Context (env : Env) (P : event → Prop).
Context (Hlate : ∀ ev, isLate ev = true → P ev).

Ltac late_prim :=
  first
    [ apply safe_throw
    | apply safe_putStore
    | apply safe_setSpinning
    | apply safe_callHook
    | apply safe_log; apply Hlate; reflexivity
    | apply safe_getStore; done
    | apply safe_liftResult; done
    | apply safe_ret; done ].

Ltac late_go :=
  repeat first
    [ late_prim
    | apply (safe_bind _ anything); [|intros ? _]
    | apply safe_tryCatch; [|intros ?]
    | apply safe_tryFinally
    | match goal with
      | |- safe _ _ (match ?x with _ => _ end) => destruct x
      end ].

Lemma initPhases_late currentEnv initializationTasks categoryInitializationTasks :
  Forall (taskSafe P) initializationTasks →
  Forall (taskSafe P) categoryInitializationTasks →
  safe P anything (initPhases env currentEnv initializationTasks categoryInitializationTasks).
Proof.
  intros Hp Hc.
  unfold initPhases, spinner_start, spinner_succeed, refreshProjectDetails, providerInitPhase,
    categoryInitPhase.
  late_go; by apply safe_sequential.
Qed.

Lemma resolveCategoryTasks_late : safe P (Forall (taskSafe P)) (resolveCategoryTasks env).
Proof.
  unfold resolveCategoryTasks.
  apply (safe_bind _ anything); [unfold getMeta; late_go|intros meta _].
  apply safe_for_of; [constructor|]. intros tasks category Ht _.
  destruct (pluginsOf _ category) as [plugins|]; [|apply safe_throw].
  apply safe_for_of; [done|]. intros tasks' pluginInfo Ht' _.
  unfold importCategoryPluginAndQueueInitEnvTask.
  apply safe_tryCatch; [|intros e; apply safe_throw].
  apply (safe_bind _ anything); [late_go|intros _ _].
  apply (safe_bind _ anything); [late_go|intros m _].
  destruct (initEnv m) as [hook|]; apply safe_ret; [|done].
  apply Forall_app. split; [done|]. constructor; [|constructor].
  unfold taskSafe, categoryInitEnvTask. late_go.
Qed.

Lemma resolveProviderTasks_late amplifyMeta :
  safe P (Forall (λ t, ∃ providerModule provider,
                    t = providerInitEnvTask providerModule amplifyMeta provider))
    (resolveProviderTasks env amplifyMeta).
Proof.
  unfold resolveProviderTasks.
  apply (safe_bind _ anything); [late_go|intros s _].
  destruct (providers (exeInfo s)) as [providerList|]; [|apply safe_throw].
  apply safe_for_of; [constructor|]. intros tasks provider Ht _.
  apply safe_tryCatch; [|intros e; apply safe_throw].
  apply (safe_bind _ anything); [late_go|intros _ _].
  apply (safe_bind _ anything); [late_go|intros m _].
  apply safe_ret. apply Forall_app. split; [done|]. constructor; [|constructor]. eauto.
Qed.

Lemma afterInitPhases_late currentAmplifyMeta text :
  safe P anything
    (pushDecision env ;;; pushPhase env ;;;
     outputsRegeneration env currentAmplifyMeta ;;; printer_success text).
Proof.
  apply (safe_bind _ anything); [unfold pushDecision; late_go|intros _ _].
  apply (safe_bind _ anything); [|intros _ _; unfold outputsRegeneration, printer_success;
                                   late_go].
  unfold pushPhase.
  apply (safe_bind _ anything); [late_go|intros s _].
  destruct (forcePush (exeInfo s)) as [[|]|]; try (by apply safe_ret).
  apply (safe_bind _ (Forall (taskSafe P))); [|intros tasks Ht; by apply safe_sequential].
  unfold queuePushTasks.
  apply (safe_bind _ anything); [late_go|intros s' _].
  destruct (providers (exeInfo s')) as [providerList|]; [|apply safe_throw].
  apply safe_for_of; [constructor|]. intros tasks provider Ht _.
  apply (safe_bind _ anything); [late_go|intros _ _].
  apply (safe_bind _ anything); [late_go|intros m _].
  apply (safe_bind _ anything); [late_go|intros _ _].
  apply (safe_bind _ anything); [late_go|intros s'' _].
  apply (safe_bind _ anything); [late_go|intros d _].
  apply safe_ret. apply Forall_app. split; [done|]. constructor; [|constructor].
  unfold taskSafe, pushResourcesTask. late_go.
Qed.

(** Everything a run adds to the trace after its merge step satisfies [P],
    once the provider tasks built over the merged meta do. *)
Lemma run_after_merge_late passed currentAmplifyMeta rs :
  defaultCurrentAmplifyMeta passed (store rs) = Ok currentAmplifyMeta →
  (∀ amplifyMeta rs1,
     configMerge env (projectPathOf rs) (currentEnvOf rs) rs = (Ok amplifyMeta, rs1) →
     ∀ providerModule provider,
       taskSafe P (providerInitEnvTask providerModule amplifyMeta provider)) →
  ∃ evs,
    trace (snd (initializeEnv env passed rs))
    = trace (snd (configMerge env (projectPathOf rs) (currentEnvOf rs) rs)) ++ evs
    ∧ Forall P evs.
Proof.
  intros Hdef Hprov.
  assert (P (EvSpinnerFail failText)) as Hfail by (by apply Hlate).
  rewrite (initializeEnv_run _ _ _ _ Hdef), initializeEnv_try_cases, mergeAndResolve_cases.
  destruct (configMerge env (projectPathOf rs) (currentEnvOf rs) rs) as [[am|e] rs1] eqn:Hmerge.
  2:{ simpl. exists [EvSpinnerFail failText]. split; [done|]. by repeat constructor. }
  specialize (Hprov am rs1 eq_refl).
  assert (safe P (λ tasks, Forall (taskSafe P) (fst tasks) ∧ Forall (taskSafe P) (snd tasks))
            (let! categoryInitializationTasks := resolveCategoryTasks env in
             let! initializationTasks := resolveProviderTasks env am in
             ret (initializationTasks, categoryInitializationTasks))) as Hres.
  { apply (safe_bind _ (Forall (taskSafe P))); [apply resolveCategoryTasks_late|].
    intros ct Hct. eapply safe_bind; [apply resolveProviderTasks_late|].
    intros pt Hpt. apply safe_ret. split; [|done]. simpl.
    eapply Forall_impl; [exact Hpt|]. intros t (m & p & ->). apply Hprov. }
  set (resolve := bind (resolveCategoryTasks env) _) in *.
  set (after := bind (pushDecision env) _).
  destruct (resolve rs1) as [[tasks|e] rs2] eqn:H2;
    destruct (Hres _ _ _ H2) as [(evs2 & Ht2 & Hevs2) Htasks].
  2:{ simpl. exists (evs2 ++ [EvSpinnerFail failText]). rewrite Ht2, <- app_assoc.
      split; [done|]. apply Forall_app. split; [done|]. by repeat constructor. }
  destruct (Htasks tasks eq_refl) as [Hpt Hct].
  destruct (initPhases env (currentEnvOf rs) tasks.1 tasks.2 rs2) as [[[]|e] rs3] eqn:H3;
    destruct (initPhases_late _ _ _ Hpt Hct _ _ _ H3) as [(evs3 & Ht3 & Hevs3) _].
  2:{ simpl. exists (evs2 ++ evs3 ++ [EvSpinnerFail failText]).
      rewrite Ht3, Ht2, <- !app_assoc. split; [done|].
      repeat (apply Forall_app; split; [done|]). by repeat constructor. }
  destruct (after rs3) as [r4 rs4] eqn:H4.
  destruct (afterInitPhases_late _ _ _ _ _ H4) as [(evs4 & Ht4 & Hevs4) _].
  destruct r4 as [[]|e]; simpl.
  - exists (evs2 ++ evs3 ++ evs4). rewrite Ht4, Ht3, Ht2, <- !app_assoc. split; [done|].
    by repeat (apply Forall_app; split; [done|]).
  - exists (evs2 ++ evs3 ++ evs4 ++ [EvSpinnerFail failText]).
    rewrite Ht4, Ht3, Ht2, <- !app_assoc. split; [done|].
    repeat (apply Forall_app; split; [done|]). by repeat constructor.
Qed.

End LateEvents.

Lemma late_not_mergeCall ev : isLate ev = true → isMergeCall ev = false.
Proof. by destruct ev. Qed.

(** X8. In every run, the five calls of the merge step come first and at
    most once each, in this order: team-provider info, parameter manager,
    backend config, overrides of (hosting, ElasticContainer), meta write.
    Whatever else the run does - loading a plugin, the spinner, the timers, a
    hook, the prompt - comes after them, and none of it is one of the five
    calls. *)
Theorem merge_calls_come_first (env : Env) (passed : value) (rs : RunState) :
  ∃ evs1 evs2 rest meta,
    trace (snd (initializeEnv env passed rs)) = trace rs ++ evs1 ++ evs2
    ∧ evs1 ++ rest
      = [EvGetTeamProviderInfo (projectPathOf rs); EvEnsureEnvParamManager (currentEnvOf rs);
         EvGetBackendConfig (projectPathOf rs);
         EvHasResourceParamManager "hosting" "ElasticContainer";
         EvSetMeta (projectPathOf rs) meta]
    ∧ Forall (λ ev, isMergeCall ev = false) evs2.
Proof.
  destruct (defaultCurrentAmplifyMeta passed (store rs)) as [currentAmplifyMeta|e] eqn:Hdef.
  2:{ rewrite (initializeEnv_default_err _ _ _ _ Hdef). eexists [], [], _, ∅. simpl.
      rewrite app_nil_r. split; [done|]. split; [reflexivity|constructor]. }
  destruct (run_after_merge_late env (λ ev, isMergeCall ev = false) late_not_mergeCall
              passed _ rs Hdef) as (evs2 & Ht & Hevs2).
  { intros am rs1 _ m p. apply providerInitEnvTask_safe. by intros []. }
  rewrite Ht, configMerge_cases.
  destruct (smTeamProviderInfo (store rs)) as [tpi|e].
  2:{ eexists [_], evs2, _, ∅. simpl. rewrite <- app_assoc. done. }
  destruct (ensureEnvParamManager env (currentEnvOf rs)) as [epm|e].
  2:{ eexists [_; _], evs2, _, ∅. simpl. rewrite <- app_assoc. done. }
  destruct (restoreBackend (exeInfo (store rs))).
  { eexists [_; _], evs2, _, ∅. simpl. rewrite <- app_assoc. done. }
  destruct (smBackendConfig (store rs)) as [bc|e].
  2:{ eexists [_; _; _], evs2, _, ∅. simpl. rewrite <- app_assoc. done. }
  match goal with
  | |- context [match ?x with _ => _ end] => destruct x as [am|e]
  end.
  - eexists [_; _; _; _; _], evs2, [], am. simpl. rewrite <- app_assoc. done.
  - eexists [_; _; _; _], evs2, _, ∅. simpl. rewrite <- app_assoc. done.
Qed.

(** ** The push loop, when it fails *)

(** X11. The push is queued before it is run.  When the push is confirmed
    and, the providers before it having been queued, the module of a
    provider of the list does not load, or loads but its resource status
    cannot be obtained, the push phase fails with that very error - the load
    error, or the error of [getResourceStatus] - before any [pushResources]
    call: the store is as it was, the trace holds the imports and status
    reads made so far and nothing else, and no task has run, also for the
    providers that come earlier in the list. *)
Theorem push_aborts_before_any_push_when_queueing_fails
    (env : Env) (rs : RunState) (pre post : list string) (provider : string)
    (loaded : string → PluginModule) (definition : string → value) (e : exn) :
  forcePush (exeInfo (store rs)) = Some true →
  providers (exeInfo (store rs)) = Some (pre ++ provider :: post) →
  (∀ q, q ∈ pre → jsImport env (providerLocation env q) = Ok (loaded q)) →
  (∀ q, q ∈ pre → getResourceStatus env q (store rs) = Ok (definition q)) →
  (jsImport env (providerLocation env provider) = Err e →
   pushPhase env rs
   = (Err e,
      addEvents rs
        (flat_map (λ q, [EvImport (providerLocation env q); EvGetResourceStatus q]) pre
         ++ [EvImport (providerLocation env provider)])))
  ∧ (∀ providerModule,
       jsImport env (providerLocation env provider) = Ok providerModule →
       getResourceStatus env provider (store rs) = Err e →
       pushPhase env rs
       = (Err e,
          addEvents rs
            (flat_map (λ q, [EvImport (providerLocation env q); EvGetResourceStatus q]) pre
             ++ [EvImport (providerLocation env provider); EvGetResourceStatus provider]))).
Proof.
  intros Hforce Hprov Hload Hdef.
  assert (∀ r rs',
            (∀ tasks,
               for_of (provider :: post)
                 (λ providerPushTasks provider,
                    log (EvImport (providerLocation env provider)) ;;;
                    let! providerModule :=
                      liftResult (jsImport env (providerLocation env provider)) in
                    log (EvGetResourceStatus provider) ;;;
                    let! s := getStore in
                    let! resourceDefinition :=
                      liftResult (getResourceStatus env provider s) in
                    ret (providerPushTasks
                           ++ [pushResourcesTask providerModule provider resourceDefinition]))
                 tasks
                 (addEvents rs
                    (flat_map (λ q, [EvImport (providerLocation env q);
                                     EvGetResourceStatus q]) pre))
               = (Err r, rs')) →
            pushPhase env rs = (Err r, rs')) as Hphase.
  { intros r rs' Hrest. unfold pushPhase, bind at 1, getStore. rewrite Hforce.
    apply bind_err. unfold queuePushTasks, bind at 1, getStore. rewrite Hprov.
    rewrite (for_of_app _ _ _ _ _ _ _ (pushLoop_run env loaded definition pre [] rs Hload Hdef)).
    apply Hrest. }
  split.
  - intros Hfail. apply Hphase. intros tasks. simpl for_of. apply bind_err.
    unfold bind, log, liftResult. simpl. rewrite Hfail.
    unfold addEvents. simpl. by rewrite <- app_assoc.
  - intros providerModule Hm Hfail. apply Hphase. intros tasks. simpl for_of. apply bind_err.
    unfold bind, log, liftResult, getStore. simpl. rewrite Hm. simpl. rewrite Hfail.
    unfold addEvents. simpl. by rewrite <- !app_assoc.
Qed.

Lemma push_aborts_before_any_push_when_queueing_fails_witness :
  pushPhase (Sample.env true (Some Sample.okHook))
    (mkRun (setExeInfo (Sample.store false [])
              (mkExeInfo (mkLocalEnvInfo "dev" "/project") false (Some true)
                 (Some ["awscloudformation"; "other"])))
       [] false)
  = (Err Sample.loadError,
     mkRun (setExeInfo (Sample.store false [])
              (mkExeInfo (mkLocalEnvInfo "dev" "/project") false (Some true)
                 (Some ["awscloudformation"; "other"])))
       [EvImport Sample.cfnLocation; EvGetResourceStatus "awscloudformation";
        EvImport "undefined"] false).
Proof.
  apply (proj1 (push_aborts_before_any_push_when_queueing_fails
                  (Sample.env true (Some Sample.okHook))
                  (mkRun (setExeInfo (Sample.store false [])
                            (mkExeInfo (mkLocalEnvInfo "dev" "/project") false (Some true)
                               (Some ["awscloudformation"; "other"])))
                     [] false)
                  ["awscloudformation"] [] "other"
                  (λ _, mkPluginModule (Some Sample.okHook) (Some Sample.okHook))
                  (λ _, Sample.resourceDefinition) Sample.loadError
                  eq_refl eq_refl
                  ltac:(intros q Hq; apply list_elem_of_singleton in Hq as ->; reflexivity)
                  ltac:(intros q Hq; reflexivity))).
  reflexivity.
Defined.

(** ** Restoring a backend: the provider tasks of the run *)

Lemma keepsStore_refl rs : keepsStore rs rs.
Proof. done. Qed.

Lemma keepsStore_trans x y z : keepsStore x y → keepsStore y z → keepsStore x z.
Proof. unfold keepsStore. congruence. Qed.

Lemma keepsStore_log rs ev : True → keepsStore rs (addEvents rs [ev]).
Proof. done. Qed.

Lemma resolveCategoryTasks_keepsStore env :
  follows keepsStore anything (resolveCategoryTasks env).
Proof.
  pose proof keepsStore_refl as Hrefl. pose proof keepsStore_trans as Htrans.
  pose proof keepsStore_log as Hlog.
  unfold resolveCategoryTasks.
  apply (follows_bind _ Htrans anything).
  { unfold getMeta. apply (follows_bind _ Htrans anything).
    - by apply (follows_log _ (λ _, True) Hlog).
    - intros _ _. apply (follows_bind _ Htrans anything).
      + by apply (follows_getStore _ Hrefl).
      + intros s _. by apply (follows_liftResult _ Hrefl). }
  intros meta _.
  apply (follows_for_of _ Hrefl Htrans); [done|]. intros tasks category _ _.
  destruct (pluginsOf _ category) as [plugins|]; [|apply (follows_throw _ Hrefl)].
  apply (follows_for_of _ Hrefl Htrans); [done|]. intros tasks' pluginInfo _ _.
  unfold importCategoryPluginAndQueueInitEnvTask.
  apply (follows_tryCatch _ Htrans); [|intros e; apply (follows_throw _ Hrefl)].
  apply (follows_bind _ Htrans anything); [by apply (follows_log _ (λ _, True) Hlog)|].
  intros _ _.
  apply (follows_bind _ Htrans anything); [by apply (follows_liftResult _ Hrefl)|].
  intros m _. destruct (initEnv m); by apply (follows_ret _ Hrefl).
Qed.

Lemma providerLoop_ok env amplifyMeta (ps : list string) tasks rs tasks' rs' :
  for_of ps
    (λ initializationTasks provider,
       tryCatch
         (log (EvImport (providerLocation env provider)) ;;;
          let! providerModule := liftResult (jsImport env (providerLocation env provider)) in
          ret (initializationTasks
                 ++ [providerInitEnvTask providerModule amplifyMeta provider]))
         (λ e, throw (amplifyFaultWithTroubleshootingLink "PluginNotLoadedFault"
                        {| fo_message :=
                             "Could not load plugin for provider " +:+ provider +:+ ".";
                           fo_details := Some (exn_message e);
                           fo_resolution := resolutionText;
                           fo_stack := exn_stack e |} e)))
    tasks rs
  = (Ok tasks', rs') →
  tasks' = tasks ++ expectedProviderTasks (loadedProvider env) amplifyMeta ps
  ∧ (∀ p, p ∈ ps → jsImport env (providerLocation env p) = Ok (loadedProvider env p))
  ∧ store rs' = store rs.
Proof.
  revert tasks rs. induction ps as [|p ps IH]; intros tasks rs Hrun.
  - inversion Hrun; subst. rewrite app_nil_r. split; [done|]. split; [|done].
    intros p Hp. by apply elem_of_nil in Hp.
  - simpl for_of in Hrun.
    destruct (jsImport env (providerLocation env p)) as [m|e] eqn:Himport.
    + match type of Hrun with
      | bind ?step _ _ = _ =>
          assert (step rs = (Ok (tasks ++ [providerInitEnvTask m amplifyMeta p]),
                             addEvents rs [EvImport (providerLocation env p)])) as Hstep
      end.
      { reflexivity. }
      rewrite (bind_ok _ _ _ _ _ Hstep) in Hrun.
      destruct (IH _ _ Hrun) as (-> & Hload & Hstore).
      assert (loadedProvider env p = m) as Hm by (unfold loadedProvider; by rewrite Himport).
      split; [|split].
      * simpl. by rewrite Hm, <- app_assoc.
      * intros q Hq. apply elem_of_cons in Hq as [->|Hq]; [by rewrite Hm|by apply Hload].
      * by rewrite Hstore.
    + match type of Hrun with
      | bind ?step _ _ = _ =>
          assert (∃ e' rs1, step rs = (Err e', rs1)) as (e' & rs1 & Hstep)
      end.
      { unfold tryCatch, bind, log, liftResult, throw. simpl. eauto. }
      rewrite (bind_err _ _ _ _ _ Hstep) in Hrun. discriminate Hrun.
Qed.

Lemma providerInitEnvTask_fresh_safe (P : event → Prop) teamProviderInfo currentEnv
    providerModule provider :
  P (EvProviderInitEnv provider (providerMetaFrom teamProviderInfo currentEnv provider)) →
  taskSafe P (providerInitEnvTask providerModule (freshMeta teamProviderInfo currentEnv) provider).
Proof.
  intros HP. destruct (initEnv providerModule) as [hook|] eqn:Hhook.
  - intros rs. unfold safeAt.
    rewrite (providerInitEnvTask_freshMeta _ _ _ _ _ _ Hhook).
    apply (safe_bind _ anything); [by apply safe_log|]. intros _ _. apply safe_callHook.
  - unfold providerInitEnvTask, freshMeta. rewrite Hhook.
    unfold get_prop at 1. rewrite lookup_singleton_eq. simpl.
    intros rs. unfold safeAt. rewrite bind_liftResult_ok.
    apply (safe_bind _ anything); [by apply safe_liftResult|]. intros _ _. apply safe_throw.
Qed.

(** C1, as the code has it.  With [restoreBackend] set, the merge step reads
    neither the backend config nor the parameter overrides and does not
    write the meta - no such call occurs in the whole run - so the store,
    and with it the persisted meta read downstream, is exactly as before;
    the meta the step hands on is the one built from the team-provider
    info, not the persisted one.  The provider tasks the run resolves are
    built over that meta: one task per entry of the provider list, for the
    module loaded for it, and each such task hands the provider's [initEnv]
    that meta's entry - the team-provider info's [awscloudformation] entry
    of the current environment for that provider, [undefined] for any other.
    So in the whole run, every call of a provider's [initEnv] carries that
    entry. *)
Theorem restore_backend_skips_merge (env : Env) (passed : value) (rs : RunState) :
  restoreBackend (exeInfo (store rs)) = true →
  (∀ projectPath currentEnv r rs1,
     configMerge env projectPath currentEnv rs = (r, rs1) →
     store rs1 = store rs
     ∧ countClass CMerge (trace rs1) = countClass CMerge (trace rs)
     ∧ (∀ amplifyMeta, r = Ok amplifyMeta →
          ∃ teamProviderInfo,
            smTeamProviderInfo (store rs) = Ok teamProviderInfo
            ∧ amplifyMeta = freshMeta teamProviderInfo currentEnv))
  ∧ countClass CMerge (trace (snd (initializeEnv env passed rs))) = countClass CMerge (trace rs)
  ∧ (∀ providerModule hook teamProviderInfo currentEnv provider rs',
       initEnv providerModule = Some hook →
       providerInitEnvTask providerModule (freshMeta teamProviderInfo currentEnv) provider rs' =
       let providerMeta :=
         if decide (provider = "awscloudformation")
         then get_prop_opt (get_prop_opt teamProviderInfo currentEnv) "awscloudformation"
         else VUndefined in
       (log (EvProviderInitEnv provider providerMeta) ;;; callHook (hook providerMeta)) rs')
  ∧ (∀ currentEnv tasks rs1,
       mergeAndResolve env currentEnv rs = (Ok tasks, rs1) →
       store rs1 = store rs
       ∧ ∃ teamProviderInfo providerList,
           smTeamProviderInfo (store rs) = Ok teamProviderInfo
           ∧ providers (exeInfo (store rs)) = Some providerList
           ∧ (∀ provider, provider ∈ providerList →
                jsImport env (providerLocation env provider) = Ok (loadedProvider env provider))
           ∧ fst tasks
             = expectedProviderTasks (loadedProvider env)
                 (freshMeta teamProviderInfo currentEnv) providerList)
  ∧ (∃ evs,
       trace (snd (initializeEnv env passed rs)) = trace rs ++ evs
       ∧ ∀ provider providerMeta,
           EvProviderInitEnv provider providerMeta ∈ evs →
           ∃ teamProviderInfo,
             smTeamProviderInfo (store rs) = Ok teamProviderInfo
             ∧ providerMeta = providerMetaFrom teamProviderInfo (currentEnvOf rs) provider).
Proof.
  intros Hrestore. split; [|split; [|split; [|split]]].
  - intros projectPath currentEnv r rs1 Hrun.
    rewrite (configMerge_restore _ _ _ _ Hrestore) in Hrun.
    destruct (smTeamProviderInfo (store rs)) as [tpi|e]; inversion Hrun; subst; simpl.
    + split; [done|]. split.
      * rewrite countClass_app. unfold countClass at 2. simpl. lia.
      * intros amplifyMeta Ham. exists tpi. split; [done|].
        destruct (ensureEnvParamManager env currentEnv); by inversion Ham.
    + split; [done|]. split; [|done].
      rewrite countClass_app. unfold countClass at 2. simpl. lia.
  - destruct (initializeEnv env passed rs) as [r rs'] eqn:Hrun.
    assert (safeAt (λ ev, classify ev ≠ CMerge) anything (initializeEnv env passed) rs) as Hsafe.
    { apply initializeEnv_restore_safeAt; [by intros ev ->..|done]. }
    destruct (Hsafe _ _ Hrun) as [(evs & Ht & Hevs) _].
    simpl. rewrite Ht, countClass_app, (countClass_none _ _ Hevs). lia.
  - intros. by apply providerInitEnvTask_freshMeta.
  - intros currentEnv tasks rs1 Hrun.
    rewrite mergeAndResolve_cases, (configMerge_restore _ _ _ _ Hrestore) in Hrun.
    destruct (smTeamProviderInfo (store rs)) as [tpi|e]; [|discriminate Hrun].
    destruct (ensureEnvParamManager env currentEnv) as [epm|e]; [|discriminate Hrun].
    destruct (bind_inv _ _ _ _ _ Hrun) as [(ct & rs2 & Hcat & Hrest)|(e & _ & [=])].
    destruct (resolveCategoryTasks_keepsStore env _ _ _ Hcat) as [Hstore2 _].
    unfold keepsStore in Hstore2. simpl in Hstore2.
    destruct (bind_inv _ _ _ _ _ Hrest) as [(pt & rs3 & Hprov & Hret)|(e & _ & [=])].
    inversion Hret; subst. simpl.
    unfold resolveProviderTasks, bind at 1, getStore in Hprov. rewrite Hstore2 in Hprov.
    destruct (providers (exeInfo (store rs))) as [ps|]; [|discriminate Hprov].
    destruct (providerLoop_ok _ _ _ _ _ _ _ Hprov) as (-> & Hload & Hstore3).
    split; [by rewrite Hstore3|]. by exists tpi, ps.
  - destruct (defaultCurrentAmplifyMeta passed (store rs)) as [currentAmplifyMeta|e] eqn:Hdef.
    2:{ rewrite (initializeEnv_default_err _ _ _ _ Hdef). exists []. simpl.
        rewrite app_nil_r. split; [done|]. intros p m Hin. by apply elem_of_nil in Hin. }
    destruct (run_after_merge_late env
                (λ ev, ∀ provider providerMeta,
                   ev = EvProviderInitEnv provider providerMeta →
                   ∃ teamProviderInfo,
                     smTeamProviderInfo (store rs) = Ok teamProviderInfo
                     ∧ providerMeta
                       = providerMetaFrom teamProviderInfo (currentEnvOf rs) provider)
                ltac:(by intros [] Hlate)
                passed _ rs Hdef) as (evs & Ht & Hevs).
    { intros am rs1 Hmerge m p. rewrite (configMerge_restore _ _ _ _ Hrestore) in Hmerge.
      destruct (smTeamProviderInfo (store rs)) as [tpi|e]; [|discriminate Hmerge].
      destruct (ensureEnvParamManager env (currentEnvOf rs)); [|discriminate Hmerge].
      inversion Hmerge; subst. apply providerInitEnvTask_fresh_safe.
      intros p' m' [= <- <-]. by exists tpi. }
    rewrite Ht, (configMerge_restore _ _ _ _ Hrestore).
    assert (∀ provider providerMeta,
              EvProviderInitEnv provider providerMeta ∈ evs →
              ∃ teamProviderInfo,
                smTeamProviderInfo (store rs) = Ok teamProviderInfo
                ∧ providerMeta
                  = providerMetaFrom teamProviderInfo (currentEnvOf rs) provider) as Hlater.
    { intros p m Hin. rewrite Forall_forall in Hevs. by apply (Hevs _ Hin). }
    destruct (smTeamProviderInfo (store rs)) as [tpi|e]; simpl.
    + exists ([EvGetTeamProviderInfo (projectPathOf rs);
               EvEnsureEnvParamManager (currentEnvOf rs)] ++ evs).
      split; [by rewrite <- app_assoc|]. intros p m Hin.
      apply elem_of_app in Hin as [Hin|Hin]; [|by apply Hlater].
      apply elem_of_cons in Hin as [[=]|Hin].
      apply list_elem_of_singleton in Hin. discriminate Hin.
    + exists ([EvGetTeamProviderInfo (projectPathOf rs)] ++ evs).
      split; [by rewrite <- app_assoc|]. intros p m Hin.
      apply elem_of_app in Hin as [Hin|Hin]; [|by apply Hlater].
      apply list_elem_of_singleton in Hin. discriminate Hin.
Qed.

Lemma restore_backend_skips_merge_witness :
  countClass CMerge
    (trace (snd (initializeEnv (Sample.env false None) VUndefined
                   (Sample.start true ["awscloudformation"])))) = 0
  ∧ (∃ evs,
       trace (snd (initializeEnv (Sample.env false None) VUndefined
                     (Sample.start true ["awscloudformation"])))
       = trace (Sample.start true ["awscloudformation"]) ++ evs
       ∧ ∀ provider providerMeta,
           EvProviderInitEnv provider providerMeta ∈ evs →
           ∃ teamProviderInfo,
             smTeamProviderInfo (store (Sample.start true ["awscloudformation"]))
             = Ok teamProviderInfo
             ∧ providerMeta
               = providerMetaFrom teamProviderInfo
                   (currentEnvOf (Sample.start true ["awscloudformation"])) provider).
Proof.
  split.
  - apply (proj1 (proj2 (restore_backend_skips_merge (Sample.env false None) VUndefined
                           (Sample.start true ["awscloudformation"]) eq_refl))).
  - apply (proj2 (proj2 (proj2 (proj2
             (restore_backend_skips_merge (Sample.env false None) VUndefined
                (Sample.start true ["awscloudformation"]) eq_refl))))).
Defined.
